(** * geopib: zonal temperature statistics per municipality

    A shallow embedding of [index.py] (raster-to-polygon aggregation:
    scale detection, zonal means, plausibility filter, nan-aware annual
    mean) and of [stats.py] (rankings, binned distribution, IQR outliers),
    followed by the properties proved about them.

    Numbers.  Python and NumPy floats are modelled by [pyfloat]: the IEEE
    special values (both infinities and NaN) are kept, with their comparison
    and arithmetic rules, and finite values are exact rationals.  Rounding,
    overflow and the sign of zero are therefore abstracted away; every
    comparison the scripts perform is modelled as written. *)

From Stdlib Require Import Bool List Arith ZArith QArith Qround Lia Lqa.
From Stdlib Require Import Permutation Sorted.
From Stdlib Require String Ascii DecimalString.
Import ListNotations.
Import String.StringSyntax Ascii.AsciiSyntax.
Abbreviation string := String.string.
Local Open Scope string_scope.

(* ===================================================================== *)
(** * Part I: definitions *)
(* ===================================================================== *)

(** ** Floating-point values *)

Inductive pyfloat : Type :=
| Fin (q : Q)
| PInf
| NInf
| NaN.

Definition Qlt_bool (a b : Q) : bool := negb (Qle_bool b a).

(** [x < y]; every comparison with NaN is false. *)
Definition flt (x y : pyfloat) : bool :=
  match x, y with
  | NaN, _ | _, NaN => false
  | Fin a, Fin b => Qlt_bool a b
  | NInf, NInf => false
  | NInf, _ => true
  | Fin _, PInf => true
  | _, _ => false
  end.

(** [x > y]. *)
Definition fgt (x y : pyfloat) : bool := flt y x.

(** [x <= y]. *)
Definition fle (x y : pyfloat) : bool :=
  match x, y with
  | NaN, _ | _, NaN => false
  | Fin a, Fin b => Qle_bool a b
  | NInf, _ => true
  | _, PInf => true
  | _, _ => false
  end.

(** [x == y]. *)
Definition feq (x y : pyfloat) : bool :=
  match x, y with
  | Fin a, Fin b => Qeq_bool a b
  | PInf, PInf => true
  | NInf, NInf => true
  | _, _ => false
  end.

(** [x != y]; true as soon as one side is NaN. *)
Definition fne (x y : pyfloat) : bool := negb (feq x y).

Definition fneg (x : pyfloat) : pyfloat :=
  match x with
  | Fin a => Fin (- a)
  | PInf => NInf
  | NInf => PInf
  | NaN => NaN
  end.

Definition fadd (x y : pyfloat) : pyfloat :=
  match x, y with
  | NaN, _ | _, NaN => NaN
  | Fin a, Fin b => Fin (a + b)
  | PInf, NInf | NInf, PInf => NaN
  | PInf, _ | _, PInf => PInf
  | NInf, _ | _, NInf => NInf
  end.

Definition fsub (x y : pyfloat) : pyfloat := fadd x (fneg y).

(** The infinity of the sign of [a], NaN when [a] is zero. *)
Definition inf_signed (a : Q) : pyfloat :=
  if Qlt_bool 0 a then PInf else if Qlt_bool a 0 then NInf else NaN.

Definition fmul (x y : pyfloat) : pyfloat :=
  match x, y with
  | NaN, _ | _, NaN => NaN
  | Fin a, Fin b => Fin (a * b)
  | Fin a, PInf | PInf, Fin a => inf_signed a
  | Fin a, NInf | NInf, Fin a => inf_signed (- a)
  | PInf, PInf | NInf, NInf => PInf
  | PInf, NInf | NInf, PInf => NaN
  end.

(** NumPy's true division: a finite value over zero is an infinity,
    zero over zero is NaN. *)
Definition fdiv (x y : pyfloat) : pyfloat :=
  match x, y with
  | NaN, _ | _, NaN => NaN
  | Fin a, Fin b => if Qeq_bool b 0 then inf_signed a else Fin (a / b)
  | Fin _, _ => Fin 0
  | PInf, Fin b => if Qlt_bool b 0 then NInf else PInf
  | NInf, Fin b => if Qlt_bool b 0 then PInf else NInf
  | _, _ => NaN
  end.

Definition isfinite (x : pyfloat) : bool :=
  match x with Fin _ => true | _ => false end.

Definition isnan (x : pyfloat) : bool :=
  match x with NaN => true | _ => false end.

(** Numerical equality of two floats: same special value, or equal
    rationals. *)
Definition fsame (x y : pyfloat) : Prop :=
  match x, y with
  | Fin a, Fin b => a == b
  | PInf, PInf | NInf, NInf | NaN, NaN => True
  | _, _ => False
  end.

Definition of_nat (n : nat) : pyfloat := Fin (inject_Z (Z.of_nat n)).

(** ** NumPy arrays

    A band read by [src.read(1)] is a two-dimensional array: a list of
    rows.  Masks are arrays of booleans of the same shape. *)

Module Np.

Definition ndarray := list (list pyfloat).
Definition mask := list (list bool).

Definition map2 {A B C} (f : A -> B -> C) : list A -> list B -> list C :=
  fix go l1 l2 :=
    match l1, l2 with
    | a :: l1', b :: l2' => f a b :: go l1' l2'
    | _, _ => []
    end.

(** [np.isfinite(data)]. *)
Definition isfinite_arr (data : ndarray) : mask := map (map isfinite) data.

(** [data != c]. *)
Definition ne_scalar (data : ndarray) (c : pyfloat) : mask :=
  map (map (fun x => fne x c)) data.

(** [m1 & m2]. *)
Definition and_mask (m1 m2 : mask) : mask := map2 (map2 andb) m1 m2.

(** [np.any(m)]. *)
Definition any (m : mask) : bool := existsb (existsb (fun b => b)) m.

(** [int(m.sum())]. *)
Definition count (m : mask) : nat :=
  length (filter (fun b => b) (concat m)).

(** [data[m]]: the selected cells, flattened in row-major order. *)
Definition select (data : ndarray) (m : mask) : list pyfloat :=
  map fst (filter snd (combine (concat data) (concat m))).

(** NumPy's [maximum]: NaN wins, otherwise the larger value. *)
Definition maximum (x y : pyfloat) : pyfloat :=
  if isnan x then x else if isnan y then y else if flt x y then y else x.

Definition minimum (x y : pyfloat) : pyfloat :=
  if isnan x then x else if isnan y then y else if flt y x then y else x.

(** [np.max(l)]; [None] stands for the ValueError raised on an empty
    selection. *)
Definition max (l : list pyfloat) : option pyfloat :=
  match l with
  | [] => None
  | x :: l' => Some (fold_left maximum l' x)
  end.

Definition min (l : list pyfloat) : option pyfloat :=
  match l with
  | [] => None
  | x :: l' => Some (fold_left minimum l' x)
  end.

Definition sum (l : list pyfloat) : pyfloat := fold_left fadd l (Fin 0).

(** [np.nanmean] over one column: NaNs are replaced by zero and summed,
    the total is divided by the number of non-NaN entries; with no such
    entry the quotient is 0/0, NaN. *)
Definition nanmean (l : list pyfloat) : pyfloat :=
  let replaced := map (fun x => if isnan x then Fin 0 else x) l in
  let cnt := length (filter (fun x => negb (isnan x)) l) in
  fdiv (sum replaced) (of_nat cnt).

(** The non-missing entries of a column. *)
Definition present (col : list pyfloat) : list pyfloat :=
  filter (fun x => negb (isnan x)) col.

(** [np.nanmean(table, axis=0)]: one mean per column of a table given as
    a list of rows; the number of columns is that of the first row. *)
Definition nanmean_axis0 (table : list (list pyfloat)) : list pyfloat :=
  match table with
  | [] => []
  | row0 :: _ =>
      map (fun i => nanmean (map (fun row => nth i row NaN) table))
          (seq 0 (length row0))
  end.

End Np.

(** ** Python strings (byte strings; paths are taken to be POSIX paths) *)

Module Str.

(** [needle in hay]. *)
Fixpoint contains (needle hay : string) : bool :=
  String.prefix needle hay ||
  match hay with
  | String.EmptyString => false
  | String.String _ hay' => contains needle hay'
  end.

(** [s.endswith(suffix)]. *)
Definition endswith (s suffix : string) : bool :=
  let n := String.length s in
  let m := String.length suffix in
  (m <=? n)%nat && String.eqb (String.substring (n - m) m s) suffix.

Definition lower_ascii (c : Ascii.ascii) : Ascii.ascii :=
  let n := Ascii.nat_of_ascii c in
  if ((65 <=? n) && (n <=? 90))%nat then Ascii.ascii_of_nat (n + 32) else c.

(** [s.lower()], on ASCII letters. *)
Fixpoint lower (s : string) : string :=
  match s with
  | String.EmptyString => String.EmptyString
  | String.String c s' => String.String (lower_ascii c) (lower s')
  end.

Definition slash : Ascii.ascii := Ascii.ascii_of_nat 47.

(** [os.path.basename(path)]: what follows the last slash. *)
Fixpoint basename (path : string) : string :=
  match path with
  | String.EmptyString => String.EmptyString
  | String.String c rest =>
      if Ascii.eqb c slash then basename rest
      else if contains "/" rest then basename rest
      else path
  end.

(** [f"{n:02d}"] for a non-negative integer. *)
Definition format_02d (n : nat) : string :=
  let d := DecimalString.NilEmpty.string_of_uint (Nat.to_uint n) in
  if (String.length d <? 2)%nat then String.append "0" d else d.

Fixpoint insert_sorted (x : string) (l : list string) : list string :=
  match l with
  | [] => [x]
  | y :: l' => if String.leb x y then x :: l else y :: insert_sorted x l'
  end.

(** [x <= y] on strings, as a proposition. *)
Definition leb_prop (a b : string) : Prop := String.leb a b = true.

(** [sorted(l)] on a list of strings. *)
Definition sorted (l : list string) : list string :=
  fold_right insert_sorted [] l.

End Str.

(** ** index.py *)

Module Index.

(** *** Inputs *)

(** The command line ([_parse_args]): [--mes] is restricted by argparse to
    1..12, [--escala] to 1.0 or 0.1. *)
Record Args : Type := {
  mes : option nat;
  debug : bool;
  limite : option Z;
  escala : option pyfloat
}.

(** A row of the shapefile.  The geometry is kept as the set of raster cells
    (row, column) whose centre it contains, which is all the zonal
    statistics consume; the zero-width buffer repair of invalid geometries
    happens before and is not modelled. *)
Record Municipio : Type := {
  CD_MUN : string;
  NM_MUN : string;
  SIGLA_UF : string;
  geometry : nat -> nat -> bool
}.

(** What [rasterio.open] gives for one file: band 1 read as float32 and the
    nodata value of the dataset. *)
Record RasterFile : Type := {
  data : Np.ndarray;
  nodata : option pyfloat
}.

(** The files matched by [glob.glob(RASTER_GLOB)], in the order the file
    system lists them. *)
Definition FileSystem := list (string * RasterFile).

Record Row : Type := {
  codigo_ibge : string;
  municipio : string;
  estado : string;
  temp_media_anual : pyfloat
}.

Definition DataFrame := list Row.

(** *** Effects: exceptions and the observable events of a run *)

Inductive exn : Type :=
| ValueError_limite                (* "--limite deve ser um inteiro positivo." *)
| RuntimeError_nenhum_raster       (* "Nenhum raster encontrado com o padrão" *)
| RuntimeError_esperado_12         (* "Esperado 12 rasters (1 por mês)." *)
| RuntimeError_mes (month : nat)   (* "Não encontrei raster para o mês MM." *)
| RasterioIOError (path : string).

Inductive event : Type :=
| EvOpen (path : string)
| EvZonalStats (path : string) (polygons : nat)
| EvToCsv (path : string) (df : DataFrame).

(** A computation reads the events so far and returns a value or an
    exception, together with the events extended by its own. *)
Definition M (A : Type) : Type := list event -> (exn + A) * list event.

Definition ret {A} (a : A) : M A := fun tr => (inr a, tr).

Definition bind {A B} (c : M A) (k : A -> M B) : M B :=
  fun tr =>
    match c tr with
    | (inl e, tr') => (inl e, tr')
    | (inr a, tr') => k a tr'
    end.

Definition raise {A} (e : exn) : M A := fun tr => (inl e, tr).

Definition emit (ev : event) : M unit := fun tr => (inr tt, (tr ++ [ev])%list).

Definition lift {A} (r : exn + A) : M A := fun tr => (r, tr).

Notation "x <- c ;; k" := (bind c (fun x => k))
  (at level 61, c at next level, right associativity).
Notation "c ;;; k" := (bind c (fun _ => k))
  (at level 61, right associativity).

(** A [for] loop threading the loop-carried variables. *)
Fixpoint for_each {A S} (body : S -> A -> M S) (l : list A) (s : S) : M S :=
  match l with
  | [] => ret s
  | a :: l' => s' <- body s a ;; for_each body l' s'
  end.

(** *** Configuration *)

Definition SHAPEFILE : string := "municipios/BR_Municipios_2024.shp".
Definition RASTER_GLOB : string := "raster_brasil/wc2.1_30s_tavg_*.tif".
Definition OUTPUT : string := "temperatura_media_por_municipio.csv".

Definition MIN_TEMP_C : pyfloat := Fin (-20).
Definition MAX_TEMP_C : pyfloat := Fin 50.

(** *** [_detect_scale_from_array] *)

Definition valid_mask (data : Np.ndarray) (nodata : option pyfloat) : Np.mask :=
  match nodata with
  | None => Np.isfinite_arr data
  | Some nd => Np.and_mask (Np.isfinite_arr data) (Np.ne_scalar data nd)
  end.

Definition _detect_scale_from_array (data : Np.ndarray) (nodata : option pyfloat)
  : pyfloat :=
  let valid := valid_mask data nodata in
  if negb (Np.any valid) then Fin 1
  else
    match Np.max (Np.select data valid) with
    | Some vmax => if fgt vmax (Fin 80) then Fin (1 # 10) else Fin 1
    | None => Fin 1 (* not reached: the selection is not empty here *)
    end.

(** *** [_pick_raster_for_month] *)

Definition _pick_raster_for_month (rasters : list string) (month : nat)
  : exn + list string :=
  let mm := Str.format_02d month in
  match find (fun path => Str.contains (String.append "tavg_" mm) (Str.basename path))
             rasters with
  | Some path => inr [path]
  | None =>
      let suffix := String.append "_" (String.append mm ".tif") in
      match find (fun path => Str.endswith (Str.lower path) suffix) rasters with
      | Some path => inr [path]
      | None =>
          if ((1 <=? month) && (month <=? length rasters))%nat
          then inr [nth (month - 1) rasters ""]
          else inl (RuntimeError_mes month)
      end
  end.

(** *** Zonal statistics *)

Definition enumerate {A} (l : list A) : list (nat * A) :=
  combine (seq 0 (length l)) l.

(** The cells of the band whose centre lies inside a geometry, in
    row-major order. *)
Definition cells_in (geom : nat -> nat -> bool) (data : Np.ndarray)
  : list pyfloat :=
  concat (map (fun ir =>
                 map snd (filter (fun jx => geom (fst ir) (fst jx))
                                 (enumerate (snd ir))))
              (enumerate data)).

(** A cell counts when it is finite and differs from the nodata value. *)
Definition cell_valid (nodata : option pyfloat) (x : pyfloat) : bool :=
  isfinite x &&
  match nodata with
  | None => true
  | Some nd => fne x nd
  end.

(** The valid values of a whole band. *)
Definition valid_values (data : Np.ndarray) (nodata : option pyfloat)
  : list pyfloat :=
  filter (cell_valid nodata) (concat data).

Definition valid_cells (geom : nat -> nat -> bool) (data : Np.ndarray)
  (nodata : option pyfloat) : list pyfloat :=
  filter (cell_valid nodata) (cells_in geom data).

(** Modelled from the spec: the zonal mean computed by
    [rasterstats.zonal_stats(..., stats="mean")], a library call whose code is
    not part of the repository.  Section 4.4 of the specification: the
    arithmetic mean of the cells whose centre falls inside the polygon,
    leaving out nodata and non-finite cells; missing ([None]) when the
    polygon holds no valid cell. *)
Definition zonal_mean (geom : nat -> nat -> bool) (data : Np.ndarray)
  (nodata : option pyfloat) : option pyfloat :=
  match valid_cells geom data nodata with
  | [] => None
  | vs => Some (fdiv (Np.sum vs) (of_nat (length vs)))
  end.

(** [zonal_stats(municipios, data, affine=..., nodata=..., stats="mean")]:
    one ["mean"] per polygon, in the order of the polygons. *)
Definition zonal_stats (municipios : list Municipio) (data : Np.ndarray)
  (nodata : option pyfloat) : list (option pyfloat) :=
  map (fun m => zonal_mean (geometry m) data nodata) municipios.

(** *** The monthly loop *)

(** Lines 183-186: the bounds check applied to a scaled value. *)
Definition plausible (v_c : pyfloat) : pyfloat :=
  if flt v_c MIN_TEMP_C || fgt v_c MAX_TEMP_C then NaN else v_c.

(** Lines 173-186: the row of one month. *)
Definition linha (scale_to_c : pyfloat) (zs : list (option pyfloat))
  : list pyfloat :=
  map (fun z =>
         match z with
         | None => NaN
         | Some v => plausible (fmul v scale_to_c)
         end) zs.

Definition lookup (files : FileSystem) (path : string) : option RasterFile :=
  option_map snd (find (fun f => String.eqb (fst f) path) files).

Definition rasterio_open (files : FileSystem) (path : string) : M RasterFile :=
  emit (EvOpen path) ;;;
  match lookup files path with
  | Some f => ret f
  | None => raise (RasterioIOError path)
  end.

(** The variables carried from one iteration to the next:
    [scale_to_c] and [stats_mensais]. *)
Definition LoopState : Type := (option pyfloat * list (list pyfloat))%type.

(** Lines 135-188: the body of [for raster in rasters].  The factor is
    detected only while [scale_to_c] is still [None]; the diagnostics printed
    under [--debug] are left out. *)
Definition loop_body (municipios : list Municipio) (files : FileSystem)
  (st : LoopState) (raster : string) : M LoopState :=
  let scale_to_c := fst st in
  let stats_mensais := snd st in
  src <- rasterio_open files raster ;;
  let scale_to_c :=
    match scale_to_c with
    | None => _detect_scale_from_array (data src) (nodata src)
    | Some s => s
    end in
  let zs := zonal_stats municipios (data src) (nodata src) in
  emit (EvZonalStats raster (length zs)) ;;;
  ret (Some scale_to_c, (stats_mensais ++ [linha scale_to_c zs])%list).

(** *** The script *)

Definition make_df (municipios : list Municipio) (temps : list pyfloat)
  : DataFrame :=
  map (fun mt =>
         {| codigo_ibge := CD_MUN (fst mt);
            municipio := NM_MUN (fst mt);
            estado := SIGLA_UF (fst mt);
            temp_media_anual := snd mt |})
      (combine municipios temps).

(** Lines 93-104: the polygons of the run. *)
Definition load_municipios (args : Args) (shapefile : list Municipio)
  : M (list Municipio) :=
  match limite args with
  | Some n =>
      if (n <=? 0)%Z then raise ValueError_limite
      else ret (firstn (Z.to_nat n) shapefile)
  | None => ret shapefile
  end.

(** Lines 109-118: the rasters of the run. *)
Definition select_rasters (args : Args) (files : FileSystem) : M (list string) :=
  let rasters_all := Str.sorted (map fst files) in
  if (length rasters_all =? 0)%nat then raise RuntimeError_nenhum_raster
  else
    match mes args with
    | Some m => lift (_pick_raster_for_month rasters_all m)
    | None =>
        if negb (length rasters_all =? 12)%nat
        then raise RuntimeError_esperado_12
        else ret rasters_all
    end.

(** Lines 91-214, with [shapefile] the rows read from [SHAPEFILE] and
    [files] the rasters matched by [RASTER_GLOB].  Console output is left
    out. *)
Definition main (args : Args) (shapefile : list Municipio) (files : FileSystem)
  : M DataFrame :=
  municipios <- load_municipios args shapefile ;;
  rasters <- select_rasters args files ;;
  rasterio_open files (nth 0 rasters "") ;;;
  st <- for_each (loop_body municipios files) rasters (escala args, []) ;;
  let stats_mensais := snd st in
  let temp_media_anual := Np.nanmean_axis0 stats_mensais in
  let df := make_df municipios temp_media_anual in
  emit (EvToCsv OUTPUT df) ;;;
  ret df.

(** Running the script from an empty event log. *)
Definition run (args : Args) (shapefile : list Municipio) (files : FileSystem)
  : (exn + DataFrame) * list event :=
  main args shapefile files [].

(** *** Quantities the statements refer to *)

(** The content of a raster of the run ([files] holds every path the run
    opens; the empty band stands for a path it does not hold). *)
Definition raster_of (files : FileSystem) (path : string) : RasterFile :=
  match lookup files path with
  | Some f => f
  | None => {| data := []; nodata := None |}
  end.

(** The zonal means of one raster, one per polygon. *)
Definition zs_of (municipios : list Municipio) (files : FileSystem)
  (path : string) : list (option pyfloat) :=
  zonal_stats municipios (data (raster_of files path))
              (nodata (raster_of files path)).

(** The factor a raster's own cells would give. *)
Definition own_scale (files : FileSystem) (path : string) : pyfloat :=
  _detect_scale_from_array (data (raster_of files path))
                           (nodata (raster_of files path)).

(** No raster answers a requested month: no base name holds [tavg_MM], no
    path ends in [_MM.tif], and the month is not a position of the list. *)
Definition no_raster_for_month (rasters : list string) (month : nat) : Prop :=
  let mm := Str.format_02d month in
  (forall path, In path rasters ->
     Str.contains (String.append "tavg_" mm) (Str.basename path) = false) /\
  (forall path, In path rasters ->
     Str.endswith (Str.lower path)
                  (String.append "_" (String.append mm ".tif")) = false) /\
  ~ (1 <= month <= length rasters)%nat.

(** The first test of [_pick_raster_for_month]: the base name holds
    [tavg_MM]. *)
Definition name_match (month : nat) (path : string) : bool :=
  Str.contains (String.append "tavg_" (Str.format_02d month)) (Str.basename path).

(** [--limite] is absent or positive. *)
Definition limite_ok (args : Args) : Prop :=
  match limite args with
  | Some n => (0 < n)%Z
  | None => True
  end.

(** The polygons a run keeps: all of them, or the first [--limite]. *)
Definition selected_municipios (args : Args) (shapefile : list Municipio)
  : list Municipio :=
  match limite args with
  | Some n => firstn (Z.to_nat n) shapefile
  | None => shapefile
  end.

(** The inputs pass the checks of lines 100-118. *)
Definition inputs_ok (args : Args) (files : FileSystem) : Prop :=
  limite_ok args /\
  files <> [] /\
  match mes args with
  | None => length files = 12%nat
  | Some m => ~ no_raster_for_month (Str.sorted (map fst files)) m
  end.

(** The number of [zonal_stats] calls in an event log. *)
Definition zonal_calls (tr : list event) : nat :=
  length (filter (fun ev => match ev with EvZonalStats _ _ => true | _ => false end) tr).

(** The CSV files written in an event log. *)
Definition csv_writes (tr : list event) : list (string * DataFrame) :=
  flat_map (fun ev => match ev with EvToCsv p df => [(p, df)] | _ => [] end) tr.

(** The same command line with another [--limite]. *)
Definition set_limite (args : Args) (l : option Z) : Args :=
  {| mes := mes args; debug := debug args; limite := l;
     escala := escala args |}.

(** The cell of the monthly table for one zonal result. *)
Definition month_value (s : pyfloat) (z : option pyfloat) : pyfloat :=
  match z with
  | None => NaN
  | Some v => plausible (fmul v s)
  end.

(** The factor that scales every row of a run over [rasters]: the one
    given on the command line, else the one detected on the first raster. *)
Definition scale_of_run (escala : option pyfloat) (files : FileSystem)
  (rasters : list string) : pyfloat :=
  match escala with
  | Some s => s
  | None =>
      match rasters with
      | r :: _ => own_scale files r
      | [] => Fin 1
      end
  end.

(** The events of the loop over [rasters]. *)
Definition loop_events (municipios : list Municipio) (rasters : list string)
  : list event :=
  flat_map (fun r => [EvOpen r; EvZonalStats r (length municipios)]) rasters.

(** Missing, or a finite value within the plausibility bounds. *)
Definition published (x : pyfloat) : Prop :=
  x = NaN \/ exists q, x = Fin q /\ (-20 <= q /\ q <= 50)%Q.

(** The [stats_mensais] left by the loop, and the empty table when the
    loop raised. *)
Definition stats_mensais_of (r : (exn + LoopState) * list event)
  : list (list pyfloat) :=
  match fst r with
  | inr st => snd st
  | inl _ => []
  end.

(** *** Diagnostics printed under [--debug] (lines 146-160) *)

Record Diagnostics : Type := {
  valid_pixels : nat;
  total_pixels : nat;
  vmin : pyfloat;
  vmax : pyfloat
}.

(** The figures of the line [debug: dtype=..., valid_pixels=.../..., min=...,
    max=...]; [data.size] is the number of cells of the band. *)
Definition debug_diagnostics (data : Np.ndarray) (nodata : option pyfloat)
  : Diagnostics :=
  let valid := valid_mask data nodata in
  let valid_count := Np.count valid in
  let total := length (concat data) in
  if (0 <? valid_count)%nat then
    {| valid_pixels := valid_count;
       total_pixels := total;
       vmin := match Np.min (Np.select data valid) with
               | Some v => v
               | None => NaN (* not reached: the selection is not empty *)
               end;
       vmax := match Np.max (Np.select data valid) with
               | Some v => v
               | None => NaN (* not reached *)
               end |}
  else
    {| valid_pixels := valid_count; total_pixels := total;
       vmin := NaN; vmax := NaN |}.

End Index.

(** ** stats.py *)

Module Stats.

Import Index.

(** A data frame with its index labels: [read_csv] numbers the rows
    0, 1, 2, ...; [dropna], boolean selection and [sort_values] keep the
    label of each row, [reset_index(drop=True)] forgets the labels. *)
Definition Frame := list (nat * Row).

Definition read_csv (csv : DataFrame) : Frame := enumerate csv.

Definition value (r : nat * Row) : pyfloat := temp_media_anual (snd r).

(** [df.dropna(subset=["temp_media_anual"])]. *)
Definition dropna (df : Frame) : Frame :=
  filter (fun r => negb (isnan (value r))) df.

Definition reset_index (df : Frame) : DataFrame := map snd df.

(** Line 32: the base table of every statistic. *)
Definition base (csv : DataFrame) : Frame := dropna (read_csv csv).

(** *** Sorting

    [df.sort_values("temp_media_anual", ascending=...)] is called with the
    default [kind="quicksort"], which pandas documents as not stable: the
    result is the rows ordered by value (NaN last), and nothing more is
    promised about rows of equal value.  It is modelled by its contract. *)

Definition before (ascending : bool) (x y : pyfloat) : bool :=
  isnan y ||
  (negb (isnan x) && (if ascending then fle x y else fle y x)).

Definition sort_values (ascending : bool) (df out : Frame) : Prop :=
  Permutation df out /\
  StronglySorted (fun r1 r2 => before ascending (value r1) (value r2) = true) out.

(** A stable sort, for reference: insertion from the right, a row going in
    front of the rows already placed that it may precede. *)
Fixpoint insert_row (ascending : bool) (x : nat * Row) (l : Frame) : Frame :=
  match l with
  | [] => [x]
  | y :: l' =>
      if before ascending (value x) (value y) then x :: l
      else y :: insert_row ascending x l'
  end.

Definition sort_stable (ascending : bool) (df : Frame) : Frame :=
  fold_right (insert_row ascending) [] df.

(** Row labels in increasing order. *)
Definition by_label (a b : nat * Row) : Prop := (fst a < fst b)%nat.

(** Ranked by value, and by row label among equal values. *)
Definition ranked (asc : bool) (a b : nat * Row) : Prop :=
  before asc (value a) (value b) = true /\
  (feq (value a) (value b) = true -> (fst a < fst b)%nat).


(** Lines 42-46 and 59-63. *)
Definition top_quentes (csv : DataFrame) (out : DataFrame) : Prop :=
  exists sorted,
    sort_values false (base csv) sorted /\
    out = reset_index (firstn 10 sorted).

Definition top_frias (csv : DataFrame) (out : DataFrame) : Prop :=
  exists sorted,
    sort_values true (base csv) sorted /\
    out = reset_index (firstn 10 sorted).

(** *** Distribution by temperature band *)

Definition bins : list pyfloat :=
  [Fin (-50); Fin 15; Fin 18; Fin 21; Fin 24; Fin 27; Fin 50].

Definition labels : list string :=
  ["< 15°C"; "15–18°C"; "18–21°C"; "21–24°C"; "24–27°C"; "> 27°C"].

(** [edges.searchsorted(x, side="left")] on increasing edges: the number
    of edges strictly below [x]; NaN sorts after every edge. *)
Definition searchsorted_left (edges : list pyfloat) (x : pyfloat) : nat :=
  if isnan x then length edges
  else length (filter (fun b => flt b x) edges).

(** [pd.cut(x, bins=edges, include_lowest=True)] with the default
    [right=True], for one value: the code of its interval, [None] for a
    value that falls in none (pandas' NaN category). *)
Definition cut (edges : list pyfloat) (x : pyfloat) : option nat :=
  let ids := searchsorted_left edges x in
  let ids := if feq x (nth 0 edges NaN) then 1%nat else ids in
  if isnan x || (ids =? length edges)%nat || (ids =? 0)%nat then None
  else Some (ids - 1)%nat.

(** The values the outer edges enclose. *)
Definition in_bins (x : pyfloat) : bool :=
  fle (Fin (-50)) x && fle x (Fin 50).

Definition has_code (c : option nat) : bool :=
  match c with Some _ => true | None => false end.

(** Lines 104-109: the column [faixa_temperatura]. *)
Definition faixa_temperatura (df : Frame) : list (option nat) :=
  map (fun r => cut bins (value r)) df.

Definition code_eqb (c : option nat) (k : nat) : bool :=
  match c with
  | Some k' => (k' =? k)%nat
  | None => false
  end.

(** Lines 111-117: [value_counts()] of a categorical column has one entry
    per category, NaN left out; [sort_index()] puts the entries in the
    order of the categories. *)
Definition dist (csv : DataFrame) : list (string * nat) :=
  let col := faixa_temperatura (base csv) in
  map (fun k => (nth k labels "", length (filter (fun c => code_eqb c k) col)))
      (seq 0 (length labels)).

(** *** Outliers *)

Fixpoint insert_value (x : pyfloat) (l : list pyfloat) : list pyfloat :=
  match l with
  | [] => [x]
  | y :: l' => if fle x y then x :: l else y :: insert_value x l'
  end.

Definition sort_floats (l : list pyfloat) : list pyfloat :=
  fold_right insert_value [] l.

(** [Series.quantile(q)] with the default linear interpolation: at
    position [(n - 1) * q] of the values in increasing order, between the
    two neighbours of that position.  NaN on an empty series. *)
Definition quantile (q : Q) (values : list pyfloat) : pyfloat :=
  match sort_floats values with
  | [] => NaN
  | s =>
      let pos := (inject_Z (Z.of_nat (length s - 1)) * q)%Q in
      let lo := Z.to_nat (Qfloor pos) in
      let hi := Nat.min (lo + 1) (length s - 1) in
      let frac := (pos - inject_Z (Qfloor pos))%Q in
      let a := nth lo s NaN in
      let b := nth hi s NaN in
      fadd a (fmul (fsub b a) (Fin frac))
  end.

Definition q1 (df : Frame) : pyfloat := quantile (1 # 4) (map value df).
Definition q3 (df : Frame) : pyfloat := quantile (3 # 4) (map value df).
Definition iqr (df : Frame) : pyfloat := fsub (q3 df) (q1 df).
Definition lim_inf (df : Frame) : pyfloat :=
  fsub (q1 df) (fmul (Fin 1.5) (iqr df)).
Definition lim_sup (df : Frame) : pyfloat :=
  fadd (q3 df) (fmul (Fin 1.5) (iqr df)).

Definition is_outlier (df : Frame) (r : nat * Row) : bool :=
  flt (value r) (lim_inf df) || fgt (value r) (lim_sup df).

(** Lines 130-140. *)
Definition outliers (csv : DataFrame) (out : Frame) : Prop :=
  let df := base csv in
  sort_values true (filter (is_outlier df) df) out.

(** [a <= b] as a proposition. *)
Definition fle_prop (a b : pyfloat) : Prop := fle a b = true.

(** *** The position a quantile is read at *)

(** For [n] values in increasing order: the position [(n - 1) * q], the
    indices of its two neighbours and the fraction between them, as
    [quantile] computes them. *)
Definition q_pos (q : Q) (n : nat) : Q := (inject_Z (Z.of_nat (n - 1)) * q)%Q.
Definition q_lo (q : Q) (n : nat) : nat := Z.to_nat (Qfloor (q_pos q n)).
Definition q_hi (q : Q) (n : nat) : nat := Nat.min (q_lo q n + 1) (n - 1).
Definition q_frac (q : Q) (n : nat) : Q :=
  (q_pos q n - inject_Z (Qfloor (q_pos q n)))%Q.

(** *** Mean per state (lines 76-81) *)

(** The keys of [df.groupby("estado")]: the distinct states, in sorted
    order (the default [sort=True]). *)
Definition estados (df : Frame) : list string :=
  Str.sorted (nodup String.string_dec (map (fun r => estado (snd r)) df)).

(** The values of the rows of one state, in row order. *)
Definition values_of (k : string) (df : Frame) : list pyfloat :=
  map value (filter (fun r => String.eqb (estado (snd r)) k) df).

(** [Series.mean()] of a group: sum over count of its non-missing values. *)
Definition series_mean (l : list pyfloat) : pyfloat :=
  fdiv (Np.sum (Np.present l)) (of_nat (length (Np.present l))).

(** [df.groupby("estado", as_index=False)["temp_media_anual"].mean()]. *)
Definition group_means (df : Frame) : list (string * pyfloat) :=
  map (fun k => (k, series_mean (values_of k df))) (estados df).

(** Lines 76-81: the groups by decreasing mean, [sort_values] again with
    its default sort. *)
Definition media_estado (csv : DataFrame) (out : list (string * pyfloat)) : Prop :=
  Permutation (group_means (base csv)) out /\
  StronglySorted (fun a b => before false (snd a) (snd b) = true) out.

End Stats.

(** ** clip_rasters_brasil.py *)

Module Clip.

Definition BRASIL_SHP : string := "brasil/brasil.shp".
Definition INPUT_RASTERS : string := "raster/wc2.1_30s_tavg_*.tif".
Definition OUTPUT_DIR : string := "raster_brasil".

(** [os.path.join(a, b)] on POSIX paths. *)
Definition os_path_join (a b : string) : string :=
  if String.prefix "/" b then b
  else if String.eqb a "" || Str.endswith a "/" then String.append a b
  else String.append a (String.append "/" b).

(** Lines 39-40: where the crop of [raster_path] is written. *)
Definition out_path (raster_path : string) : string :=
  let nome := Str.basename raster_path in
  os_path_join OUTPUT_DIR nome.

End Clip.

(** ** Example inputs *)

Module Ex.

Import Index Stats.

(** A band with a nodata cell, a NaN and an infinity; largest valid
    value 75. *)
Definition c5_data : Np.ndarray :=
  [[Fin 75; NaN; Fin (-9999)]; [PInf; Fin 20.5; Fin 12]].

(** Twelve monthly rasters of a single cell, the first eleven in degrees
    (25), the last in tenths of a degree (260); one polygon covering the
    cell; no option on the command line. *)
Definition one_cell (v : Q) : RasterFile :=
  {| data := [[Fin v]]; nodata := None |}.

Definition c1_files : FileSystem :=
  [("raster_brasil/wc2.1_30s_tavg_01.tif", one_cell 25);
   ("raster_brasil/wc2.1_30s_tavg_02.tif", one_cell 25);
   ("raster_brasil/wc2.1_30s_tavg_03.tif", one_cell 25);
   ("raster_brasil/wc2.1_30s_tavg_04.tif", one_cell 25);
   ("raster_brasil/wc2.1_30s_tavg_05.tif", one_cell 25);
   ("raster_brasil/wc2.1_30s_tavg_06.tif", one_cell 25);
   ("raster_brasil/wc2.1_30s_tavg_07.tif", one_cell 25);
   ("raster_brasil/wc2.1_30s_tavg_08.tif", one_cell 25);
   ("raster_brasil/wc2.1_30s_tavg_09.tif", one_cell 25);
   ("raster_brasil/wc2.1_30s_tavg_10.tif", one_cell 25);
   ("raster_brasil/wc2.1_30s_tavg_11.tif", one_cell 25);
   ("raster_brasil/wc2.1_30s_tavg_12.tif", one_cell 260)].

Definition whole_band : Municipio :=
  {| CD_MUN := "3550308"; NM_MUN := "São Paulo"; SIGLA_UF := "SP";
     geometry := fun _ _ => true |}.

Definition no_args : Args :=
  {| mes := None; debug := false; limite := None; escala := None |}.

(** Twelve monthly values of one polygon, three of them missing. *)
Definition c4_col : list pyfloat :=
  [Fin 20; Fin 21; NaN; Fin 22; Fin 23; NaN; NaN; Fin 24; Fin 25; Fin 26;
   Fin 27; Fin 28].

(** The scenario of the specification: a band whose upper-left square
    holds 10, 12, 14, 16 and whose right column holds only nodata;
    polygon A covers the square, polygon B the right column. *)
Definition c2_data : Np.ndarray :=
  [[Fin 10; Fin 12; Fin (-9999)]; [Fin 14; Fin 16; Fin (-9999)]].

Definition c2_geom_A (i j : nat) : bool := (j <? 2)%nat.
Definition c2_geom_B (i j : nat) : bool := (j =? 2)%nat.

(** Two rasters only, and a run asked for July. *)
Definition c8_files : FileSystem :=
  [("raster_brasil/wc2.1_30s_tavg_02.tif", one_cell 26);
   ("raster_brasil/wc2.1_30s_tavg_01.tif", one_cell 25)].

Definition c8_args : Args :=
  {| mes := Some 7%nat; debug := false; limite := Some 50%Z; escala := None |}.

Definition mkrow (name : string) (v : pyfloat) : Row :=
  {| codigo_ibge := "0"; municipio := name; estado := "SP";
     temp_media_anual := v |}.

(** A CSV with one record above the last edge. *)
Definition c7_csv : DataFrame := [mkrow "A" (Fin 60)].

(** A CSV of the pipeline's range, with a missing record. *)
Definition c7_csv_ok : DataFrame :=
  [mkrow "A" (Fin 15); mkrow "B" NaN; mkrow "C" (Fin 26.5); mkrow "D" (Fin (-20))].








(** The scenario of the specification: seven regions with the values
    10, 12, 14, 16, 18, 20, 100. *)
Definition c9_csv : DataFrame :=
  [mkrow "A" (Fin 10); mkrow "B" (Fin 12); mkrow "C" (Fin 14);
   mkrow "D" (Fin 16); mkrow "E" (Fin 18); mkrow "F" (Fin 20);
   mkrow "G" (Fin 100)].

Definition c9_out : Frame := [(6%nat, mkrow "G" (Fin 100))].

(** Seven rasters without a month in their names. *)
Definition x1_rasters : list string :=
  ["r/a.tif"; "r/b.tif"; "r/c.tif"; "r/d.tif"; "r/e.tif"; "r/f.tif"; "r/g.tif"].

(** Rasters of which the second and the third name month 03. *)
Definition x3_rasters : list string :=
  ["r/x_03.tif"; "r/wc_tavg_03.tif"; "r/old_tavg_03.tif"; "r/wc_tavg_04.tif"].

(** A run over all of [c1_files] limited to the first municipality of a
    two-row shapefile. *)
Definition x_args_limite : Args :=
  {| mes := None; debug := false; limite := Some 1%Z; escala := None |}.

Definition half_band : Municipio :=
  {| CD_MUN := "3304557"; NM_MUN := "Rio de Janeiro"; SIGLA_UF := "RJ";
     geometry := fun i j => (j =? 0)%nat |}.

(** A run over [c1_files] for December only. *)
Definition x_args_dec : Args :=
  {| mes := Some 12%nat; debug := false; limite := None; escala := None |}.

(** The cells of [c5_data] laid out in one row, in another order. *)
Definition x_data_row : Np.ndarray :=
  [[Fin 12; PInf; Fin 75; Fin (-9999); Fin 20.5; NaN]].

(** Five municipalities of three states, one without data. *)
Definition x_csv_states : DataFrame :=
  [{| codigo_ibge := "1"; municipio := "A"; estado := "SP"; temp_media_anual := Fin 20 |};
   {| codigo_ibge := "2"; municipio := "B"; estado := "AM"; temp_media_anual := Fin 27 |};
   {| codigo_ibge := "3"; municipio := "C"; estado := "SP"; temp_media_anual := Fin 22 |};
   {| codigo_ibge := "4"; municipio := "D"; estado := "RS"; temp_media_anual := NaN |};
   {| codigo_ibge := "5"; municipio := "E"; estado := "AM"; temp_media_anual := Fin 26 |}].


(** Three municipalities with the same annual mean. *)
Definition x_csv_equal : DataFrame :=
  [mkrow "A" (Fin 21.5); mkrow "B" (Fin 21.5); mkrow "C" (Fin (43 # 2))].

(** Twenty municipalities with the values 1, 2, ..., 20. *)
Definition x_csv20 : DataFrame :=
  map (fun k => mkrow "M" (Fin (inject_Z (Z.of_nat k)))) (seq 1 20).

(** A CSV in which no municipality has data. *)
Definition x_csv_missing : DataFrame := [mkrow "A" NaN; mkrow "B" NaN].

(** The files of [c1_files] as another directory listing would give
    them. *)
Definition x_files_rev : FileSystem := rev c1_files.

End Ex.

(* ===================================================================== *)
(** * Part II: properties *)
(* ===================================================================== *)

Import Index Stats.

(** ** Order and arithmetic of [pyfloat] *)

Lemma Qlt_bool_iff (a b : Q) : Qlt_bool a b = true <-> (a < b)%Q.
Proof.
  unfold Qlt_bool. rewrite negb_true_iff. split.
  - intros H. apply Qnot_le_lt. intros Hle.
    apply Qle_bool_iff in Hle. congruence.
  - intros H. destruct (Qle_bool b a) eqn:E; [|reflexivity].
    apply Qle_bool_iff in E. exfalso. exact (Qlt_not_le _ _ H E).
Qed.


Lemma fle_not_flt (x y : pyfloat) :
  isnan x = false -> isnan y = false -> fle x y = negb (flt y x).
Proof.
  destruct x, y; simpl; try discriminate; try reflexivity.
  intros _ _. unfold Qlt_bool. now rewrite negb_involutive.
Qed.

Lemma fle_refl (x : pyfloat) : isnan x = false -> fle x x = true.
Proof.
  destruct x; simpl; try discriminate; try reflexivity.
  intros _. apply Qle_bool_iff. apply Qle_refl.
Qed.

Lemma fle_trans (x y z : pyfloat) :
  fle x y = true -> fle y z = true -> fle x z = true.
Proof.
  destruct x, y, z; simpl; try discriminate; try reflexivity.
  rewrite !Qle_bool_iff. apply Qle_trans.
Qed.

Lemma fle_total (x y : pyfloat) :
  isnan x = false -> isnan y = false -> fle x y = true \/ fle y x = true.
Proof.
  destruct x, y; simpl; try discriminate; auto.
  intros _ _. rewrite !Qle_bool_iff.
  destruct (Qlt_le_dec q q0) as [H|H]; [left; now apply Qlt_le_weak | now right].
Qed.

Lemma fle_nan_l (x y : pyfloat) : fle x y = true -> isnan x = false.
Proof. destruct x, y; simpl; try discriminate; reflexivity. Qed.

Lemma fle_nan_r (x y : pyfloat) : fle x y = true -> isnan y = false.
Proof. destruct x, y; simpl; try discriminate; reflexivity. Qed.

Lemma flt_fle (x y : pyfloat) : flt x y = true -> fle x y = true.
Proof.
  destruct x, y; simpl; try discriminate; try reflexivity.
  rewrite Qlt_bool_iff, Qle_bool_iff. apply Qlt_le_weak.
Qed.

Lemma flt_fle_trans (x y z : pyfloat) :
  flt x y = true -> fle y z = true -> flt x z = true.
Proof.
  destruct x, y, z; simpl; try discriminate; try reflexivity.
  rewrite !Qlt_bool_iff, Qle_bool_iff. apply Qlt_le_trans.
Qed.


(** ** Arrays, masks and selections *)

Lemma map2_map {A B C D} (h : B -> C -> D) (f : A -> B) (g : A -> C) (l : list A) :
  Np.map2 h (map f l) (map g l) = map (fun x => h (f x) (g x)) l.
Proof.
  induction l as [|a l IH]; simpl; [reflexivity|]. now rewrite IH.
Qed.

Lemma select_by_map {A} (f : A -> bool) (l : list A) :
  map fst (filter snd (combine l (map f l))) = filter f l.
Proof.
  induction l as [|a l IH]; simpl; [reflexivity|].
  destruct (f a); simpl; now rewrite IH.
Qed.

Lemma and_mask_map (f g : pyfloat -> bool) (data : Np.ndarray) :
  Np.and_mask (map (map f) data) (map (map g) data) =
  map (map (fun x => f x && g x)) data.
Proof.
  unfold Np.and_mask. rewrite map2_map.
  apply map_ext. intros row. apply map2_map.
Qed.

(** The cells picked by the mask of [_detect_scale_from_array] are the
    valid cells of the band: finite and different from nodata. *)
Lemma select_valid_mask (data : Np.ndarray) (nodata : option pyfloat) :
  Np.select data (valid_mask data nodata) =
  valid_values data nodata.
Proof.
  unfold valid_values.
  unfold Np.select, valid_mask, cell_valid, Np.isfinite_arr, Np.ne_scalar.
  destruct nodata as [nd|].
  - rewrite and_mask_map, <- concat_map.
    apply select_by_map.
  - rewrite <- concat_map.
    rewrite (select_by_map isfinite).
    apply filter_ext. intros x. now rewrite andb_true_r.
Qed.

Lemma any_false_select (data : Np.ndarray) (m : Np.mask) :
  Np.any m = false -> Np.select data m = [].
Proof.
  unfold Np.any, Np.select. intros H.
  assert (Hall : forall b, In b (concat m) -> b = false).
  { intros b Hb. apply in_concat in Hb as (row & Hrow & Hb').
    destruct b; [|reflexivity].
    assert (existsb (existsb (fun b => b)) m = true) as Hc; [|congruence].
    apply existsb_exists. exists row. split; [assumption|].
    apply existsb_exists. now exists true. }
  clear H. revert Hall. generalize (concat m) as bs. generalize (concat data) as xs.
  induction xs as [|x xs IH]; intros [|b bs] Hall; simpl; try reflexivity.
  rewrite (Hall b (or_introl eq_refl)). simpl.
  apply IH. intros b' Hb'. apply Hall. now right.
Qed.

Lemma any_true_valid (data : Np.ndarray) (nodata : option pyfloat) :
  Np.any (valid_mask data nodata) = true ->
  valid_values data nodata <> [].
Proof.
  unfold valid_values. intros H.
  assert (Hm : valid_mask data nodata = map (map (cell_valid nodata)) data).
  { unfold valid_mask, cell_valid, Np.isfinite_arr, Np.ne_scalar.
    destruct nodata as [nd|].
    - apply and_mask_map.
    - apply map_ext. intros row. apply map_ext. intros x.
      now rewrite andb_true_r. }
  rewrite Hm in H. unfold Np.any in H.
  apply existsb_exists in H as (brow & Hbrow & Hb).
  apply in_map_iff in Hbrow as (row & <- & Hrow).
  apply existsb_exists in Hb as (b & Hb & ->).
  apply in_map_iff in Hb as (x & Hx & Hin).
  intros Hnil.
  assert (Hf : In x (filter (cell_valid nodata) (concat data))).
  { apply filter_In. split; [|assumption].
    apply in_concat. now exists row. }
  rewrite Hnil in Hf. exact Hf.
Qed.

(** The selection [np.max] is applied to is not empty: the last branch of
    [_detect_scale_from_array] is never taken. *)
Lemma any_true_max (data : Np.ndarray) (nodata : option pyfloat) :
  Np.any (valid_mask data nodata) = true ->
  exists vmax, Np.max (Np.select data (valid_mask data nodata)) = Some vmax.
Proof.
  intros H. apply any_true_valid in H. rewrite select_valid_mask.
  destruct (valid_values data nodata) as [|x l]; [congruence|].
  simpl. eauto.
Qed.

(** ** Maximum and minimum of a selection *)

Lemma maximum_no_nan (x y : pyfloat) :
  isnan x = false -> isnan y = false ->
  isnan (Np.maximum x y) = false /\
  (Np.maximum x y = x \/ Np.maximum x y = y) /\
  fle x (Np.maximum x y) = true /\ fle y (Np.maximum x y) = true.
Proof.
  intros Hx Hy. unfold Np.maximum. rewrite Hx, Hy.
  destruct (flt x y) eqn:E.
  - repeat split; auto using flt_fle, fle_refl.
  - repeat split; auto using fle_refl.
    rewrite (fle_not_flt y x Hy Hx), E. reflexivity.
Qed.

Lemma minimum_no_nan (x y : pyfloat) :
  isnan x = false -> isnan y = false ->
  isnan (Np.minimum x y) = false /\
  (Np.minimum x y = x \/ Np.minimum x y = y) /\
  fle (Np.minimum x y) x = true /\ fle (Np.minimum x y) y = true.
Proof.
  intros Hx Hy. unfold Np.minimum. rewrite Hx, Hy.
  destruct (flt y x) eqn:E.
  - repeat split; auto using flt_fle, fle_refl.
  - repeat split; auto using fle_refl.
    rewrite (fle_not_flt x y Hx Hy), E. reflexivity.
Qed.

Lemma fold_maximum_spec (l : list pyfloat) : forall x,
  isnan x = false -> (forall y, In y l -> isnan y = false) ->
  let m := fold_left Np.maximum l x in
  isnan m = false /\ In m (x :: l) /\ forall y, In y (x :: l) -> fle y m = true.
Proof.
  induction l as [|a l IH]; intros x Hx Hl; simpl.
  - repeat split; auto. intros y [<-|[]]. now apply fle_refl.
  - destruct (@maximum_no_nan x a Hx (Hl a (or_introl eq_refl)))
      as (Hn & Hor & Hxm & Ham).
    destruct (IH (Np.maximum x a) Hn (fun y Hy => Hl y (or_intror Hy)))
      as (Hn' & Hin & Hub).
    simpl in Hin, Hub. repeat split; [assumption| |].
    + destruct Hin as [Hin|Hin]; [|auto].
      rewrite <- Hin. destruct Hor as [->| ->]; auto.
    + intros y [<-|[<-|Hy]].
      * eapply fle_trans; [exact Hxm|]. apply Hub. now left.
      * eapply fle_trans; [exact Ham|]. apply Hub. now left.
      * apply Hub. now right.
Qed.

Lemma fold_minimum_spec (l : list pyfloat) : forall x,
  isnan x = false -> (forall y, In y l -> isnan y = false) ->
  let m := fold_left Np.minimum l x in
  isnan m = false /\ In m (x :: l) /\ forall y, In y (x :: l) -> fle m y = true.
Proof.
  induction l as [|a l IH]; intros x Hx Hl; simpl.
  - repeat split; auto. intros y [<-|[]]. now apply fle_refl.
  - destruct (@minimum_no_nan x a Hx (Hl a (or_introl eq_refl)))
      as (Hn & Hor & Hxm & Ham).
    destruct (IH (Np.minimum x a) Hn (fun y Hy => Hl y (or_intror Hy)))
      as (Hn' & Hin & Hub).
    simpl in Hin, Hub. repeat split; [assumption| |].
    + destruct Hin as [Hin|Hin]; [|auto].
      rewrite <- Hin. destruct Hor as [->| ->]; auto.
    + intros y [<-|[<-|Hy]].
      * eapply fle_trans; [|exact Hxm]. apply Hub. now left.
      * eapply fle_trans; [|exact Ham]. apply Hub. now left.
      * apply Hub. now right.
Qed.

Lemma cell_valid_finite (nodata : option pyfloat) (x : pyfloat) :
  cell_valid nodata x = true -> isfinite x = true.
Proof. unfold cell_valid. now intros [H _]%andb_true_iff. Qed.

Lemma finite_not_nan (x : pyfloat) : isfinite x = true -> isnan x = false.
Proof. now destruct x. Qed.

Lemma valid_values_no_nan (data : Np.ndarray) (nodata : option pyfloat) :
  forall x, In x (valid_values data nodata) -> isnan x = false.
Proof.
  intros x Hx. apply filter_In in Hx as [_ Hx].
  apply finite_not_nan. eapply cell_valid_finite. exact Hx.
Qed.

Lemma max_spec (l : list pyfloat) :
  (forall y, In y l -> isnan y = false) -> l <> [] ->
  exists m, Np.max l = Some m /\ isnan m = false /\ In m l /\
            forall y, In y l -> fle y m = true.
Proof.
  intros Hl Hne. destruct l as [|x l]; [congruence|].
  exists (fold_left Np.maximum l x). split; [reflexivity|].
  apply fold_maximum_spec.
  - apply Hl. now left.
  - intros y Hy. apply Hl. now right.
Qed.

Lemma min_spec (l : list pyfloat) :
  (forall y, In y l -> isnan y = false) -> l <> [] ->
  exists m, Np.min l = Some m /\ isnan m = false /\ In m l /\
            forall y, In y l -> fle m y = true.
Proof.
  intros Hl Hne. destruct l as [|x l]; [congruence|].
  exists (fold_left Np.minimum l x). split; [reflexivity|].
  apply fold_minimum_spec.
  - apply Hl. now left.
  - intros y Hy. apply Hl. now right.
Qed.

Lemma flt_equal_bounds (c a b : pyfloat) :
  fle a b = true -> fle b a = true -> flt c a = flt c b.
Proof.
  intros Hab Hba.
  destruct (flt c a) eqn:Ea, (flt c b) eqn:Eb; try reflexivity.
  - rewrite (flt_fle_trans c a b Ea Hab) in Eb. discriminate.
  - rewrite (flt_fle_trans c b a Eb Hba) in Ea. discriminate.
Qed.

(** ** ScaleDetector *)

(** The factor is a function of the selection's maximum alone. *)
Lemma detect_scale_by_max (data : Np.ndarray) (nodata : option pyfloat) :
  _detect_scale_from_array data nodata =
  match Np.max (valid_values data nodata) with
  | None => Fin 1
  | Some vmax => if fgt vmax (Fin 80) then Fin (1 # 10) else Fin 1
  end.
Proof.
  unfold _detect_scale_from_array.
  destruct (Np.any (valid_mask data nodata)) eqn:Hany; simpl.
  - now rewrite select_valid_mask.
  - pose proof (any_false_select data _ Hany) as Hsel.
    rewrite select_valid_mask in Hsel. now rewrite Hsel.
Qed.

(** C5. [_detect_scale_from_array] is a total function of the band and
    its nodata value (hence the same inputs give the same factor), with
    values 1.0 and 0.1 only: it is 1.0 when the band has no valid cell
    (finite and different from nodata); when [vmax] is the largest valid
    value, it is 0.1 if [vmax > 80] and 1.0 otherwise.  In particular a
    largest valid value of 95.0 gives 0.1 and one of 75.0 gives 1.0. *)
Theorem C5_scale_detector (data : Np.ndarray) (nodata : option pyfloat) :
  let valid := valid_values data nodata in
  let factor := _detect_scale_from_array data nodata in
  (valid = [] -> factor = Fin 1) /\
  (forall vmax,
      In vmax valid -> (forall x, In x valid -> fle x vmax = true) ->
      factor = if fgt vmax (Fin 80) then Fin (1 # 10) else Fin 1) /\
  (In (Fin 95) valid -> (forall x, In x valid -> fle x (Fin 95) = true) ->
   factor = Fin (1 # 10)) /\
  (In (Fin 75) valid -> (forall x, In x valid -> fle x (Fin 75) = true) ->
   factor = Fin 1) /\
  (factor = Fin 1 \/ factor = Fin (1 # 10)).
Proof.
  intros valid factor.
  assert (Hmax : forall vmax,
             In vmax valid -> (forall x, In x valid -> fle x vmax = true) ->
             factor = if fgt vmax (Fin 80) then Fin (1 # 10) else Fin 1).
  { intros vmax Hin Hub. subst factor. rewrite detect_scale_by_max.
    fold valid.
    destruct (max_spec valid) as (m & Hm & _ & Hmin & Hmub).
    - apply valid_values_no_nan.
    - intros E. rewrite E in Hin. exact Hin.
    - rewrite Hm. unfold fgt.
      now rewrite (flt_equal_bounds (Fin 80) m vmax (Hub m Hmin) (Hmub vmax Hin)). }
  repeat split.
  - intros E. subst factor. rewrite detect_scale_by_max. fold valid.
    now rewrite E.
  - exact Hmax.
  - intros Hin Hub. exact (Hmax (Fin 95) Hin Hub).
  - intros Hin Hub. exact (Hmax (Fin 75) Hin Hub).
  - subst factor. rewrite detect_scale_by_max.
    destruct (Np.max (valid_values data nodata)) as [m|]; [|now left].
    destruct (fgt m (Fin 80)); [now right | now left].
Qed.

Lemma C5_scale_detector_witness :
  _detect_scale_from_array Ex.c5_data (Some (Fin (-9999))) = Fin 1.
Proof.
  refine (proj1 (proj2 (proj2 (proj2
            (C5_scale_detector Ex.c5_data (Some (Fin (-9999))))))) _ _).
  - vm_compute. auto.
  - intros x Hx. vm_compute in Hx.
    destruct Hx as [<-|[<-|[<-|[]]]]; reflexivity.
Defined.

(** ** The monthly loop *)

Lemma raster_of_lookup (files : FileSystem) (path : string) (f : RasterFile) :
  lookup files path = Some f -> raster_of files path = f.
Proof. unfold raster_of. now intros ->. Qed.

Lemma loop_body_ok (municipios : list Municipio) (files : FileSystem)
  (sc : option pyfloat) (acc : list (list pyfloat)) (r : string)
  (tr : list event) :
  lookup files r <> None ->
  let s := scale_of_run sc files [r] in
  loop_body municipios files (sc, acc) r tr =
  (inr (Some s, (acc ++ [linha s (zs_of municipios files r)])%list),
   (tr ++ [EvOpen r; EvZonalStats r (length municipios)])%list).
Proof.
  intros Hl s. subst s.
  unfold loop_body, rasterio_open, bind, emit, ret, zs_of, own_scale,
    scale_of_run, own_scale, zonal_stats; simpl.
  destruct (lookup files r) as [f|] eqn:E; [|congruence].
  rewrite (raster_of_lookup files r f E). simpl.
  rewrite length_map, <- app_assoc. simpl.
  destruct sc; reflexivity.
Qed.

(** The loop detects a factor at most once: every row is scaled by
    [scale_of_run]. *)
Lemma for_each_loop_body (municipios : list Municipio) (files : FileSystem)
  (rasters : list string) :
  forall (sc : option pyfloat) (acc : list (list pyfloat)) (tr : list event),
    (forall r, In r rasters -> lookup files r <> None) ->
    let s := scale_of_run sc files rasters in
    for_each (loop_body municipios files) rasters (sc, acc) tr =
    (inr (match rasters with [] => sc | _ => Some s end,
          (acc ++ map (fun r => linha s (zs_of municipios files r)) rasters)%list),
     (tr ++ loop_events municipios rasters)%list).
Proof.
  induction rasters as [|r rasters IH]; intros sc acc tr Hall s.
  - simpl. unfold ret. now rewrite !app_nil_r.
  - simpl for_each. unfold bind at 1.
    rewrite (loop_body_ok municipios files sc acc r tr (Hall r (or_introl eq_refl))).
    assert (Hs : scale_of_run sc files [r] = s) by (subst s; now destruct sc).
    rewrite Hs.
    rewrite (IH (Some s) _ _ (fun r' Hr' => Hall r' (or_intror Hr'))).
    simpl scale_of_run. f_equal.
    + f_equal. f_equal.
      * now destruct rasters.
      * now rewrite <- app_assoc.
    + unfold loop_events. simpl. now rewrite <- app_assoc.
Qed.

(** ** Selecting the rasters *)

Lemma insert_sorted_perm (x : string) (l : list string) :
  Permutation (x :: l) (Str.insert_sorted x l).
Proof.
  induction l as [|y l IH]; simpl; [reflexivity|].
  destruct (String.leb x y); [reflexivity|].
  rewrite perm_swap. now constructor.
Qed.

Lemma sorted_perm (l : list string) : Permutation l (Str.sorted l).
Proof.
  induction l as [|x l IH]; simpl; [constructor|].
  rewrite <- insert_sorted_perm. now constructor.
Qed.

Lemma sorted_length (l : list string) : length (Str.sorted l) = length l.
Proof. symmetry. apply Permutation_length, sorted_perm. Qed.

Lemma sorted_In (l : list string) (x : string) : In x (Str.sorted l) <-> In x l.
Proof.
  split; apply Permutation_in; [symmetry|]; apply sorted_perm.
Qed.

Lemma lookup_In (files : FileSystem) (path : string) :
  In path (map fst files) -> lookup files path <> None.
Proof.
  unfold lookup. intros Hin.
  destruct (find (fun f => String.eqb (fst f) path) files) as [f|] eqn:E;
    [discriminate|].
  apply in_map_iff in Hin as (f & <- & Hf).
  pose proof (find_none _ _ E f Hf) as Hn. simpl in Hn.
  now rewrite String.eqb_refl in Hn.
Qed.

(** What [_pick_raster_for_month] returns is one of the rasters. *)
Lemma pick_raster_In (rasters : list string) (month : nat) (l : list string) :
  _pick_raster_for_month rasters month = inr l ->
  exists path, l = [path] /\ In path rasters.
Proof.
  unfold _pick_raster_for_month.
  destruct (find _ rasters) as [p|] eqn:E1.
  { intros [= <-]. exists p. split; [reflexivity|].
    now apply find_some in E1. }
  destruct (find (fun path => Str.endswith _ _) rasters) as [p|] eqn:E2.
  { intros [= <-]. exists p. split; [reflexivity|].
    now apply find_some in E2. }
  destruct ((1 <=? month)%nat && (month <=? length rasters)%nat) eqn:E3;
    [|discriminate].
  intros [= <-]. eexists. split; [reflexivity|].
  apply andb_true_iff in E3 as [H1 H2].
  apply Nat.leb_le in H1, H2. apply nth_In. lia.
Qed.

Lemma select_rasters_In (args : Args) (files : FileSystem)
  (rasters : list string) (tr tr' : list event) :
  select_rasters args files tr = (inr rasters, tr') ->
  tr' = tr /\ rasters <> [] /\ forall r, In r rasters -> In r (map fst files).
Proof.
  unfold select_rasters, raise, lift, ret.
  destruct (length (Str.sorted (map fst files)) =? 0)%nat eqn:E0; [discriminate|].
  apply Nat.eqb_neq in E0.
  destruct (mes args) as [m|].
  - intros [= H ->]. split; [reflexivity|].
    apply pick_raster_In in H as (path & -> & Hin).
    split; [discriminate|].
    intros r [<-|[]]. now apply sorted_In.
  - destruct (length (Str.sorted (map fst files)) =? 12)%nat; simpl;
      [|discriminate].
    intros [= <- ->]. split; [reflexivity|]. split.
    + intros E. rewrite E in E0. now apply E0.
    + intros r. apply sorted_In.
Qed.


(** ** A run that passes the input checks completes

    Once the polygons and the rasters are selected nothing raises: every
    selected raster is one of the files found, the loop fills one row per
    raster, and the table of annual means is written. *)
Lemma run_ok (args : Args) (shapefile : list Municipio) (files : FileSystem)
  (municipios : list Municipio) (rasters : list string) :
  load_municipios args shapefile [] = (inr municipios, []) ->
  select_rasters args files [] = (inr rasters, []) ->
  let s := scale_of_run (escala args) files rasters in
  let table := map (fun r => linha s (zs_of municipios files r)) rasters in
  let df := make_df municipios (Np.nanmean_axis0 table) in
  run args shapefile files =
  (inr df,
   (EvOpen (nth 0 rasters "") :: loop_events municipios rasters
    ++ [EvToCsv OUTPUT df])%list).
Proof.
  intros Hm Hr s table df.
  destruct (select_rasters_In args files rasters [] [] Hr) as (_ & Hne & Hin).
  assert (Hlk : forall r, In r rasters -> lookup files r <> None)
    by (intros r Hr'; now apply lookup_In, Hin).
  unfold run, main. unfold bind at 1. rewrite Hm.
  unfold bind at 1. rewrite Hr.
  unfold bind at 1. unfold rasterio_open at 1. unfold bind at 1.
  unfold emit at 1. simpl app.
  destruct (lookup files (nth 0 rasters "")) as [f0|] eqn:E0.
  2:{ exfalso. apply (Hlk (nth 0 rasters "")); [|exact E0].
      destruct rasters; [congruence|now left]. }
  unfold ret at 1. unfold bind at 1.
  rewrite (for_each_loop_body municipios files rasters (escala args) [] _ Hlk).
  simpl snd. simpl app. fold s. fold table. fold df.
  unfold bind, emit, ret. simpl. reflexivity.
Qed.

(** ** ScaleFactor *)

Lemma linha_nth_error (s : pyfloat) (zs : list (option pyfloat)) (i : nat) :
  nth_error (linha s zs) i =
  option_map (fun z => match z with
                       | None => NaN
                       | Some v => plausible (fmul v s)
                       end) (nth_error zs i).
Proof. unfold linha. apply nth_error_map. Qed.

(** C1 (as amended).  The factor is fixed for the whole run, not derived
    again for each raster: it is the explicit factor when one was supplied,
    and otherwise the factor detected from the cells of the first raster
    processed; the loop scales every zonal mean of every raster by that one
    factor (uniformly within each raster, and the same across months). *)
Theorem C1_scale_fixed_for_the_run
  (municipios : list Municipio) (files : FileSystem) (rasters : list string)
  (escala : option pyfloat) :
  (forall r, In r rasters -> lookup files r <> None) ->
  let s := scale_of_run escala files rasters in
  let table :=
    stats_mensais_of
      (for_each (loop_body municipios files) rasters (escala, []) []) in
  table = map (fun r => linha s (zs_of municipios files r)) rasters /\
  (forall m r i v,
      nth_error rasters m = Some r ->
      nth_error (zs_of municipios files r) i = Some (Some v) ->
      nth_error (nth m table []) i = Some (plausible (fmul v s))) /\
  (forall e, escala = Some e -> s = e) /\
  (forall r rest, escala = None -> rasters = r :: rest -> s = own_scale files r).
Proof.
  intros Hlk s table.
  assert (Ht : table = map (fun r => linha s (zs_of municipios files r)) rasters).
  { subst table. now rewrite (for_each_loop_body municipios files rasters escala [] [] Hlk). }
  split; [exact Ht|]. split; [|split].
  - intros m r i v Hm Hi. rewrite Ht.
    assert (Hrow : nth m (map (fun r => linha s (zs_of municipios files r)) rasters) []
                   = linha s (zs_of municipios files r)).
    { apply nth_error_nth. now rewrite nth_error_map, Hm. }
    rewrite Hrow, linha_nth_error, Hi. reflexivity.
  - intros e ->. reflexivity.
  - intros r rest -> ->. reflexivity.
Qed.

Lemma C1_scale_fixed_for_the_run_witness :
  let rasters := Str.sorted (map fst Ex.c1_files) in
  (forall r, In r rasters -> lookup Ex.c1_files r <> None) /\
  stats_mensais_of
    (for_each (loop_body [Ex.whole_band] Ex.c1_files) rasters (None, []) []) =
  map (fun r => linha (own_scale Ex.c1_files "raster_brasil/wc2.1_30s_tavg_01.tif")
                      (zs_of [Ex.whole_band] Ex.c1_files r)) rasters.
Proof.
  assert (H : forall r, In r (Str.sorted (map fst Ex.c1_files)) ->
                        lookup Ex.c1_files r <> None).
  { intros r Hr. vm_compute in Hr.
    repeat (destruct Hr as [<-|Hr]; [vm_compute; discriminate|]).
    destruct Hr. }
  split; [exact H|].
  exact (proj1 (C1_scale_fixed_for_the_run [Ex.whole_band] Ex.c1_files
                  (Str.sorted (map fst Ex.c1_files)) None H)).
Defined.

(** C1 (as stated) fails: in a run over twelve rasters without an explicit
    factor, the December raster holds 260 (tenths of a degree), so its own
    cells give the factor 0.1 and the scaled mean 26.0; the loop scales it
    by the factor 1.0 detected on January's raster and the value, 260, is
    rejected by the bounds check. *)
Lemma C1_counterexample :
  let rasters := Str.sorted (map fst Ex.c1_files) in
  let table :=
    stats_mensais_of
      (for_each (loop_body [Ex.whole_band] Ex.c1_files) rasters
                (escala Ex.no_args, []) []) in
  let december := nth 11 rasters "" in
  own_scale Ex.c1_files december = Fin (1 # 10) /\
  linha (own_scale Ex.c1_files december)
        (zs_of [Ex.whole_band] Ex.c1_files december) = [Fin (260 # 10)] /\
  nth 11 table [] = [NaN] /\
  nth 11 table [] <>
  linha (own_scale Ex.c1_files december)
        (zs_of [Ex.whole_band] Ex.c1_files december).
Proof.
  vm_compute. repeat split. discriminate.
Qed.

(** ** PlausibilityFilter *)

Lemma plausible_in_range (v : pyfloat) :
  fle MIN_TEMP_C v && fle v MAX_TEMP_C = true -> plausible v = v.
Proof.
  intros [H1 H2]%andb_true_iff. unfold plausible, fgt.
  pose proof (fle_nan_r _ _ H1) as Hn.
  rewrite (fle_not_flt MIN_TEMP_C v eq_refl Hn) in H1.
  rewrite (fle_not_flt v MAX_TEMP_C Hn eq_refl) in H2.
  apply negb_true_iff in H1, H2. now rewrite H1, H2.
Qed.

Lemma plausible_out_of_range (v : pyfloat) :
  fle MIN_TEMP_C v && fle v MAX_TEMP_C = false -> plausible v = NaN.
Proof.
  intros H. unfold plausible, fgt.
  destruct (isnan v) eqn:Hn.
  - destruct v; try discriminate. reflexivity.
  - rewrite (fle_not_flt MIN_TEMP_C v eq_refl Hn) in H.
    rewrite (fle_not_flt v MAX_TEMP_C Hn eq_refl) in H.
    destruct (flt v MIN_TEMP_C), (flt MAX_TEMP_C v); simpl in *;
      try reflexivity; discriminate.
Qed.

(** C3. The bounds check returns a scaled value [v] unchanged when
    [-20.0 <= v <= 50.0] and the missing marker NaN otherwise, never a
    clamped value; the bounds themselves are kept.  It is applied to each
    polygon's zonal mean of each raster after the multiplication by the
    scale factor, and the annual means of a completed run are the nan-aware
    means of the rows so filtered. *)
Theorem C3_plausibility_filter (v : pyfloat) :
  (fle MIN_TEMP_C v && fle v MAX_TEMP_C = true -> plausible v = v) /\
  (fle MIN_TEMP_C v && fle v MAX_TEMP_C = false -> plausible v = NaN) /\
  MIN_TEMP_C = Fin (-20) /\ MAX_TEMP_C = Fin 50 /\
  plausible (Fin (-20)) = Fin (-20) /\ plausible (Fin 50) = Fin 50 /\
  (forall (s : pyfloat) (zs : list (option pyfloat)) (i : nat) (m : pyfloat),
      nth_error zs i = Some (Some m) ->
      nth_error (linha s zs) i = Some (plausible (fmul m s))) /\
  (forall args shapefile files municipios rasters,
      load_municipios args shapefile [] = (inr municipios, []) ->
      select_rasters args files [] = (inr rasters, []) ->
      let s := scale_of_run (escala args) files rasters in
      fst (run args shapefile files) =
      inr (make_df municipios
             (Np.nanmean_axis0
                (map (fun r =>
                        map (fun z => match z with
                                      | None => NaN
                                      | Some m => plausible (fmul m s)
                                      end)
                            (zs_of municipios files r))
                     rasters)))).
Proof.
  split; [apply plausible_in_range|].
  split; [apply plausible_out_of_range|].
  repeat split.
  - intros s zs i m H. now rewrite linha_nth_error, H.
  - intros args shapefile files municipios rasters Hm Hr s.
    now rewrite (run_ok args shapefile files municipios rasters Hm Hr).
Qed.

Lemma C3_plausibility_filter_witness :
  fle MIN_TEMP_C (Fin 25.5) && fle (Fin 25.5) MAX_TEMP_C = true /\
  plausible (Fin 25.5) = Fin 25.5.
Proof.
  split; [reflexivity|].
  apply (proj1 (C3_plausibility_filter (Fin 25.5))). reflexivity.
Defined.

(** ** Numerical equality *)

Lemma fsame_refl (x : pyfloat) : fsame x x.
Proof. destruct x; simpl; auto. apply Qeq_refl. Qed.


Lemma fsame_trans (x y z : pyfloat) : fsame x y -> fsame y z -> fsame x z.
Proof. destruct x, y, z; simpl; auto; try contradiction. apply Qeq_trans. Qed.

Lemma Qlt_bool_comp (a a' b b' : Q) :
  (a == a')%Q -> (b == b')%Q -> Qlt_bool a b = Qlt_bool a' b'.
Proof. intros Ha Hb. unfold Qlt_bool. now rewrite Ha, Hb. Qed.

Lemma inf_signed_comp (a a' : Q) : (a == a')%Q -> inf_signed a = inf_signed a'.
Proof.
  intros H. unfold inf_signed.
  now rewrite (Qlt_bool_comp 0 0 a a' (Qeq_refl 0) H),
              (Qlt_bool_comp a a' 0 0 H (Qeq_refl 0)).
Qed.

Lemma fadd_fsame (x x' y y' : pyfloat) :
  fsame x x' -> fsame y y' -> fsame (fadd x y) (fadd x' y').
Proof.
  destruct x, x', y, y'; simpl; auto; try contradiction.
  intros H1 H2. now rewrite H1, H2.
Qed.

Lemma fadd_zero_r (x : pyfloat) : fsame (fadd x (Fin 0)) x.
Proof. destruct x; simpl; auto. apply Qplus_0_r. Qed.

Lemma fdiv_fsame_l (x x' y : pyfloat) :
  fsame x x' -> fsame (fdiv x y) (fdiv x' y).
Proof.
  destruct x as [a| | |], x' as [a'| | |], y as [b| | |];
    simpl; auto; try contradiction;
    try (intros _; apply fsame_refl); try (intros _; reflexivity).
  intros H. destruct (Qeq_bool b 0).
  - rewrite (inf_signed_comp a a' H). apply fsame_refl.
  - simpl. now rewrite H.
Qed.

(** ** TemporalAggregator *)

Lemma sum_replaced_nan (col : list pyfloat) : forall acc acc',
  fsame acc acc' ->
  fsame (fold_left fadd (map (fun x => if isnan x then Fin 0 else x) col) acc)
        (fold_left fadd (Np.present col) acc').
Proof.
  induction col as [|a col IH]; intros acc acc' H; simpl; [exact H|].
  destruct (isnan a) eqn:E; simpl.
  - apply IH. eapply fsame_trans; [apply fadd_zero_r | exact H].
  - apply IH. apply fadd_fsame; [exact H | apply fsame_refl].
Qed.

Lemma nanmean_present (col : list pyfloat) :
  fsame (Np.nanmean col)
        (fdiv (Np.sum (Np.present col)) (of_nat (length (Np.present col)))).
Proof.
  unfold Np.nanmean, Np.sum. fold (Np.present col).
  apply fdiv_fsame_l. apply sum_replaced_nan. apply fsame_refl.
Qed.

Lemma count_nan_present (col : list pyfloat) :
  (length (filter isnan col) + length (Np.present col) = length col)%nat.
Proof.
  unfold Np.present. induction col as [|a col IH]; simpl; [reflexivity|].
  destruct (isnan a); simpl; lia.
Qed.

Lemma nanmean_axis0_nth (table : list (list pyfloat)) (i : nat) :
  (i < length (hd [] table))%nat ->
  nth i (Np.nanmean_axis0 table) NaN =
  Np.nanmean (map (fun row => nth i row NaN) table).
Proof.
  destruct table as [|row0 table]; simpl; [lia|].
  intros Hi.
  set (f := fun i => Np.nanmean (nth i row0 NaN :: map (fun row => nth i row NaN) table)).
  change (nth i (map f (seq 0 (length row0))) NaN = f i).
  rewrite (nth_indep _ NaN (f 0%nat)) by (now rewrite length_map, length_seq).
  rewrite map_nth, seq_nth by exact Hi. reflexivity.
Qed.

Lemma fsame_nan (x : pyfloat) : fsame x NaN -> x = NaN.
Proof. destruct x; simpl; try contradiction; reflexivity. Qed.

(** C4. For every column of monthly values, [np.nanmean] is the
    arithmetic mean (sum over count) of the non-missing values only, the
    missing ones neither failing the computation nor entering it as zeros;
    it is NaN when every month is missing.  Twelve values of which exactly
    three are missing give the mean of the other nine, twelve missing values
    give NaN; the annual value of polygon [i] is that mean over column [i] of
    the monthly table. *)
Theorem C4_temporal_aggregator (col : list pyfloat) :
  let vals := Np.present col in
  fsame (Np.nanmean col) (fdiv (Np.sum vals) (of_nat (length vals))) /\
  (vals = [] -> Np.nanmean col = NaN) /\
  (length col = 12%nat -> length (filter isnan col) = 3%nat ->
   length vals = 9%nat /\
   fsame (Np.nanmean col) (fdiv (Np.sum vals) (Fin 9))) /\
  (length (filter isnan col) = length col -> Np.nanmean col = NaN) /\
  (forall (table : list (list pyfloat)) (i : nat),
      (i < length (hd [] table))%nat ->
      nth i (Np.nanmean_axis0 table) NaN =
      Np.nanmean (map (fun row => nth i row NaN) table)).
Proof.
  intros vals.
  assert (Hmean := nanmean_present col). fold vals in Hmean.
  assert (Hnil : vals = [] -> Np.nanmean col = NaN).
  { intros E. rewrite E in Hmean. apply fsame_nan. exact Hmean. }
  split; [exact Hmean|]. split; [exact Hnil|]. split; [|split].
  - intros H12 H3. pose proof (count_nan_present col) as Hc.
    fold vals in Hc.
    assert (H9 : length vals = 9%nat) by lia.
    split; [exact H9|]. rewrite H9 in Hmean. exact Hmean.
  - intros Hall. pose proof (count_nan_present col) as Hc.
    fold vals in Hc. apply Hnil.
    destruct vals; [reflexivity | simpl in Hc; lia].
  - apply nanmean_axis0_nth.
Qed.

Lemma C4_temporal_aggregator_witness :
  length Ex.c4_col = 12%nat /\ length (filter isnan Ex.c4_col) = 3%nat /\
  fsame (Np.nanmean Ex.c4_col)
        (fdiv (Np.sum [Fin 20; Fin 21; Fin 22; Fin 23; Fin 24; Fin 25; Fin 26;
                       Fin 27; Fin 28]) (Fin 9)).
Proof.
  split; [reflexivity|]. split; [reflexivity|].
  exact (proj2 (proj1 (proj2 (proj2 (C4_temporal_aggregator Ex.c4_col)))
                  eq_refl eq_refl)).
Defined.

(** ** Sums and means of finite values *)

Lemma all_finite_map_Fin (l : list pyfloat) :
  (forall x, In x l -> isfinite x = true) -> exists qs, l = map Fin qs.
Proof.
  induction l as [|x l IH]; intros H.
  - now exists [].
  - destruct IH as [qs ->]; [intros y Hy; apply H; now right|].
    destruct x as [q| | |]; try (specialize (H _ (or_introl eq_refl)); discriminate).
    now exists (q :: qs).
Qed.

Lemma fold_fadd_Fin (qs : list Q) : forall a,
  fold_left fadd (map Fin qs) (Fin a) = Fin (fold_left Qplus qs a).
Proof.
  induction qs as [|q qs IH]; intros a; simpl; [reflexivity|]. apply IH.
Qed.

Lemma Qsum_bounds (l h : Q) (qs : list Q) : forall a,
  (forall q, In q qs -> l <= q /\ q <= h)%Q ->
  (a + inject_Z (Z.of_nat (length qs)) * l <= fold_left Qplus qs a /\
   fold_left Qplus qs a <= a + inject_Z (Z.of_nat (length qs)) * h)%Q.
Proof.
  induction qs as [|q qs IH]; intros a H.
  - simpl. split; ring_simplify; apply Qle_refl.
  - destruct (H q (or_introl eq_refl)) as [Hl Hh].
    destruct (IH (a + q)%Q (fun q' Hq' => H q' (or_intror Hq'))) as [IHl IHh].
    change (length (q :: qs)) with (S (length qs)).
    rewrite Nat2Z.inj_succ. unfold Z.succ. rewrite inject_Z_plus.
    simpl fold_left.
    set (n := inject_Z (Z.of_nat (length qs))) in *.
    change (inject_Z 1) with 1%Q.
    split.
    + apply Qle_trans with (a + q + n * l)%Q; [|exact IHl].
      setoid_replace (a + (n + 1) * l)%Q with (a + l + n * l)%Q by ring.
      lra.
    + apply Qle_trans with (a + q + n * h)%Q; [exact IHh|].
      setoid_replace (a + (n + 1) * h)%Q with (a + h + n * h)%Q by ring.
      lra.
Qed.

Lemma Qmean_bounds (l h : Q) (qs : list Q) :
  qs <> [] ->
  (forall q, In q qs -> l <= q /\ q <= h)%Q ->
  (l <= fold_left Qplus qs 0 / inject_Z (Z.of_nat (length qs)) /\
   fold_left Qplus qs 0 / inject_Z (Z.of_nat (length qs)) <= h)%Q.
Proof.
  intros Hne H.
  destruct (Qsum_bounds l h qs 0 H) as [Hl Hh].
  assert (Hn : (0 < inject_Z (Z.of_nat (length qs)))%Q).
  { change 0%Q with (inject_Z 0). rewrite <- Zlt_Qlt.
    destruct qs; [congruence | simpl; lia]. }
  split.
  - apply Qle_shift_div_l; [exact Hn|]. lra.
  - apply Qle_shift_div_r; [exact Hn|]. lra.
Qed.

(** The mean of a non-empty list of finite values is the finite value
    sum over count. *)
Lemma mean_finite (qs : list Q) :
  qs <> [] ->
  fdiv (Np.sum (map Fin qs)) (of_nat (length (map Fin qs))) =
  Fin (fold_left Qplus qs 0 / inject_Z (Z.of_nat (length qs))).
Proof.
  intros Hne. unfold Np.sum, of_nat. rewrite fold_fadd_Fin, length_map.
  simpl.
  destruct (Qeq_bool (inject_Z (Z.of_nat (length qs))) 0) eqn:E; [|reflexivity].
  apply Qeq_bool_iff in E. exfalso.
  change 0%Q with (inject_Z 0) in E. apply inject_Z_injective in E.
  destruct qs; [congruence | simpl in E; discriminate].
Qed.

(** ** ZonalAggregator *)

Lemma enumerate_In {A} (l : list A) (p : nat * A) :
  In p (enumerate l) -> In (snd p) l.
Proof.
  unfold enumerate. destruct p as [i x]. intros H.
  now apply in_combine_r in H.
Qed.

Lemma cells_in_concat (geom : nat -> nat -> bool) (data : Np.ndarray) (x : pyfloat) :
  In x (cells_in geom data) -> In x (concat data).
Proof.
  unfold cells_in. intros H.
  apply in_concat in H as (l & Hl & Hx).
  apply in_map_iff in Hl as (ir & <- & Hir).
  apply in_map_iff in Hx as (jx & <- & Hjx).
  apply filter_In in Hjx as [Hjx _].
  apply in_concat. exists (snd ir). split.
  - now apply enumerate_In.
  - now apply enumerate_In.
Qed.

Lemma valid_cells_valid_values (geom : nat -> nat -> bool) (data : Np.ndarray)
  (nodata : option pyfloat) (x : pyfloat) :
  In x (valid_cells geom data nodata) -> In x (valid_values data nodata).
Proof.
  unfold valid_cells, valid_values. rewrite !filter_In.
  intros [H1 H2]. split; [now apply (cells_in_concat geom) | exact H2].
Qed.

Lemma filter_nil_iff {A} (f : A -> bool) (l : list A) :
  filter f l = [] <-> forall x, In x l -> f x = false.
Proof.
  induction l as [|a l IH]; simpl.
  - split; [intros _ x [] | reflexivity].
  - destruct (f a) eqn:E.
    + split; [discriminate|]. intros H.
      specialize (H a (or_introl eq_refl)). congruence.
    + rewrite IH. split.
      * intros H x [<-|Hx]; auto.
      * intros H x Hx. apply H. now right.
Qed.

Lemma zonal_mean_None_iff (geom : nat -> nat -> bool) (data : Np.ndarray)
  (nodata : option pyfloat) :
  zonal_mean geom data nodata = None <-> valid_cells geom data nodata = [].
Proof.
  unfold zonal_mean. destruct (valid_cells geom data nodata); split;
    congruence.
Qed.

Lemma zonal_mean_bounds (geom : nat -> nat -> bool) (data : Np.ndarray)
  (nodata : option pyfloat) (v : pyfloat) :
  zonal_mean geom data nodata = Some v ->
  exists lo hi,
    Np.min (valid_values data nodata) = Some lo /\
    Np.max (valid_values data nodata) = Some hi /\
    isfinite v = true /\ fle lo v = true /\ fle v hi = true.
Proof.
  unfold zonal_mean. intros H.
  set (vs := valid_cells geom data nodata) in *.
  assert (Hne : vs <> []) by (intros E; rewrite E in H; discriminate).
  assert (Hv : v = fdiv (Np.sum vs) (of_nat (length vs)))
    by (destruct vs; [congruence | now injection H]).
  clear H.
  assert (Hsub : forall x, In x vs -> In x (valid_values data nodata))
    by (intros x; exact (valid_cells_valid_values geom data nodata x)).
  assert (HR : valid_values data nodata <> []).
  { destruct vs as [|x vs']; [congruence|].
    intros E. specialize (Hsub x (or_introl eq_refl)). now rewrite E in Hsub. }
  destruct (min_spec _ (valid_values_no_nan data nodata) HR)
    as (lo & Hmin & _ & Hlo_in & Hlo).
  destruct (max_spec _ (valid_values_no_nan data nodata) HR)
    as (hi & Hmax & _ & Hhi_in & Hhi).
  exists lo, hi. split; [exact Hmin|]. split; [exact Hmax|].
  destruct (all_finite_map_Fin vs) as [qs Hqs].
  { intros x Hx. apply Hsub, filter_In in Hx as [_ Hx].
    eapply cell_valid_finite, Hx. }
  assert (Hqne : qs <> []) by (intros E; rewrite E in Hqs; now apply Hne).
  rewrite Hv, Hqs, mean_finite by exact Hqne.
  assert (Hflo : isfinite lo = true)
    by (apply filter_In in Hlo_in as [_ Hc]; eapply cell_valid_finite, Hc).
  assert (Hfhi : isfinite hi = true)
    by (apply filter_In in Hhi_in as [_ Hc]; eapply cell_valid_finite, Hc).
  destruct lo as [l| | |], hi as [h| | |]; try discriminate.
  destruct (Qmean_bounds l h qs Hqne) as [Hl Hh].
  { intros q Hq.
    assert (Hin : In (Fin q) vs) by (rewrite Hqs; now apply in_map).
    specialize (Hlo _ (Hsub _ Hin)). specialize (Hhi _ (Hsub _ Hin)).
    simpl in Hlo, Hhi. now rewrite !Qle_bool_iff in *. }
  split; [reflexivity|]. simpl. now rewrite !Qle_bool_iff.
Qed.

Lemma make_df_nth_error (municipios : list Municipio) : forall temps i m,
  nth_error municipios i = Some m ->
  length temps = length municipios ->
  nth_error (make_df municipios temps) i =
  Some {| codigo_ibge := CD_MUN m; municipio := NM_MUN m;
          estado := SIGLA_UF m; temp_media_anual := nth i temps NaN |}.
Proof.
  induction municipios as [|m0 municipios IH]; intros temps i m Hi Hlen.
  - destruct i; discriminate.
  - destruct temps as [|t temps]; [discriminate|].
    destruct i as [|i]; simpl in *.
    + now injection Hi as ->.
    + apply IH; [exact Hi | now injection Hlen].
Qed.

Lemma nanmean_all_nan (col : list pyfloat) :
  (forall x, In x col -> x = NaN) -> Np.nanmean col = NaN.
Proof.
  intros H. apply fsame_nan.
  eapply fsame_trans; [apply nanmean_present|].
  assert (E : Np.present col = []).
  { apply filter_nil_iff. intros x Hx. now rewrite (H x Hx). }
  rewrite E. exact I.
Qed.

Lemma linha_length (s : pyfloat) (zs : list (option pyfloat)) :
  length (linha s zs) = length zs.
Proof. apply length_map. Qed.

Lemma zs_of_length (municipios : list Municipio) (files : FileSystem) (r : string) :
  length (zs_of municipios files r) = length municipios.
Proof. apply length_map. Qed.

Lemma zs_of_nth_error (municipios : list Municipio) (files : FileSystem)
  (r : string) (i : nat) (m : Municipio) :
  nth_error municipios i = Some m ->
  nth_error (zs_of municipios files r) i =
  Some (zonal_mean (geometry m) (data (raster_of files r))
                   (nodata (raster_of files r))).
Proof.
  intros H. unfold zs_of, zonal_stats. now rewrite nth_error_map, H.
Qed.

(** A polygon without a valid cell in any raster of the run is published
    with a missing annual value. *)
Lemma run_missing_polygon (args : Args) (shapefile : list Municipio)
  (files : FileSystem) (municipios : list Municipio) (rasters : list string)
  (i : nat) (m : Municipio) :
  load_municipios args shapefile [] = (inr municipios, []) ->
  select_rasters args files [] = (inr rasters, []) ->
  nth_error municipios i = Some m ->
  (forall r, In r rasters ->
             zonal_mean (geometry m) (data (raster_of files r))
                        (nodata (raster_of files r)) = None) ->
  exists df,
    fst (run args shapefile files) = inr df /\
    nth_error df i =
    Some {| codigo_ibge := CD_MUN m; municipio := NM_MUN m;
            estado := SIGLA_UF m; temp_media_anual := NaN |}.
Proof.
  intros Hm Hr Hi Hnone.
  rewrite (run_ok args shapefile files municipios rasters Hm Hr). simpl fst.
  eexists. split; [reflexivity|].
  destruct (select_rasters_In args files rasters [] [] Hr) as (_ & Hne & _).
  set (s := scale_of_run (escala args) files rasters).
  set (table := map (fun r => linha s (zs_of municipios files r)) rasters).
  assert (Hlt : (i < length municipios)%nat)
    by (apply nth_error_Some; congruence).
  assert (Hhd : length (hd [] table) = length municipios).
  { subst table. destruct rasters as [|r0 rasters']; [congruence|].
    simpl. now rewrite linha_length, zs_of_length. }
  assert (Hlen : length (Np.nanmean_axis0 table) = length municipios).
  { rewrite <- Hhd. subst table. destruct rasters as [|r0 rasters']; [congruence|].
    simpl. now rewrite length_map, length_seq. }
  rewrite (make_df_nth_error municipios _ i m Hi Hlen).
  rewrite nanmean_axis0_nth by (rewrite Hhd; exact Hlt).
  rewrite nanmean_all_nan; [reflexivity|].
  intros x Hx. subst table. rewrite map_map in Hx.
  apply in_map_iff in Hx as (r & <- & Hrin).
  apply nth_error_nth.
  rewrite linha_nth_error, (zs_of_nth_error municipios files r i m Hi).
  now rewrite (Hnone r Hrin).
Qed.

Lemma base_no_nan (csv : DataFrame) (r : nat * Row) :
  In r (base csv) -> isnan (value r) = false.
Proof.
  unfold base, dropna. intros [_ H]%filter_In. now apply negb_true_iff in H.
Qed.

(** C2. For every polygon (the set of cells whose centre it contains) and
    every single-month band: the zonal mean is missing exactly when no
    cell inside the polygon is valid (there is no cell inside, or each one
    is nodata or not finite); otherwise it is a finite value between the
    smallest and the largest valid value of the band.  Downstream the
    missing result becomes NaN in the month's row, whatever the factor, not
    zero and without raising; a polygon missing in every raster of the run
    (in particular in the single raster of a one-month run) is published
    with a NaN annual value; [stats.py] drops such rows instead of counting
    them. *)
Theorem C2_zonal_aggregator
  (geom : nat -> nat -> bool) (data : Np.ndarray) (nodata : option pyfloat) :
  (zonal_mean geom data nodata = None <->
   forall x, In x (cells_in geom data) -> cell_valid nodata x = false) /\
  (cells_in geom data = [] -> zonal_mean geom data nodata = None) /\
  (forall nd, nodata = Some nd ->
              (forall x, In x (cells_in geom data) -> feq x nd = true) ->
              zonal_mean geom data nodata = None) /\
  (forall v, zonal_mean geom data nodata = Some v ->
             exists lo hi,
               Np.min (valid_values data nodata) = Some lo /\
               Np.max (valid_values data nodata) = Some hi /\
               isfinite v = true /\ fle lo v = true /\ fle v hi = true) /\
  (zonal_mean geom data nodata = None ->
   forall s, linha s [zonal_mean geom data nodata] = [NaN]) /\
  (forall args shapefile files municipios rasters i m,
      load_municipios args shapefile [] = (inr municipios, []) ->
      select_rasters args files [] = (inr rasters, []) ->
      nth_error municipios i = Some m ->
      (forall r, In r rasters ->
                 zonal_mean (geometry m) (Index.data (raster_of files r))
                            (Index.nodata (raster_of files r)) = None) ->
      exists df,
        fst (run args shapefile files) = inr df /\
        nth_error df i =
        Some {| codigo_ibge := CD_MUN m; municipio := NM_MUN m;
                estado := SIGLA_UF m; temp_media_anual := NaN |}) /\
  (forall csv r, In r (base csv) -> isnan (value r) = false).
Proof.
  assert (Hiff : zonal_mean geom data nodata = None <->
                 forall x, In x (cells_in geom data) -> cell_valid nodata x = false).
  { rewrite zonal_mean_None_iff. unfold valid_cells. apply filter_nil_iff. }
  split; [exact Hiff|]. split; [|split; [|split; [|split; [|split]]]].
  - intros E. apply Hiff. rewrite E. intros x [].
  - intros nd -> Hall. apply Hiff. intros x Hx.
    unfold cell_valid, fne. rewrite (Hall x Hx). apply andb_false_r.
  - apply zonal_mean_bounds.
  - intros -> s. reflexivity.
  - apply run_missing_polygon.
  - apply base_no_nan.
Qed.

Lemma C2_zonal_aggregator_witness :
  zonal_mean Ex.c2_geom_A Ex.c2_data (Some (Fin (-9999))) = Some (Fin (52 # 4)) /\
  zonal_mean Ex.c2_geom_B Ex.c2_data (Some (Fin (-9999))) = None /\
  exists lo hi,
    Np.min (valid_values Ex.c2_data (Some (Fin (-9999)))) = Some lo /\
    Np.max (valid_values Ex.c2_data (Some (Fin (-9999)))) = Some hi /\
    isfinite (Fin (52 # 4)) = true /\
    fle lo (Fin (52 # 4)) = true /\ fle (Fin (52 # 4)) hi = true.
Proof.
  split; [reflexivity|]. split.
  - apply (proj1 (proj2 (proj2
             (C2_zonal_aggregator Ex.c2_geom_B Ex.c2_data (Some (Fin (-9999)))))) 
             (Fin (-9999)) eq_refl).
    intros x Hx. vm_compute in Hx.
    destruct Hx as [<-|[<-|[]]]; reflexivity.
  - apply (proj1 (proj2 (proj2 (proj2
             (C2_zonal_aggregator Ex.c2_geom_A Ex.c2_data (Some (Fin (-9999))))))) 
             (Fin (52 # 4))).
    reflexivity.
Defined.

(** ** Input-shape errors *)

Lemma pick_raster_fails (rasters : list string) (month : nat) :
  no_raster_for_month rasters month ->
  _pick_raster_for_month rasters month = inl (RuntimeError_mes month).
Proof.
  intros (H1 & H2 & H3). unfold _pick_raster_for_month.
  destruct (find (fun path => Str.contains _ _) rasters) as [p|] eqn:E1.
  { apply find_some in E1 as [Hin Hc]. now rewrite (H1 p Hin) in Hc. }
  destruct (find (fun path => Str.endswith _ _) rasters) as [p|] eqn:E2.
  { apply find_some in E2 as [Hin Hc]. now rewrite (H2 p Hin) in Hc. }
  destruct ((1 <=? month)%nat && (month <=? length rasters)%nat) eqn:E3;
    [|reflexivity].
  apply andb_true_iff in E3 as [Ha Hb]. apply Nat.leb_le in Ha, Hb.
  exfalso. apply H3. lia.
Qed.

Lemma pick_raster_fails_only (rasters : list string) (month : nat) (e : exn) :
  _pick_raster_for_month rasters month = inl e ->
  e = RuntimeError_mes month /\ no_raster_for_month rasters month.
Proof.
  unfold _pick_raster_for_month, no_raster_for_month.
  destruct (find (fun path => Str.contains _ _) rasters) as [p|] eqn:E1;
    [discriminate|].
  destruct (find (fun path => Str.endswith _ _) rasters) as [p|] eqn:E2;
    [discriminate|].
  destruct ((1 <=? month)%nat && (month <=? length rasters)%nat) eqn:E3;
    [discriminate|].
  intros [= <-]. split; [reflexivity|]. repeat split.
  - intros path Hin. exact (find_none _ _ E1 path Hin).
  - intros path Hin. exact (find_none _ _ E2 path Hin).
  - intros [Ha Hb]. apply Nat.leb_le in Ha, Hb. rewrite Ha, Hb in E3.
    discriminate.
Qed.

Lemma load_municipios_result (args : Args) (shapefile : list Municipio) :
  (exists municipios, load_municipios args shapefile [] = (inr municipios, [])) \/
  load_municipios args shapefile [] = (inl ValueError_limite, []).
Proof.
  unfold load_municipios, raise, ret.
  destruct (limite args) as [n|]; [destruct (n <=? 0)%Z|]; eauto.
Qed.

Lemma load_municipios_ok (args : Args) (shapefile : list Municipio) :
  limite_ok args ->
  exists municipios, load_municipios args shapefile [] = (inr municipios, []).
Proof.
  unfold limite_ok, load_municipios, raise, ret.
  destruct (limite args) as [n|]; [|eauto].
  intros H. destruct (n <=? 0)%Z eqn:E; [apply Z.leb_le in E; lia | eauto].
Qed.

Lemma run_select_fails (args : Args) (shapefile : list Municipio)
  (files : FileSystem) (e : exn) :
  select_rasters args files [] = (inl e, []) ->
  (limite_ok args -> run args shapefile files = (inl e, [])) /\
  exists e', run args shapefile files = (inl e', []).
Proof.
  intros Hs.
  assert (Hok : forall municipios,
             load_municipios args shapefile [] = (inr municipios, []) ->
             run args shapefile files = (inl e, [])).
  { intros municipios Hm. unfold run, main. unfold bind at 1. rewrite Hm.
    unfold bind at 1. now rewrite Hs. }
  split.
  - intros Hl. destruct (load_municipios_ok args shapefile Hl) as [ms Hm].
    now apply (Hok ms).
  - destruct (load_municipios_result args shapefile) as [[ms Hm]|Hm].
    + exists e. now apply (Hok ms).
    + exists ValueError_limite. unfold run, main. unfold bind at 1.
      now rewrite Hm.
Qed.

Lemma select_rasters_empty (args : Args) :
  select_rasters args [] [] = (inl RuntimeError_nenhum_raster, []).
Proof. reflexivity. Qed.

Lemma select_rasters_not_12 (args : Args) (files : FileSystem) :
  mes args = None -> length files <> 12%nat ->
  exists e, select_rasters args files [] = (inl e, []) /\
            (files <> [] -> e = RuntimeError_esperado_12).
Proof.
  intros Hmes Hlen. unfold select_rasters, raise, ret.
  rewrite sorted_length, length_map, Hmes.
  destruct (length files =? 0)%nat eqn:E0.
  - eexists. split; [reflexivity|]. intros Hne.
    apply Nat.eqb_eq in E0. destruct files; [congruence|discriminate].
  - apply Nat.eqb_neq in Hlen. rewrite Hlen. simpl. eauto.
Qed.

Lemma select_rasters_no_month (args : Args) (files : FileSystem) (m : nat) :
  mes args = Some m ->
  no_raster_for_month (Str.sorted (map fst files)) m ->
  exists e, select_rasters args files [] = (inl e, []) /\
            (files <> [] -> e = RuntimeError_mes m).
Proof.
  intros Hmes Hno. unfold select_rasters, raise, lift.
  rewrite Hmes, (pick_raster_fails _ _ Hno).
  rewrite sorted_length, length_map.
  destruct (length files =? 0)%nat eqn:E0.
  - eexists. split; [reflexivity|]. intros Hne.
    apply Nat.eqb_eq in E0. destruct files; [congruence|discriminate].
  - eauto.
Qed.

(** C8. When no raster is found, or a full-year run (no [--mes]) does not
    find exactly twelve rasters, or no raster answers the month asked for,
    the script raises before opening any raster: no zonal statistics have
    been computed and no CSV has been written (the event log is empty).
    With a valid [--limite] the exception is the RuntimeError of the
    failed check; a non-positive [--limite] raises its ValueError first. *)
Theorem C8_input_shape_errors
  (args : Args) (shapefile : list Municipio) (files : FileSystem) :
  (files = [] \/
   (mes args = None /\ length files <> 12%nat) \/
   (exists m, mes args = Some m /\
              no_raster_for_month (Str.sorted (map fst files)) m) ->
   exists e, run args shapefile files = (inl e, [])) /\
  (limite_ok args -> files = [] ->
   run args shapefile files = (inl RuntimeError_nenhum_raster, [])) /\
  (limite_ok args -> files <> [] -> mes args = None -> length files <> 12%nat ->
   run args shapefile files = (inl RuntimeError_esperado_12, [])) /\
  (forall m, limite_ok args -> files <> [] -> mes args = Some m ->
             no_raster_for_month (Str.sorted (map fst files)) m ->
             run args shapefile files = (inl (RuntimeError_mes m), [])).
Proof.
  split; [|split; [|split]].
  - intros [->|[[Hmes Hlen]|(m & Hmes & Hno)]].
    + apply (run_select_fails args shapefile [] _ (select_rasters_empty args)).
    + destruct (select_rasters_not_12 args files Hmes Hlen) as (e & He & _).
      apply (run_select_fails args shapefile files e He).
    + destruct (select_rasters_no_month args files m Hmes Hno) as (e & He & _).
      apply (run_select_fails args shapefile files e He).
  - intros Hl ->.
    now apply (run_select_fails args shapefile [] _ (select_rasters_empty args)).
  - intros Hl Hne Hmes Hlen.
    destruct (select_rasters_not_12 args files Hmes Hlen) as (e & He & Hee).
    rewrite (Hee Hne) in He.
    now apply (run_select_fails args shapefile files _ He).
  - intros m Hl Hne Hmes Hno.
    destruct (select_rasters_no_month args files m Hmes Hno) as (e & He & Hee).
    rewrite (Hee Hne) in He.
    now apply (run_select_fails args shapefile files _ He).
Qed.

Lemma C8_input_shape_errors_witness :
  limite_ok Ex.c8_args /\ Ex.c8_files <> [] /\ mes Ex.c8_args = Some 7%nat /\
  no_raster_for_month (Str.sorted (map fst Ex.c8_files)) 7 /\
  run Ex.c8_args [Ex.whole_band] Ex.c8_files = (inl (RuntimeError_mes 7), []).
Proof.
  assert (Hl : limite_ok Ex.c8_args) by (vm_compute; reflexivity).
  assert (Hne : Ex.c8_files <> []) by discriminate.
  assert (Hno : no_raster_for_month (Str.sorted (map fst Ex.c8_files)) 7).
  { repeat split.
    - intros path Hp. vm_compute in Hp.
      destruct Hp as [<-|[<-|[]]]; reflexivity.
    - intros path Hp. vm_compute in Hp.
      destruct Hp as [<-|[<-|[]]]; reflexivity.
    - vm_compute. lia. }
  split; [exact Hl|]. split; [exact Hne|]. split; [reflexivity|].
  split; [exact Hno|].
  exact (proj2 (proj2 (proj2
           (C8_input_shape_errors Ex.c8_args [Ex.whole_band] Ex.c8_files)))
           7%nat Hl Hne eq_refl Hno).
Defined.

(** ** Temperature bands *)

Lemma Qle_bool_false_iff (a b : Q) : Qle_bool a b = false <-> (b < a)%Q.
Proof.
  split.
  - intros H. apply Qnot_le_lt. intros Hle. apply Qle_bool_iff in Hle.
    congruence.
  - intros H. destruct (Qle_bool a b) eqn:E; [|reflexivity].
    apply Qle_bool_iff in E. exfalso. exact (Qlt_not_le _ _ H E).
Qed.

Ltac case_Qle :=
  repeat match goal with
         | |- context [Qle_bool ?a ?b] =>
             let E := fresh "E" in
             destruct (Qle_bool a b) eqn:E;
             [apply Qle_bool_iff in E | apply Qle_bool_false_iff in E];
             try (exfalso; lra)
         | |- context [Qeq_bool ?a ?b] =>
             let E := fresh "E" in
             destruct (Qeq_bool a b) eqn:E;
             [apply Qeq_bool_iff in E | apply Qeq_bool_neq in E];
             try (exfalso; lra)
         end.

(** The band of a finite value, read off the edges. *)
Lemma cut_bins_Fin (q : Q) :
  cut bins (Fin q) =
  if Qle_bool (-50) q then
    if Qle_bool q 15 then Some 0%nat
    else if Qle_bool q 18 then Some 1%nat
    else if Qle_bool q 21 then Some 2%nat
    else if Qle_bool q 24 then Some 3%nat
    else if Qle_bool q 27 then Some 4%nat
    else if Qle_bool q 50 then Some 5%nat
    else None
  else None.
Proof.
  unfold cut, searchsorted_left, bins. simpl. unfold Qlt_bool.
  case_Qle; simpl; try reflexivity; exfalso; lra.
Qed.

Lemma cut_bins_range (x : pyfloat) :
  (in_bins x = true -> exists k, cut bins x = Some k /\ (k < 6)%nat) /\
  (in_bins x = false -> cut bins x = None).
Proof.
  unfold in_bins. destruct x as [q| | |]; try (split; [discriminate|reflexivity]).
  rewrite cut_bins_Fin. simpl fle. split.
  - intros [H1 H2]%andb_true_iff. rewrite H1.
    apply Qle_bool_iff in H1, H2.
    case_Qle; eauto 10.
  - intros H. destruct (Qle_bool (-50) q) eqn:E1; [|reflexivity].
    simpl in H. apply Qle_bool_false_iff in H.
    case_Qle; reflexivity.
Qed.

(** C10. [pd.cut] with the edges [-50, 15, 18, 21, 24, 27, 50] and
    [include_lowest=True] bins a value into left-open, right-closed
    intervals with the lowest edge included: [-50, 15], (15, 18], (18, 21],
    (21, 24], (24, 27], (27, 50].  A value equal to an interior edge falls in
    the lower band (15.0 in "< 15°C"), -50.0 falls in the lowest band, and a
    value above 50 or below -50 gets no band. *)
Theorem C10_temperature_bins (x : pyfloat) :
  bins = [Fin (-50); Fin 15; Fin 18; Fin 21; Fin 24; Fin 27; Fin 50] /\
  (fle (Fin (-50)) x && fle x (Fin 15) = true -> cut bins x = Some 0%nat) /\
  (flt (Fin 15) x && fle x (Fin 18) = true -> cut bins x = Some 1%nat) /\
  (flt (Fin 18) x && fle x (Fin 21) = true -> cut bins x = Some 2%nat) /\
  (flt (Fin 21) x && fle x (Fin 24) = true -> cut bins x = Some 3%nat) /\
  (flt (Fin 24) x && fle x (Fin 27) = true -> cut bins x = Some 4%nat) /\
  (flt (Fin 27) x && fle x (Fin 50) = true -> cut bins x = Some 5%nat) /\
  (flt (Fin 50) x = true -> cut bins x = None) /\
  (flt x (Fin (-50)) = true -> cut bins x = None) /\
  cut bins (Fin 15) = Some 0%nat /\
  cut bins (Fin (-50)) = Some 0%nat /\
  nth 0 labels "" = "< 15°C".
Proof.
  split; [reflexivity|].
  destruct x as [q| | |];
    try (repeat split; try discriminate; reflexivity).
  rewrite cut_bins_Fin. simpl fle. simpl flt. unfold Qlt_bool.
  repeat split;
    try (intros [H1 H2]%andb_true_iff;
         try apply negb_true_iff in H1;
         try apply Qle_bool_iff in H1; try apply Qle_bool_false_iff in H1;
         apply Qle_bool_iff in H2;
         case_Qle; reflexivity);
    try (intros H1%negb_true_iff; apply Qle_bool_false_iff in H1;
         case_Qle; reflexivity).
Qed.

Lemma C10_temperature_bins_witness :
  fle (Fin (-50)) (Fin 15) && fle (Fin 15) (Fin 15) = true /\
  flt (Fin 15) (Fin 18) && fle (Fin 18) (Fin 18) = true /\
  flt (Fin 50) (Fin 50.5) = true /\
  cut bins (Fin 15) = Some 0%nat /\
  cut bins (Fin 18) = Some 1%nat /\
  cut bins (Fin 50.5) = None.
Proof.
  split; [reflexivity|]. split; [reflexivity|]. split; [reflexivity|].
  split; [|split].
  - exact (proj1 (proj2 (C10_temperature_bins (Fin 15))) eq_refl).
  - exact (proj1 (proj2 (proj2 (C10_temperature_bins (Fin 18)))) eq_refl).
  - exact (proj1 (proj2 (proj2 (proj2 (proj2 (proj2 (proj2 (proj2
             (C10_temperature_bins (Fin 50.5))))))))) eq_refl).
Defined.

(** ** Counting per band *)

Lemma list_sum_map_add {A} (f g : A -> nat) (l : list A) :
  list_sum (map (fun k => f k + g k)%nat l) =
  (list_sum (map f l) + list_sum (map g l))%nat.
Proof.
  induction l as [|a l IH]; simpl; [reflexivity|]. rewrite IH. lia.
Qed.

Lemma list_sum_indicator (k0 n : nat) : forall start,
  list_sum (map (fun k => if (k0 =? k)%nat then 1 else 0)%nat (seq start n)) =
  (if ((start <=? k0) && (k0 <? start + n))%nat then 1 else 0)%nat.
Proof.
  induction n as [|n IH]; intros start; simpl.
  - destruct (start <=? k0)%nat eqn:E1; simpl; [|reflexivity].
    destruct (k0 <? start + 0)%nat eqn:E2; [|reflexivity].
    apply Nat.leb_le in E1. apply Nat.ltb_lt in E2. lia.
  - rewrite IH.
    destruct (k0 =? start)%nat eqn:E0;
      destruct (start <=? k0)%nat eqn:E1;
      destruct (S start <=? k0)%nat eqn:E2;
      destruct (k0 <? start + S n)%nat eqn:E3;
      destruct (k0 <? S start + n)%nat eqn:E4; simpl; try reflexivity;
      repeat match goal with
             | H : (_ =? _)%nat = true |- _ => apply Nat.eqb_eq in H
             | H : (_ =? _)%nat = false |- _ => apply Nat.eqb_neq in H
             | H : (_ <=? _)%nat = true |- _ => apply Nat.leb_le in H
             | H : (_ <=? _)%nat = false |- _ => apply Nat.leb_gt in H
             | H : (_ <? _)%nat = true |- _ => apply Nat.ltb_lt in H
             | H : (_ <? _)%nat = false |- _ => apply Nat.ltb_ge in H
             end; lia.
Qed.

Lemma list_sum_zero {A} (l : list A) : list_sum (map (fun _ => 0%nat) l) = 0%nat.
Proof. induction l; simpl; auto. Qed.

(** Summed over the categories, the counts are the number of entries that
    have a category. *)
Lemma value_counts_total (n : nat) (col : list (option nat)) :
  (forall k, In (Some k) col -> (k < n)%nat) ->
  list_sum (map (fun k => length (filter (fun c => code_eqb c k) col)) (seq 0 n)) =
  length (filter has_code col).
Proof.
  induction col as [|c col IH]; intros Hlt.
  - simpl. apply list_sum_zero.
  - specialize (IH (fun k Hk => Hlt k (or_intror Hk))).
    transitivity
      (list_sum (map (fun k => (if code_eqb c k then 1 else 0)
                               + length (filter (fun c => code_eqb c k) col))%nat
                     (seq 0 n))).
    { f_equal. apply map_ext. intros k. simpl. now destruct (code_eqb c k). }
    rewrite list_sum_map_add, IH. simpl filter.
    destruct c as [k0|]; simpl.
    + rewrite (list_sum_indicator k0 n 0). simpl.
      pose proof (Hlt k0 (or_introl eq_refl)) as Hk.
      apply Nat.ltb_lt in Hk. now rewrite Hk.
    + now rewrite list_sum_zero.
Qed.

Lemma faixa_codes_bounded (df : Frame) (k : nat) :
  In (Some k) (faixa_temperatura df) -> (k < length labels)%nat.
Proof.
  unfold faixa_temperatura. intros (r & Hr & _)%in_map_iff.
  destruct (in_bins (value r)) eqn:E.
  - destruct (proj1 (cut_bins_range (value r)) E) as (k' & Hk' & Hlt).
    rewrite Hk' in Hr. injection Hr as <-. exact Hlt.
  - rewrite (proj2 (cut_bins_range (value r)) E) in Hr. discriminate.
Qed.

Lemma faixa_has_code (df : Frame) :
  length (filter has_code (faixa_temperatura df)) =
  length (filter (fun r => in_bins (value r)) df).
Proof.
  unfold faixa_temperatura. induction df as [|r df IH]; simpl; [reflexivity|].
  destruct (in_bins (value r)) eqn:E.
  - destruct (proj1 (cut_bins_range (value r)) E) as (k & -> & _).
    simpl. now rewrite IH.
  - rewrite (proj2 (cut_bins_range (value r)) E). simpl. exact IH.
Qed.

Lemma filter_all {A} (f : A -> bool) (l : list A) :
  (forall x, In x l -> f x = true) -> filter f l = l.
Proof.
  induction l as [|a l IH]; intros H; simpl; [reflexivity|].
  rewrite (H a (or_introl eq_refl)). f_equal. apply IH.
  intros x Hx. apply H. now right.
Qed.


(** ** Sorting by value *)

Lemma before_total (asc : bool) (x y : pyfloat) :
  before asc x y = false -> before asc y x = true.
Proof.
  unfold before. intros H.
  apply orb_false_iff in H as [Hy H]. rewrite Hy. simpl.
  destruct (isnan x) eqn:Hx; [reflexivity|]. simpl in *.
  destruct asc.
  - destruct (fle_total x y Hx Hy) as [E|E]; congruence.
  - destruct (fle_total y x Hy Hx) as [E|E]; congruence.
Qed.

Lemma before_trans (asc : bool) (x y z : pyfloat) :
  before asc x y = true -> before asc y z = true -> before asc x z = true.
Proof.
  unfold before. intros Hxy Hyz.
  destruct (isnan z) eqn:Hz; [reflexivity|]. simpl in *.
  apply andb_true_iff in Hyz as [Hy Hyz]. apply negb_true_iff in Hy.
  rewrite Hy in Hxy. simpl in Hxy.
  apply andb_true_iff in Hxy as [Hx Hxy]. rewrite Hx. simpl.
  destruct asc; eapply fle_trans; eassumption.
Qed.

Lemma before_no_nan (asc : bool) (x y : pyfloat) :
  isnan y = false -> before asc x y = true ->
  (if asc then fle x y else fle y x) = true.
Proof.
  unfold before. intros -> H. simpl in H.
  now apply andb_true_iff in H as [_ H].
Qed.

Lemma feq_fle (x y : pyfloat) : feq x y = true -> fle x y = true /\ fle y x = true.
Proof.
  destruct x, y; simpl; try discriminate; auto.
  rewrite Qeq_bool_iff, !Qle_bool_iff. intros H. rewrite H.
  split; apply Qle_refl.
Qed.

Lemma feq_before (asc : bool) (x y : pyfloat) :
  feq x y = true -> before asc y x = true.
Proof.
  intros H. destruct (feq_fle x y H) as [H1 H2]. unfold before.
  rewrite (fle_nan_l x y H1), (fle_nan_r x y H1). simpl.
  now destruct asc.
Qed.


Lemma StronglySorted_weaken {A} (R R' : A -> A -> Prop) (l : list A) :
  (forall a b, In a l -> In b l -> R a b -> R' a b) ->
  StronglySorted R l -> StronglySorted R' l.
Proof.
  intros Himp Hs. induction Hs as [|a l Hs IH Hall]; constructor.
  - apply IH. intros x y Hx Hy. apply Himp; now right.
  - apply Forall_forall. intros b Hb.
    apply Himp; [now left | now right |].
    now apply (proj1 (Forall_forall _ _) Hall).
Qed.

Lemma StronglySorted_app_cross {A} (R : A -> A -> Prop) (l1 l2 : list A) :
  StronglySorted R (l1 ++ l2)%list ->
  forall a b, In a l1 -> In b l2 -> R a b.
Proof.
  induction l1 as [|x l1 IH]; intros Hs a b Ha Hb; [destruct Ha|].
  simpl in Hs. inversion Hs as [|? ? Hs' Hall]; subst.
  destruct Ha as [<-|Ha].
  - apply (proj1 (Forall_forall _ _) Hall). apply in_or_app. now right.
  - now apply IH.
Qed.


Lemma StronglySorted_nth {A} (R : A -> A -> Prop) (l : list A) :
  StronglySorted R l ->
  forall i j a b, (i < j)%nat ->
                  nth_error l i = Some a -> nth_error l j = Some b -> R a b.
Proof.
  intros Hs. induction Hs as [|x l Hs IH Hall]; intros i j a b Hij Hi Hj.
  - destruct i; discriminate.
  - destruct j as [|j]; [lia|]. simpl in Hj.
    destruct i as [|i]; simpl in Hi.
    + injection Hi as <-.
      apply (proj1 (Forall_forall _ _) Hall). eapply nth_error_In, Hj.
    + apply (IH i j); [lia | assumption | assumption].
Qed.

Lemma insert_row_perm (asc : bool) (x : nat * Row) (l : Frame) :
  Permutation (x :: l) (insert_row asc x l).
Proof.
  induction l as [|y l IH]; simpl; [reflexivity|].
  destruct (before asc (value x) (value y)); [reflexivity|].
  rewrite perm_swap. now constructor.
Qed.

Lemma sort_stable_perm (asc : bool) (df : Frame) :
  Permutation df (sort_stable asc df).
Proof.
  induction df as [|x df IH]; simpl; [constructor|].
  rewrite <- insert_row_perm. now constructor.
Qed.

Lemma insert_row_ranked (asc : bool) (x : nat * Row) (l : Frame) :
  StronglySorted (ranked asc) l ->
  Forall (fun z => (fst x < fst z)%nat) l ->
  StronglySorted (ranked asc) (insert_row asc x l).
Proof.
  intros Hs. induction Hs as [|y l Hs IH Hall]; intros Hlab; simpl.
  - constructor; constructor.
  - inversion Hlab as [|? ? Hy Hlab']; subst.
    destruct (before asc (value x) (value y)) eqn:E.
    + constructor; [now constructor|].
      constructor.
      * split; [exact E | intros _; exact Hy].
      * apply Forall_forall. intros z Hz. split.
        -- eapply before_trans; [exact E|].
           apply (proj1 (Forall_forall _ _) Hall z Hz).
        -- intros _. apply (proj1 (Forall_forall _ _) Hlab' z Hz).
    + constructor; [now apply IH|].
      apply Forall_forall. intros z Hz.
      apply (Permutation_in _ (Permutation_sym (insert_row_perm asc x l))) in Hz.
      destruct Hz as [<-|Hz].
      * split; [now apply before_total|].
        intros Heq.
        rewrite (feq_before asc _ _ Heq) in E. discriminate.
      * apply (proj1 (Forall_forall _ _) Hall z Hz).
Qed.

Lemma sort_stable_ranked (asc : bool) (df : Frame) :
  StronglySorted (fun a b => (fst a < fst b)%nat) df ->
  StronglySorted (ranked asc) (sort_stable asc df).
Proof.
  intros Hs. induction Hs as [|x df Hs IH Hall]; simpl; [constructor|].
  apply insert_row_ranked; [exact IH|].
  eapply Permutation_Forall; [apply sort_stable_perm | exact Hall].
Qed.

Lemma enumerate_from_labels {A} (l : list A) : forall start,
  StronglySorted (fun a b : nat * A => (fst a < fst b)%nat)
                 (combine (seq start (length l)) l) /\
  Forall (fun a : nat * A => (start <= fst a)%nat)
         (combine (seq start (length l)) l).
Proof.
  induction l as [|x l IH]; intros start; simpl.
  - split; constructor.
  - destruct (IH (S start)) as [Hs Hall]. split.
    + constructor; [exact Hs|].
      eapply Forall_impl; [|exact Hall]. simpl. intros a Ha. lia.
    + constructor; [simpl; lia|].
      eapply Forall_impl; [|exact Hall]. simpl. intros a Ha. lia.
Qed.

Lemma StronglySorted_filter {A} (R : A -> A -> Prop) (f : A -> bool) (l : list A) :
  StronglySorted R l -> StronglySorted R (filter f l).
Proof.
  intros Hs. induction Hs as [|x l Hs IH Hall]; simpl; [constructor|].
  destruct (f x); [|exact IH]. constructor; [exact IH|].
  apply Forall_forall. intros y Hy. apply filter_In in Hy as [Hy _].
  apply (proj1 (Forall_forall _ _) Hall y Hy).
Qed.

Lemma base_by_label (csv : DataFrame) : StronglySorted by_label (base csv).
Proof.
  unfold base, dropna, read_csv, enumerate.
  apply StronglySorted_filter. apply (enumerate_from_labels csv 0).
Qed.

(** On a frame whose labels increase, the stable sort is one of the
    outcomes [sort_values] allows, and it ranks equal values by label. *)
Lemma sort_stable_sort_values (asc : bool) (df : Frame) :
  StronglySorted by_label df ->
  sort_values asc df (sort_stable asc df) /\
  StronglySorted (ranked asc) (sort_stable asc df).
Proof.
  intros Hlab. pose proof (sort_stable_ranked asc df Hlab) as Hr.
  split; [|exact Hr]. split; [apply sort_stable_perm|].
  eapply StronglySorted_weaken; [|exact Hr].
  intros a b _ _ [H _]. exact H.
Qed.


Lemma sort_values_no_nan (asc : bool) (df out : Frame) :
  (forall r, In r df -> isnan (value r) = false) ->
  sort_values asc df out ->
  StronglySorted
    (fun a b => (if asc then fle (value a) (value b)
                 else fle (value b) (value a)) = true) out.
Proof.
  intros Hn [Hperm Hs].
  eapply StronglySorted_weaken; [|exact Hs].
  intros a b _ Hb H. simpl in H.
  apply before_no_nan; [|exact H].
  apply Hn. eapply Permutation_in; [apply Permutation_sym, Hperm | exact Hb].
Qed.

(** ** Top 10 *)




(** ** Outliers *)

(** C9. The outlier table exists for every CSV and holds exactly the rows
    of the base table (missing values dropped) whose value is strictly
    below Q1 - 1.5 IQR or strictly above Q3 + 1.5 IQR, each as often as in
    the base table, in increasing order of value; Q1 and Q3 are the
    quantiles 0.25 and 0.75 of the non-missing values and IQR = Q3 - Q1.  For
    the values 10, 12, 14, 16, 18, 20, 100 the bounds are 4 and 28 and the
    outliers are the row of value 100 alone. *)
Theorem C9_iqr_outliers (csv : DataFrame) :
  let df := base csv in
  let Q1 := quantile (1 # 4) (map value df) in
  let Q3 := quantile (3 # 4) (map value df) in
  let IQR := fsub Q3 Q1 in
  let low := fsub Q1 (fmul (Fin 1.5) IQR) in
  let high := fadd Q3 (fmul (Fin 1.5) IQR) in
  (exists out, outliers csv out) /\
  (forall out,
      outliers csv out ->
      (forall r, In r out <->
                 In r df /\
                 (flt (value r) low = true \/ flt high (value r) = true)) /\
      Permutation
        (filter (fun r => flt (value r) low || flt high (value r)) df) out /\
      StronglySorted (fun a b => fle (value a) (value b) = true) out) /\
  (map value (base Ex.c9_csv) =
     [Fin 10; Fin 12; Fin 14; Fin 16; Fin 18; Fin 20; Fin 100] /\
   fsame (lim_inf (base Ex.c9_csv)) (Fin 4) /\
   fsame (lim_sup (base Ex.c9_csv)) (Fin 28) /\
   forall out, outliers Ex.c9_csv out -> map value out = [Fin 100]).
Proof.
  intros df Q1 Q3 IQR low high.
  assert (Hdef : forall r, is_outlier df r = flt (value r) low || flt high (value r))
    by reflexivity.
  split; [|split].
  - exists (sort_stable true (filter (is_outlier df) df)).
    apply sort_stable_sort_values.
    apply StronglySorted_filter, base_by_label.
  - intros out Hout. unfold outliers in Hout. fold df in Hout.
    split; [|split].
    + intros r. destruct Hout as [Hperm _]. split.
      * intros Hr.
        apply (Permutation_in _ (Permutation_sym Hperm)) in Hr.
        apply filter_In in Hr as [Hin Ho]. split; [exact Hin|].
        rewrite Hdef in Ho. now apply orb_true_iff in Ho.
      * intros [Hin Ho]. apply (Permutation_in _ Hperm).
        apply filter_In. split; [exact Hin|].
        rewrite Hdef. now apply orb_true_iff.
    + exact (proj1 Hout).
    + apply (sort_values_no_nan true (filter (is_outlier df) df) out);
        [|exact Hout].
      intros r [Hr _]%filter_In. now apply base_no_nan in Hr.
  - split; [reflexivity|]. split; [vm_compute; reflexivity|].
    split; [vm_compute; reflexivity|].
    intros out [Hperm _].
    assert (E : filter (is_outlier (base Ex.c9_csv)) (base Ex.c9_csv) = Ex.c9_out)
      by (vm_compute; reflexivity).
    rewrite E in Hperm. unfold Ex.c9_out in Hperm.
    apply Permutation_length_1_inv in Hperm. now subst out.
Qed.

Lemma C9_iqr_outliers_witness :
  outliers Ex.c9_csv Ex.c9_out /\
  StronglySorted (fun a b => fle (value a) (value b) = true) Ex.c9_out /\
  (forall r, In r Ex.c9_out -> In r (base Ex.c9_csv)).
Proof.
  assert (H : outliers Ex.c9_csv Ex.c9_out).
  { split.
    - vm_compute. apply Permutation_refl.
    - repeat constructor. }
  split; [exact H|].
  destruct (proj1 (proj2 (C9_iqr_outliers Ex.c9_csv)) Ex.c9_out H)
    as (Hin & _ & Hs).
  split; [exact Hs|].
  intros r Hr. now apply (proj1 (Hin r)).
Defined.

(** ** The values a run publishes *)

Lemma plausible_published (v : pyfloat) : published (plausible v).
Proof.
  destruct (fle MIN_TEMP_C v && fle v MAX_TEMP_C) eqn:E.
  - rewrite (plausible_in_range v E). right.
    apply andb_true_iff in E as [H1 H2].
    destruct v as [q| | |]; simpl in H1, H2; try discriminate.
    exists q. apply Qle_bool_iff in H1, H2. auto.
  - rewrite (plausible_out_of_range v E). now left.
Qed.

Lemma nanmean_published (col : list pyfloat) :
  (forall x, In x col -> published x) -> published (Np.nanmean col).
Proof.
  intros H.
  destruct (all_finite_map_Fin (Np.present col)) as [qs Hqs].
  { intros x [Hx Hn]%filter_In. destruct (H x Hx) as [->|(q & -> & _)];
      [discriminate | reflexivity]. }
  pose proof (nanmean_present col) as Hm. rewrite Hqs in Hm.
  assert (Hcase : qs = [] \/ qs <> [])
    by (destruct qs; [now left | right; discriminate]).
  destruct Hcase as [->|Hne].
  { left. apply fsame_nan. exact Hm. }
  rewrite mean_finite in Hm by exact Hne.
  destruct (Np.nanmean col) as [m| | |]; simpl in Hm; try contradiction.
  right. exists m. split; [reflexivity|]. rewrite Hm.
  apply Qmean_bounds; [exact Hne|].
  intros q Hq.
  assert (Hin : In (Fin q) (Np.present col)) by (rewrite Hqs; now apply in_map).
  apply filter_In in Hin as [Hin _].
  destruct (H _ Hin) as [E|(q' & E & Hb)]; [discriminate|].
  now injection E as <-.
Qed.

Lemma linha_published (s : pyfloat) (zs : list (option pyfloat)) (x : pyfloat) :
  In x (linha s zs) -> published x.
Proof.
  unfold linha. intros (z & <- & _)%in_map_iff.
  destruct z; [apply plausible_published | now left].
Qed.

Lemma nanmean_axis0_published (table : list (list pyfloat)) (x : pyfloat) :
  (forall row y, In row table -> In y row -> published y) ->
  In x (Np.nanmean_axis0 table) -> published x.
Proof.
  intros H Hx. destruct table as [|row0 table']; [destruct Hx|].
  unfold Np.nanmean_axis0 in Hx. apply in_map_iff in Hx as (i & <- & _).
  apply nanmean_published. intros y (row & <- & Hrow)%in_map_iff.
  destruct (nth_in_or_default i row NaN) as [Hin | ->]; [|now left].
  exact (H row _ Hrow Hin).
Qed.

Lemma select_rasters_trace (args : Args) (files : FileSystem) (tr : list event) :
  snd (select_rasters args files tr) = tr.
Proof.
  unfold select_rasters, raise, lift, ret.
  destruct (length (Str.sorted (map fst files)) =? 0)%nat; [reflexivity|].
  destruct (mes args); [reflexivity|].
  now destruct (negb (length (Str.sorted (map fst files)) =? 12)%nat).
Qed.

Lemma run_inr_inv (args : Args) (shapefile : list Municipio) (files : FileSystem)
  (df : DataFrame) (tr : list event) :
  run args shapefile files = (inr df, tr) ->
  exists municipios rasters,
    load_municipios args shapefile [] = (inr municipios, []) /\
    select_rasters args files [] = (inr rasters, []).
Proof.
  intros Hrun.
  destruct (load_municipios_result args shapefile) as [[ms Hm]|Hm].
  - exists ms.
    destruct (select_rasters args files []) as [[e|rasters] tr'] eqn:Hs.
    + exfalso. unfold run, main in Hrun. unfold bind at 1 in Hrun.
      rewrite Hm in Hrun. unfold bind at 1 in Hrun. rewrite Hs in Hrun.
      discriminate.
    + exists rasters. split; [exact Hm|].
      pose proof (select_rasters_trace args files []) as Ht.
      rewrite Hs in Ht. simpl in Ht. now subst tr'.
  - exfalso. unfold run, main in Hrun. unfold bind at 1 in Hrun.
    rewrite Hm in Hrun. discriminate.
Qed.

(** Every annual value written by a completed run is missing or lies
    within the plausibility bounds. *)
Lemma run_published (args : Args) (shapefile : list Municipio)
  (files : FileSystem) (df : DataFrame) (tr : list event) :
  run args shapefile files = (inr df, tr) ->
  forall row, In row df -> published (temp_media_anual row).
Proof.
  intros Hrun row Hrow.
  destruct (run_inr_inv args shapefile files df tr Hrun) as (ms & rs & Hm & Hs).
  rewrite (run_ok args shapefile files ms rs Hm Hs) in Hrun.
  injection Hrun as <- _.
  unfold make_df in Hrow. apply in_map_iff in Hrow as (mt & <- & Hmt).
  simpl. destruct mt as [m t]. apply in_combine_r in Hmt. simpl.
  eapply nanmean_axis0_published; [|exact Hmt].
  intros r y (path & <- & _)%in_map_iff Hy.
  eapply linha_published, Hy.
Qed.

Lemma published_in_bins (x : pyfloat) :
  published x -> isnan x = false -> in_bins x = true.
Proof.
  intros [->|(q & -> & H1 & H2)] Hn; [discriminate|].
  unfold in_bins. simpl. apply andb_true_iff.
  rewrite !Qle_bool_iff. split; lra.
Qed.

Lemma base_In_csv (csv : DataFrame) (r : nat * Row) :
  In r (base csv) -> In (snd r) csv.
Proof.
  unfold base, dropna, read_csv. intros [H _]%filter_In.
  now apply enumerate_In.
Qed.

(** ** Binned distribution *)

(** C7 (as amended).  The counts of the binned distribution sum exactly to
    the number of non-missing records whose value lies in [-50, 50], the
    range the fixed edges cover; they sum to the number of non-missing
    records when every value lies in that range, which is the case of every
    table written by a completed run of [index.py].  Every fixed bin appears
    in the output, in the order of the labels, also when its count is 0. *)
Theorem C7_binned_counts (csv : DataFrame) :
  list_sum (map snd (dist csv)) =
  length (filter (fun r => in_bins (value r)) (base csv)) /\
  ((forall r, In r (base csv) -> in_bins (value r) = true) ->
   list_sum (map snd (dist csv)) = length (base csv)) /\
  (forall args shapefile files tr,
      run args shapefile files = (inr csv, tr) ->
      list_sum (map snd (dist csv)) = length (base csv)) /\
  map fst (dist csv) = labels /\
  length (dist csv) = 6%nat.
Proof.
  assert (Hsum : list_sum (map snd (dist csv)) =
                 length (filter (fun r => in_bins (value r)) (base csv))).
  { unfold dist. rewrite map_map. simpl snd.
    rewrite value_counts_total by apply faixa_codes_bounded.
    apply faixa_has_code. }
  assert (Hall : (forall r, In r (base csv) -> in_bins (value r) = true) ->
                 list_sum (map snd (dist csv)) = length (base csv)).
  { intros Hall. rewrite Hsum. now rewrite filter_all. }
  split; [exact Hsum|]. split; [exact Hall|]. split; [|split].
  - intros args shapefile files tr Hrun. apply Hall. intros r Hr.
    apply published_in_bins.
    + apply (run_published args shapefile files csv tr Hrun).
      now apply base_In_csv.
    + now apply (base_no_nan csv).
  - reflexivity.
  - reflexivity.
Qed.

Lemma C7_binned_counts_witness :
  (forall r, In r (base Ex.c7_csv_ok) -> in_bins (value r) = true) /\
  list_sum (map snd (dist Ex.c7_csv_ok)) = 3%nat /\
  map snd (dist Ex.c7_csv_ok) = [2; 0; 0; 0; 1; 0]%nat.
Proof.
  assert (H : forall r, In r (base Ex.c7_csv_ok) -> in_bins (value r) = true).
  { intros r Hr. vm_compute in Hr.
    destruct Hr as [<-|[<-|[<-|[]]]]; reflexivity. }
  split; [exact H|]. split; [|reflexivity].
  exact (proj1 (proj2 (C7_binned_counts Ex.c7_csv_ok)) H).
Defined.

(** C7 (as stated) fails: a CSV whose only record is 60.0 has one
    non-missing record, and every band has count 0. *)
Lemma C7_counterexample :
  length (base Ex.c7_csv) = 1%nat /\
  map snd (dist Ex.c7_csv) = [0; 0; 0; 0; 0; 0]%nat /\
  list_sum (map snd (dist Ex.c7_csv)) <> length (base Ex.c7_csv).
Proof.
  vm_compute. repeat split. discriminate.
Qed.

(* ===================================================================== *)
(** * Part III: further properties of the code *)
(* ===================================================================== *)

(** ** [_pick_raster_for_month] *)

Lemma find_first {A} (f : A -> bool) (l : list A) (x : A) :
  find f l = Some x ->
  exists l1 l2, l = (l1 ++ x :: l2)%list /\ f x = true /\
                forall y, In y l1 -> f y = false.
Proof.
  induction l as [|a l IH]; simpl; [discriminate|].
  destruct (f a) eqn:E.
  - intros [= <-]. exists [], l. repeat split; auto. intros y [].
  - intros H. destruct (IH H) as (l1 & l2 & -> & Hx & Hl1).
    exists (a :: l1), l2. repeat split; auto.
    intros y [<-|Hy]; auto.
Qed.

(** X1. For a month that is a position of the list (1 <= month <=
    len(rasters)) [_pick_raster_for_month] never raises: it returns a list
    of exactly one path, and that path is one of the rasters. *)
Theorem pick_raster_total_on_positions (rasters : list string) (month : nat) :
  (1 <= month <= length rasters)%nat ->
  exists path, _pick_raster_for_month rasters month = inr [path] /\
               In path rasters.
Proof.
  intros Hm.
  destruct (_pick_raster_for_month rasters month) as [e|l] eqn:E.
  - apply pick_raster_fails_only in E as (_ & _ & _ & Hno). now elim Hno.
  - apply pick_raster_In in E as (path & -> & Hin). eauto.
Qed.

Lemma pick_raster_total_on_positions_witness :
  (1 <= 7 <= length Ex.x1_rasters)%nat /\
  exists path, _pick_raster_for_month Ex.x1_rasters 7 = inr [path] /\
               In path Ex.x1_rasters.
Proof.
  assert (H : (1 <= 7 <= length Ex.x1_rasters)%nat) by (vm_compute; lia).
  split; [exact H|].
  exact (pick_raster_total_on_positions Ex.x1_rasters 7 H).
Defined.

(** X2. [_pick_raster_for_month] raises exactly when no base name holds
    [tavg_MM], no path ends in [_MM.tif] (case-insensitively) and the month
    is not a position of the list; the exception then names that month. *)
Theorem pick_raster_raises_iff (rasters : list string) (month : nat) (e : exn) :
  _pick_raster_for_month rasters month = inl e <->
  e = RuntimeError_mes month /\ no_raster_for_month rasters month.
Proof.
  split.
  - apply pick_raster_fails_only.
  - intros [-> H]. now apply pick_raster_fails.
Qed.

Lemma pick_raster_raises_iff_witness :
  no_raster_for_month Ex.x1_rasters 9 /\
  _pick_raster_for_month Ex.x1_rasters 9 = inl (RuntimeError_mes 9).
Proof.
  assert (H : no_raster_for_month Ex.x1_rasters 9).
  { split; [|split].
    - intros path Hp. vm_compute in Hp.
      repeat (destruct Hp as [<-|Hp]; [reflexivity|]). destruct Hp.
    - intros path Hp. vm_compute in Hp.
      repeat (destruct Hp as [<-|Hp]; [reflexivity|]). destruct Hp.
    - vm_compute. lia. }
  split; [exact H|].
  exact (proj2 (pick_raster_raises_iff Ex.x1_rasters 9 (RuntimeError_mes 9))
               (conj eq_refl H)).
Defined.

(** X3. A raster named for the month wins over the fallbacks: as soon as
    one base name holds [tavg_MM], the result is the first raster of the
    list with such a name, whatever the suffixes and the positions. *)
Theorem pick_raster_prefers_name (rasters : list string) (month : nat) :
  (exists p, In p rasters /\ name_match month p = true) ->
  exists l1 q l2,
    rasters = (l1 ++ q :: l2)%list /\
    name_match month q = true /\
    (forall p, In p l1 -> name_match month p = false) /\
    _pick_raster_for_month rasters month = inr [q].
Proof.
  intros (p & Hin & Hp). unfold _pick_raster_for_month.
  fold (name_match month).
  destruct (find (name_match month) rasters) as [q|] eqn:E.
  - destruct (find_first _ _ _ E) as (l1 & l2 & Hl & Hq & Hl1).
    exists l1, q, l2. auto.
  - rewrite (find_none _ _ E p Hin) in Hp. discriminate.
Qed.

Lemma pick_raster_prefers_name_witness :
  (exists p, In p Ex.x3_rasters /\ name_match 3 p = true) /\
  exists l1 q l2,
    Ex.x3_rasters = (l1 ++ q :: l2)%list /\
    name_match 3 q = true /\
    (forall p, In p l1 -> name_match 3 p = false) /\
    _pick_raster_for_month Ex.x3_rasters 3 = inr [q].
Proof.
  assert (H : exists p, In p Ex.x3_rasters /\ name_match 3 p = true).
  { exists "r/old_tavg_03.tif". split; [vm_compute; auto | reflexivity]. }
  split; [exact H|].
  exact (pick_raster_prefers_name Ex.x3_rasters 3 H).
Defined.

(** ** The script as a whole *)




Lemma load_municipios_selected (args : Args) (shapefile ms : list Municipio) :
  load_municipios args shapefile [] = (inr ms, []) ->
  ms = selected_municipios args shapefile /\ limite_ok args.
Proof.
  unfold load_municipios, selected_municipios, limite_ok, raise, ret.
  destruct (limite args) as [n|].
  - destruct (n <=? 0)%Z eqn:E; [discriminate|].
    intros [= <-]. split; [reflexivity|]. apply Z.leb_gt in E. lia.
  - intros [= <-]. auto.
Qed.

Lemma select_rasters_ok (args : Args) (files : FileSystem) :
  files <> [] ->
  match mes args with
  | None => length files = 12%nat
  | Some m => ~ no_raster_for_month (Str.sorted (map fst files)) m
  end ->
  exists rasters,
    select_rasters args files [] = (inr rasters, []) /\
    length rasters = match mes args with None => 12%nat | Some _ => 1%nat end.
Proof.
  intros Hne Hmes. unfold select_rasters, raise, lift, ret.
  rewrite sorted_length, length_map.
  destruct (length files =? 0)%nat eqn:E0.
  { apply Nat.eqb_eq in E0. destruct files; [congruence|discriminate]. }
  destruct (mes args) as [m|].
  - destruct (_pick_raster_for_month (Str.sorted (map fst files)) m)
      as [e|l] eqn:E.
    + apply pick_raster_fails_only in E as [_ Hno]. now elim Hmes.
    + apply pick_raster_In in E as (p & -> & _). eauto.
  - rewrite Hmes. simpl. eexists. split; [reflexivity|].
    now rewrite sorted_length, length_map.
Qed.

(** X5. The run completes exactly when the inputs pass the four checks:
    [--limite] absent or positive, at least one raster found, and either
    twelve rasters (full year) or a raster for the month asked for.  No other
    condition of the data (missing cells, nodata, polygons without cells) can
    make it fail. *)
Theorem run_completes_iff
  (args : Args) (shapefile : list Municipio) (files : FileSystem) :
  (exists df tr, run args shapefile files = (inr df, tr)) <->
  inputs_ok args files.
Proof.
  split.
  - intros (df & tr & Hrun).
    destruct (run_inr_inv args shapefile files df tr Hrun)
      as (ms & rasters & Hm & Hs).
    destruct (load_municipios_selected args shapefile ms Hm) as [_ Hl].
    split; [exact Hl|].
    assert (Hne : files <> []).
    { intros ->. rewrite select_rasters_empty in Hs. discriminate. }
    split; [exact Hne|].
    destruct (mes args) as [m|] eqn:Hmes.
    + intros Hno.
      destruct (select_rasters_no_month args files m Hmes Hno) as (e & He & _).
      rewrite He in Hs. discriminate.
    + destruct (Nat.eq_dec (length files) 12) as [E|E]; [exact E|].
      destruct (select_rasters_not_12 args files Hmes E) as (e & He & _).
      rewrite He in Hs. discriminate.
  - intros (Hl & Hne & Hmes).
    destruct (load_municipios_ok args shapefile Hl) as [ms Hm].
    destruct (select_rasters_ok args files Hne Hmes) as (rasters & Hs & _).
    rewrite (run_ok args shapefile files ms rasters Hm Hs). eauto.
Qed.

Lemma run_completes_iff_witness :
  inputs_ok Ex.no_args Ex.c1_files /\
  exists df tr, run Ex.no_args [Ex.whole_band] Ex.c1_files = (inr df, tr).
Proof.
  assert (H : inputs_ok Ex.no_args Ex.c1_files).
  { split; [exact I|]. split; [discriminate | reflexivity]. }
  split; [exact H|].
  exact (proj2 (run_completes_iff Ex.no_args [Ex.whole_band] Ex.c1_files) H).
Defined.

Lemma nanmean_axis0_length (table : list (list pyfloat)) :
  length (Np.nanmean_axis0 table) = length (hd [] table).
Proof.
  destruct table as [|row0 table]; simpl; [reflexivity|].
  now rewrite length_map, length_seq.
Qed.

Lemma run_table_width (municipios : list Municipio) (files : FileSystem)
  (s : pyfloat) (rasters : list string) :
  rasters <> [] ->
  length (Np.nanmean_axis0
            (map (fun r => linha s (zs_of municipios files r)) rasters)) =
  length municipios.
Proof.
  intros Hne. rewrite nanmean_axis0_length.
  destruct rasters as [|r0 rasters]; [congruence|].
  simpl. now rewrite linha_length, zs_of_length.
Qed.

Lemma make_df_columns (municipios : list Municipio) : forall temps,
  length temps = length municipios ->
  map codigo_ibge (make_df municipios temps) = map CD_MUN municipios /\
  map municipio (make_df municipios temps) = map NM_MUN municipios /\
  map estado (make_df municipios temps) = map SIGLA_UF municipios /\
  map temp_media_anual (make_df municipios temps) = temps.
Proof.
  induction municipios as [|m ms IH]; intros [|t temps] Hlen;
    try discriminate; simpl.
  - auto.
  - injection Hlen as Hlen. destruct (IH temps Hlen) as (H1 & H2 & H3 & H4).
    unfold make_df in *. simpl. now rewrite H1, H2, H3, H4.
Qed.

(** A completed run, spelled out: the polygons kept, the rasters selected,
    the table written and the event log. *)
Lemma run_inr_shape (args : Args) (shapefile : list Municipio)
  (files : FileSystem) (df : DataFrame) (tr : list event) :
  run args shapefile files = (inr df, tr) ->
  exists rasters,
    let ms := selected_municipios args shapefile in
    let s := scale_of_run (escala args) files rasters in
    let table := map (fun r => linha s (zs_of ms files r)) rasters in
    select_rasters args files [] = (inr rasters, []) /\
    rasters <> [] /\
    length rasters = match mes args with None => 12%nat | Some _ => 1%nat end /\
    df = make_df ms (Np.nanmean_axis0 table) /\
    tr = (EvOpen (nth 0 rasters "") :: loop_events ms rasters
          ++ [EvToCsv OUTPUT df])%list.
Proof.
  intros Hrun.
  destruct (run_inr_inv args shapefile files df tr Hrun)
    as (ms & rasters & Hm & Hs).
  destruct (load_municipios_selected args shapefile ms Hm) as [-> _].
  exists rasters. simpl.
  destruct (select_rasters_In args files rasters [] [] Hs) as (_ & Hne & _).
  rewrite (run_ok args shapefile files _ rasters Hm Hs) in Hrun.
  injection Hrun as <- <-.
  repeat split; auto.
  assert (Hx : exists df0 tr0, run args shapefile files = (inr df0, tr0)).
  { rewrite (run_ok args shapefile files _ rasters Hm Hs). eauto. }
  apply run_completes_iff in Hx as (_ & Hfne & Hmes).
  destruct (select_rasters_ok args files Hfne Hmes) as (rasters' & Hs' & Hlen).
  rewrite Hs in Hs'. now injection Hs' as <-.
Qed.

(** X6. The table written by a completed run has exactly one row per
    polygon kept (all of the shapefile, or its first [--limite] rows), in
    the order of the shapefile, each row carrying the code, name and state
    of the polygon at the same position. *)
Theorem run_rows_follow_shapefile
  (args : Args) (shapefile : list Municipio) (files : FileSystem)
  (df : DataFrame) (tr : list event) :
  run args shapefile files = (inr df, tr) ->
  let ms := selected_municipios args shapefile in
  length df = length ms /\
  length ms = match limite args with
              | Some n => Nat.min (Z.to_nat n) (length shapefile)
              | None => length shapefile
              end /\
  map codigo_ibge df = map CD_MUN ms /\
  map municipio df = map NM_MUN ms /\
  map estado df = map SIGLA_UF ms.
Proof.
  intros Hrun ms.
  destruct (run_inr_shape args shapefile files df tr Hrun)
    as (rasters & _ & Hne & _ & Hdf & _).
  fold ms in Hdf.
  pose proof (run_table_width ms files
                (scale_of_run (escala args) files rasters) rasters Hne) as Hw.
  destruct (make_df_columns ms _ Hw) as (H1 & H2 & H3 & _).
  rewrite Hdf. repeat split; auto.
  - rewrite <- (length_map codigo_ibge), H1. apply length_map.
  - subst ms. unfold selected_municipios.
    destruct (limite args); [apply length_firstn | reflexivity].
Qed.

Lemma run_rows_follow_shapefile_witness :
  exists tr,
    run Ex.x_args_limite [Ex.whole_band; Ex.half_band] Ex.c1_files =
    (inr [{| codigo_ibge := "3550308"; municipio := "São Paulo";
           estado := "SP"; temp_media_anual := Fin (275 # 11) |}], tr) /\
    length [{| codigo_ibge := "3550308"; municipio := "São Paulo";
           estado := "SP"; temp_media_anual := Fin (275 # 11) |}] =
    length (selected_municipios Ex.x_args_limite [Ex.whole_band; Ex.half_band]) /\
    map codigo_ibge [{| codigo_ibge := "3550308"; municipio := "São Paulo";
           estado := "SP"; temp_media_anual := Fin (275 # 11) |}] =
    map CD_MUN (selected_municipios Ex.x_args_limite [Ex.whole_band; Ex.half_band]).
Proof.
  eexists. split; [vm_compute; reflexivity|].
  match goal with
  | |- length ?d = _ /\ _ =>
      assert (H : exists tr,
                 run Ex.x_args_limite [Ex.whole_band; Ex.half_band] Ex.c1_files =
                 (inr d, tr))
        by (eexists; vm_compute; reflexivity)
  end.
  destruct H as [tr H].
  destruct (run_rows_follow_shapefile _ _ _ _ _ H) as (H1 & _ & H2 & _).
  split; [exact H1 | exact H2].
Defined.

(** X7. Every annual value written by a completed run is either missing
    (NaN) or a finite temperature within the plausibility bounds
    [MIN_TEMP_C, MAX_TEMP_C]: averaging the filtered months cannot leave the
    bounds, and no infinity is ever written. *)
Theorem run_values_within_bounds
  (args : Args) (shapefile : list Municipio) (files : FileSystem)
  (df : DataFrame) (tr : list event) :
  run args shapefile files = (inr df, tr) ->
  forall row, In row df ->
    isnan (temp_media_anual row) = true \/
    (isfinite (temp_media_anual row) = true /\
     fle MIN_TEMP_C (temp_media_anual row) = true /\
     fle (temp_media_anual row) MAX_TEMP_C = true).
Proof.
  intros Hrun row Hrow.
  destruct (run_published args shapefile files df tr Hrun row Hrow)
    as [->|(q & -> & H1 & H2)]; [now left|].
  right. simpl. rewrite !Qle_bool_iff. auto.
Qed.

Lemma run_values_within_bounds_witness :
  exists tr,
    run Ex.no_args [Ex.whole_band] Ex.c1_files = (inr [{| codigo_ibge := "3550308"; municipio := "São Paulo";
           estado := "SP"; temp_media_anual := Fin (275 # 11) |}], tr) /\
    (isnan (Fin (275 # 11)) = true \/
     (isfinite (Fin (275 # 11)) = true /\
      fle MIN_TEMP_C (Fin (275 # 11)) = true /\
      fle (Fin (275 # 11)) MAX_TEMP_C = true)).
Proof.
  eexists. split; [vm_compute; reflexivity|].
  match goal with
  | |- _ \/ _ =>
      assert (H : exists tr,
                 run Ex.no_args [Ex.whole_band] Ex.c1_files = (inr [{| codigo_ibge := "3550308"; municipio := "São Paulo";
           estado := "SP"; temp_media_anual := Fin (275 # 11) |}], tr))
        by (eexists; vm_compute; reflexivity)
  end.
  destruct H as [tr H].
  exact (run_values_within_bounds _ _ _ _ _ H _ (or_introl eq_refl)).
Defined.

Lemma loop_events_counts (ms : list Municipio) (rasters : list string) :
  zonal_calls (loop_events ms rasters) = length rasters /\
  csv_writes (loop_events ms rasters) = [].
Proof.
  unfold zonal_calls, csv_writes, loop_events.
  induction rasters as [|r rasters [IH1 IH2]]; simpl; auto.
Qed.

(** X8. A completed run calls [zonal_stats] once per selected raster,
    twelve times for a full year and once with [--mes], and writes one file
    only: the CSV [OUTPUT], holding the table it returns, as the last thing
    it does. *)
Theorem run_work_done
  (args : Args) (shapefile : list Municipio) (files : FileSystem)
  (df : DataFrame) (tr : list event) :
  run args shapefile files = (inr df, tr) ->
  zonal_calls tr = match mes args with None => 12%nat | Some _ => 1%nat end /\
  csv_writes tr = [(OUTPUT, df)] /\
  exists tr', tr = (tr' ++ [EvToCsv OUTPUT df])%list.
Proof.
  intros Hrun.
  destruct (run_inr_shape args shapefile files df tr Hrun)
    as (rasters & _ & _ & Hlen & _ & Htr).
  destruct (loop_events_counts (selected_municipios args shapefile) rasters)
    as [Hz Hc].
  rewrite Htr. split; [|split].
  - unfold zonal_calls in *. simpl. rewrite filter_app, length_app, Hz.
    simpl. lia.
  - unfold csv_writes in *. simpl. rewrite flat_map_app, Hc. reflexivity.
  - eexists (_ :: _). reflexivity.
Qed.

Lemma run_work_done_witness :
  exists tr,
    run Ex.no_args [Ex.whole_band] Ex.c1_files = (inr [{| codigo_ibge := "3550308"; municipio := "São Paulo";
           estado := "SP"; temp_media_anual := Fin (275 # 11) |}], tr) /\
    zonal_calls tr = 12%nat /\
    csv_writes tr = [(OUTPUT, [{| codigo_ibge := "3550308"; municipio := "São Paulo";
           estado := "SP"; temp_media_anual := Fin (275 # 11) |}])].
Proof.
  eexists. split; [vm_compute; reflexivity|].
  match goal with
  | |- zonal_calls ?t = _ /\ _ =>
      assert (H : run Ex.no_args [Ex.whole_band] Ex.c1_files = (inr [{| codigo_ibge := "3550308"; municipio := "São Paulo";
           estado := "SP"; temp_media_anual := Fin (275 # 11) |}], t))
        by (vm_compute; reflexivity)
  end.
  destruct (run_work_done _ _ _ _ _ H) as (H1 & H2 & _).
  split; [exact H1 | exact H2].
Defined.

(** ** Test modes: [--limite] and [--mes] *)

Lemma firstn_seq0 (k n : nat) : firstn k (seq 0 n) = seq 0 (Nat.min k n).
Proof.
  generalize 0%nat as start. revert n.
  induction k as [|k IH]; intros [|n] start; simpl; try reflexivity.
  now rewrite IH.
Qed.

Lemma nanmean_axis0_firstn (k : nat) (table : list (list pyfloat)) :
  table <> [] ->
  Np.nanmean_axis0 (map (firstn k) table) = firstn k (Np.nanmean_axis0 table).
Proof.
  intros Hne. destruct table as [|row0 table]; [congruence|].
  unfold Np.nanmean_axis0. simpl map at 1.
  rewrite firstn_map, firstn_seq0, length_firstn.
  apply map_ext_in. intros i Hi. apply in_seq in Hi.
  f_equal. change (firstn k row0 :: map (firstn k) table)
    with (map (firstn k) (row0 :: table)).
  rewrite map_map. apply map_ext. intros row.
  rewrite nth_firstn.
  destruct (i <? k)%nat eqn:E; [reflexivity|].
  apply Nat.ltb_ge in E. lia.
Qed.

Lemma make_df_firstn (k : nat) (ms : list Municipio) (temps : list pyfloat) :
  make_df (firstn k ms) (firstn k temps) = firstn k (make_df ms temps).
Proof.
  unfold make_df. now rewrite firstn_map, combine_firstn.
Qed.

Lemma zs_of_firstn (k : nat) (ms : list Municipio) (files : FileSystem)
  (r : string) :
  zs_of (firstn k ms) files r = firstn k (zs_of ms files r).
Proof. unfold zs_of, zonal_stats. now rewrite firstn_map. Qed.

(** X9. [--limite N] is a faithful test mode: when the run over the whole
    shapefile completes, the run limited to the first N polygons completes
    too and writes exactly the first N rows of the full table; the value of a
    polygon does not depend on which other polygons are processed. *)
Theorem limite_gives_a_prefix
  (args : Args) (shapefile : list Municipio) (files : FileSystem)
  (n : Z) (df : DataFrame) (tr : list event) :
  limite args = None ->
  (0 < n)%Z ->
  run args shapefile files = (inr df, tr) ->
  fst (run (set_limite args (Some n)) shapefile files) =
  inr (firstn (Z.to_nat n) df).
Proof.
  intros Hnone Hn Hrun.
  destruct (run_inr_shape args shapefile files df tr Hrun)
    as (rasters & Hs & Hne & _ & Hdf & _).
  unfold selected_municipios in Hdf. rewrite Hnone in Hdf.
  assert (Hm' : load_municipios (set_limite args (Some n)) shapefile [] =
                (inr (firstn (Z.to_nat n) shapefile), [])).
  { unfold load_municipios. simpl.
    destruct (n <=? 0)%Z eqn:E; [apply Z.leb_le in E; lia | reflexivity]. }
  assert (Hs' : select_rasters (set_limite args (Some n)) files [] =
                (inr rasters, [])) by exact Hs.
  rewrite (run_ok _ shapefile files _ rasters Hm' Hs'). simpl fst.
  f_equal. rewrite Hdf, <- make_df_firstn. f_equal.
  rewrite <- nanmean_axis0_firstn by (destruct rasters; [congruence|discriminate]).
  f_equal. rewrite map_map. apply map_ext. intros r.
  rewrite zs_of_firstn. unfold linha. simpl escala.
  now rewrite firstn_map.
Qed.

Lemma limite_gives_a_prefix_witness :
  exists df tr,
    limite Ex.no_args = None /\ (0 < 1)%Z /\
    run Ex.no_args [Ex.whole_band; Ex.half_band] Ex.c1_files = (inr df, tr) /\
    fst (run (set_limite Ex.no_args (Some 1%Z)) [Ex.whole_band; Ex.half_band]
             Ex.c1_files) = inr (firstn (Z.to_nat 1) df).
Proof.
  eexists. eexists. split; [reflexivity|]. split; [lia|].
  split; [vm_compute; reflexivity|].
  match goal with
  | |- _ = inr (firstn _ ?d) =>
      assert (H : exists tr,
                 run Ex.no_args [Ex.whole_band; Ex.half_band] Ex.c1_files =
                 (inr d, tr))
        by (eexists; vm_compute; reflexivity)
  end.
  destruct H as [tr H].
  exact (limite_gives_a_prefix Ex.no_args _ _ 1%Z _ _ eq_refl eq_refl H).
Defined.

Lemma nanmean_single (x : pyfloat) : fsame (Np.nanmean [x]) x.
Proof.
  destruct x as [q| | |]; try reflexivity.
  unfold Np.nanmean, Np.sum, of_nat. simpl. field.
Qed.

(** X10. With [--mes], the column named [temp_media_anual] holds that one
    month and not an annual mean: the run processes the single raster
    selected for the month, and the value written for each polygon is the
    scaled and filtered zonal mean of that raster (NaN when the polygon has
    no valid cell or the value is implausible). *)
Theorem mes_gives_that_month
  (args : Args) (shapefile : list Municipio) (files : FileSystem)
  (m : nat) (df : DataFrame) (tr : list event) :
  mes args = Some m ->
  run args shapefile files = (inr df, tr) ->
  exists path,
    _pick_raster_for_month (Str.sorted (map fst files)) m = inr [path] /\
    zonal_calls tr = 1%nat /\
    forall i row,
      nth_error df i = Some row ->
      exists mi,
        nth_error (selected_municipios args shapefile) i = Some mi /\
        codigo_ibge row = CD_MUN mi /\
        fsame (temp_media_anual row)
              (month_value (scale_of_run (escala args) files [path])
                 (zonal_mean (geometry mi) (data (raster_of files path))
                             (nodata (raster_of files path)))).
Proof.
  intros Hmes Hrun.
  destruct (run_inr_shape args shapefile files df tr Hrun)
    as (rasters & Hs & Hne & Hlen & Hdf & Htr).
  rewrite Hmes in Hlen.
  destruct rasters as [|path [|? ?]]; try discriminate. clear Hlen Hne.
  exists path. split; [|split].
  - unfold select_rasters, lift, raise in Hs. rewrite Hmes in Hs.
    destruct (length (Str.sorted (map fst files)) =? 0)%nat; [discriminate|].
    now injection Hs.
  - destruct (run_work_done args shapefile files df tr Hrun) as [Hz _].
    now rewrite Hmes in Hz.
  - intros i row Hrow.
    set (ms := selected_municipios args shapefile) in *.
    set (s := scale_of_run (escala args) files [path]) in *.
    simpl map in Hdf.
    assert (Hw : length (Np.nanmean_axis0 [linha s (zs_of ms files path)]) =
                 length ms).
    { apply (run_table_width ms files s [path]). discriminate. }
    assert (Hi : (i < length ms)%nat).
    { destruct (make_df_columns ms _ Hw) as (H1 & _).
      assert (Hl : (i < length df)%nat) by (apply nth_error_Some; congruence).
      rewrite Hdf, <- (length_map codigo_ibge), H1, length_map in Hl.
      exact Hl. }
    destruct (nth_error ms i) as [mi|] eqn:Emi;
      [|apply nth_error_None in Emi; lia].
    exists mi. split; [reflexivity|].
    rewrite Hdf, (make_df_nth_error ms _ i mi Emi Hw) in Hrow.
    injection Hrow as <-. cbn [temp_media_anual codigo_ibge].
    split; [reflexivity|].
    match goal with
    | |- fsame ?a _ =>
        change a with (nth i (Np.nanmean_axis0 [linha s (zs_of ms files path)]) NaN)
    end.
    rewrite nanmean_axis0_nth
      by (simpl; now rewrite linha_length, zs_of_length).
    simpl map.
    eapply fsame_trans; [apply nanmean_single|].
    erewrite nth_error_nth; [apply fsame_refl|].
    rewrite linha_nth_error, (zs_of_nth_error ms files path i mi Emi).
    reflexivity.
Qed.

Lemma mes_gives_that_month_witness :
  exists df tr,
    mes Ex.x_args_dec = Some 12%nat /\
    run Ex.x_args_dec [Ex.whole_band] Ex.c1_files = (inr df, tr) /\
    exists path,
      _pick_raster_for_month (Str.sorted (map fst Ex.c1_files)) 12 = inr [path] /\
      zonal_calls tr = 1%nat.
Proof.
  eexists. eexists. split; [reflexivity|].
  split; [vm_compute; reflexivity|].
  match goal with
  | |- exists path, _ /\ zonal_calls ?t = _ =>
      assert (H : exists df,
                 run Ex.x_args_dec [Ex.whole_band] Ex.c1_files = (inr df, t))
        by (eexists; vm_compute; reflexivity)
  end.
  destruct H as [df H].
  destruct (mes_gives_that_month Ex.x_args_dec _ _ 12 _ _ eq_refl H)
    as (path & Hp & Hz & _).
  exists path. split; [exact Hp | exact Hz].
Defined.

(** ** Scale detection and its diagnostics *)

Lemma valid_mask_map (data : Np.ndarray) (nodata : option pyfloat) :
  valid_mask data nodata = map (map (cell_valid nodata)) data.
Proof.
  unfold valid_mask, cell_valid, Np.isfinite_arr, Np.ne_scalar.
  destruct nodata as [nd|].
  - apply and_mask_map.
  - apply map_ext. intros row. apply map_ext. intros x.
    now rewrite andb_true_r.
Qed.

Lemma count_filter_map {A} (f : A -> bool) (l : list A) :
  length (filter (fun b : bool => b) (map f l)) = length (filter f l).
Proof.
  induction l as [|a l IH]; simpl; [reflexivity|].
  destruct (f a); simpl; now rewrite IH.
Qed.

Lemma count_valid_mask (data : Np.ndarray) (nodata : option pyfloat) :
  Np.count (valid_mask data nodata) = length (valid_values data nodata).
Proof.
  unfold Np.count, valid_values.
  rewrite valid_mask_map, <- concat_map. apply count_filter_map.
Qed.

Lemma filter_length_le {A} (f : A -> bool) (l : list A) :
  (length (filter f l) <= length l)%nat.
Proof.
  induction l as [|a l IH]; simpl; [lia|]. destruct (f a); simpl; lia.
Qed.

(** X11. The figures printed under [--debug] are sound and agree with the
    factor chosen: [valid_pixels] counts the finite cells different from
    nodata and never exceeds the number of cells; with no valid cell the
    minimum and maximum are NaN and the factor is 1.0; otherwise they are
    valid cells that bound every valid cell, and the factor is 0.1 exactly
    when the printed maximum exceeds 80. *)
Theorem debug_diagnostics_sound (data : Np.ndarray) (nodata : option pyfloat) :
  let d := debug_diagnostics data nodata in
  let valid := valid_values data nodata in
  valid_pixels d = length valid /\
  total_pixels d = length (concat data) /\
  (valid_pixels d <= total_pixels d)%nat /\
  (valid_pixels d = 0%nat ->
   vmin d = NaN /\ vmax d = NaN /\
   _detect_scale_from_array data nodata = Fin 1) /\
  ((0 < valid_pixels d)%nat ->
   In (vmin d) valid /\ In (vmax d) valid /\
   (forall x, In x valid -> fle (vmin d) x = true /\ fle x (vmax d) = true) /\
   _detect_scale_from_array data nodata =
   if fgt (vmax d) (Fin 80) then Fin (1 # 10) else Fin 1).
Proof.
  intros d valid.
  assert (Hc : Np.count (valid_mask data nodata) = length valid)
    by apply count_valid_mask.
  assert (Hvp : valid_pixels d = length valid).
  { subst d. unfold debug_diagnostics.
    destruct (0 <? Np.count (valid_mask data nodata))%nat; exact Hc. }
  assert (Htp : total_pixels d = length (concat data)).
  { subst d. unfold debug_diagnostics.
    now destruct (0 <? Np.count (valid_mask data nodata))%nat. }
  split; [exact Hvp|]. split; [exact Htp|]. split; [|split].
  - rewrite Hvp, Htp. apply filter_length_le.
  - intros H0. rewrite Hvp in H0.
    assert (Hnil : valid = []) by (destruct valid; [reflexivity|discriminate]).
    subst d. unfold debug_diagnostics. rewrite Hc, Hnil. simpl.
    repeat split. rewrite detect_scale_by_max. fold valid. now rewrite Hnil.
  - intros Hpos. rewrite Hvp in Hpos.
    assert (Hne : valid <> []) by (intros E; rewrite E in Hpos; simpl in Hpos; lia).
    destruct (max_spec valid (valid_values_no_nan data nodata) Hne)
      as (hi & Hmax & _ & Hhi_in & Hhi).
    destruct (min_spec valid (valid_values_no_nan data nodata) Hne)
      as (lo & Hmin & _ & Hlo_in & Hlo).
    assert (Hd : vmin d = lo /\ vmax d = hi).
    { subst d. unfold debug_diagnostics. rewrite Hc.
      apply Nat.ltb_lt in Hpos. rewrite Hpos. simpl.
      rewrite select_valid_mask. fold valid. now rewrite Hmin, Hmax. }
    destruct Hd as [-> ->].
    split; [exact Hlo_in|]. split; [exact Hhi_in|]. split.
    + intros x Hx. split; [now apply Hlo | now apply Hhi].
    + rewrite detect_scale_by_max. fold valid. now rewrite Hmax.
Qed.

Lemma debug_diagnostics_sound_witness :
  (0 < valid_pixels (debug_diagnostics Ex.c5_data (Some (Fin (-9999)))))%nat /\
  vmax (debug_diagnostics Ex.c5_data (Some (Fin (-9999)))) = Fin 75 /\
  _detect_scale_from_array Ex.c5_data (Some (Fin (-9999))) =
  if fgt (vmax (debug_diagnostics Ex.c5_data (Some (Fin (-9999))))) (Fin 80)
  then Fin (1 # 10) else Fin 1.
Proof.
  assert (H : (0 < valid_pixels
                     (debug_diagnostics Ex.c5_data (Some (Fin (-9999)))))%nat)
    by (vm_compute; lia).
  split; [exact H|]. split; [reflexivity|].
  destruct (debug_diagnostics_sound Ex.c5_data (Some (Fin (-9999))))
    as (_ & _ & _ & _ & Hpos).
  destruct (Hpos H) as (_ & _ & _ & Hd). exact Hd.
Defined.

Lemma feq_nan_r (x : pyfloat) : feq x NaN = false.
Proof. now destruct x. Qed.

(** X12. The factor depends on the valid values of the band only, not on
    their layout nor on the cells left out: two bands whose valid values
    are the same up to order get the same factor.  In particular a nodata
    value that is itself NaN excludes nothing more than the non-finite
    cells, and the factor is the one detected without nodata. *)
Theorem detect_scale_depends_on_valid_values
  (data1 data2 : Np.ndarray) (nodata1 nodata2 : option pyfloat) :
  (Permutation (valid_values data1 nodata1) (valid_values data2 nodata2) ->
   _detect_scale_from_array data1 nodata1 =
   _detect_scale_from_array data2 nodata2) /\
  valid_values data1 (Some NaN) = valid_values data1 None /\
  _detect_scale_from_array data1 (Some NaN) =
  _detect_scale_from_array data1 None.
Proof.
  assert (Hnan : valid_values data1 (Some NaN) = valid_values data1 None).
  { unfold valid_values. apply filter_ext. intros x.
    unfold cell_valid, fne. now rewrite feq_nan_r. }
  split; [|split; [exact Hnan|]].
  - intros Hperm. rewrite !detect_scale_by_max.
    set (l1 := valid_values data1 nodata1) in *.
    set (l2 := valid_values data2 nodata2) in *.
    assert (Hcase : l1 = [] \/ l1 <> [])
      by (destruct l1; [now left | right; discriminate]).
    destruct Hcase as [E|Hne1].
    { rewrite E in *. apply Permutation_nil in Hperm. now rewrite Hperm. }
    assert (Hne2 : l2 <> []).
    { intros E. rewrite E in Hperm.
      apply Permutation_sym, Permutation_nil in Hperm. contradiction. }
    destruct (max_spec l1 (valid_values_no_nan data1 nodata1) Hne1)
      as (m1 & -> & _ & Hin1 & Hub1).
    destruct (max_spec l2 (valid_values_no_nan data2 nodata2) Hne2)
      as (m2 & -> & _ & Hin2 & Hub2).
    unfold fgt. rewrite (flt_equal_bounds (Fin 80) m1 m2); [reflexivity| |].
    + apply Hub2. eapply Permutation_in; [exact Hperm | exact Hin1].
    + apply Hub1.
      eapply Permutation_in; [apply Permutation_sym, Hperm | exact Hin2].
  - rewrite !detect_scale_by_max. now rewrite Hnan.
Qed.

Lemma detect_scale_depends_on_valid_values_witness :
  Permutation (valid_values Ex.c5_data (Some (Fin (-9999))))
              (valid_values Ex.x_data_row (Some (Fin (-9999)))) /\
  _detect_scale_from_array Ex.c5_data (Some (Fin (-9999))) =
  _detect_scale_from_array Ex.x_data_row (Some (Fin (-9999))).
Proof.
  assert (H : Permutation (valid_values Ex.c5_data (Some (Fin (-9999))))
                          (valid_values Ex.x_data_row (Some (Fin (-9999))))).
  { vm_compute.
    apply (Permutation_cons_app [Fin 12] [Fin 20.5] (Fin 75)).
    simpl. apply perm_swap. }
  split; [exact H|].
  exact (proj1 (detect_scale_depends_on_valid_values
                  Ex.c5_data Ex.x_data_row _ _) H).
Defined.

(** ** The base table of [stats.py] *)

Lemma combine_seq_In {A} (l : list A) : forall start i x,
  In (i, x) (combine (seq start (length l)) l) <->
  (start <= i)%nat /\ nth_error l (i - start) = Some x.
Proof.
  induction l as [|a l IH]; intros start i x; simpl.
  - split; [intros [] | intros [_ H]; destruct (i - start)%nat; discriminate].
  - rewrite IH. split.
    + intros [[= <- <-]|[Hle Hn]].
      * split; [lia|]. now rewrite Nat.sub_diag.
      * split; [lia|].
        replace (i - start)%nat with (S (i - S start)) by lia. exact Hn.
    + intros [Hle Hn].
      destruct (Nat.eq_dec i start) as [->|Hne].
      * left. rewrite Nat.sub_diag in Hn. simpl in Hn. now injection Hn as ->.
      * right. split; [lia|].
        replace (i - start)%nat with (S (i - S start)) in Hn by lia. exact Hn.
Qed.

(** X13. The base table of every statistic holds exactly the CSV rows
    whose value is not missing, each under the number of its row in the CSV
    and in the order of the CSV; the rows dropped are the missing ones and no
    others. *)
Theorem base_rows_are_the_present_rows (csv : DataFrame) :
  (forall i row,
      In (i, row) (base csv) <->
      nth_error csv i = Some row /\ isnan (temp_media_anual row) = false) /\
  StronglySorted by_label (base csv) /\
  (length (base csv) + length (filter (fun r => isnan (temp_media_anual r)) csv)
   = length csv)%nat.
Proof.
  split; [|split].
  - intros i row. unfold base, dropna, read_csv, enumerate.
    rewrite filter_In, combine_seq_In, Nat.sub_0_r. unfold value. simpl.
    rewrite negb_true_iff. split.
    + intros [[_ H1] H2]. auto.
    + intros [H1 H2]. repeat split; auto. lia.
  - apply base_by_label.
  - unfold base, dropna, read_csv, enumerate, value.
    generalize 0%nat as start.
    induction csv as [|r csv IH]; intros start; simpl; [reflexivity|].
    specialize (IH (S start)).
    destruct (isnan (temp_media_anual r)); simpl; lia.
Qed.

Lemma base_rows_are_the_present_rows_witness :
  nth_error Ex.x_csv_states 4 =
    Some {| codigo_ibge := "5"; municipio := "E"; estado := "AM";
            temp_media_anual := Fin 26 |} /\
  In (4%nat, {| codigo_ibge := "5"; municipio := "E"; estado := "AM";
                temp_media_anual := Fin 26 |}) (base Ex.x_csv_states).
Proof.
  split; [reflexivity|].
  apply (proj1 (base_rows_are_the_present_rows Ex.x_csv_states)).
  split; reflexivity.
Defined.

(** ** Mean per state *)







(** ** Quartiles *)

Lemma quantile_unfold (q : Q) (values : list pyfloat) :
  sort_floats values <> [] ->
  let s := sort_floats values in
  let n := length s in
  quantile q values =
  fadd (nth (q_lo q n) s NaN)
       (fmul (fsub (nth (q_hi q n) s NaN) (nth (q_lo q n) s NaN))
             (Fin (q_frac q n))).
Proof.
  intros Hne. cbv zeta. unfold quantile.
  destruct (sort_floats values) as [|x s'] eqn:E; [congruence|]. reflexivity.
Qed.

Lemma Qmult_le_compat_l_nonneg (c a b : Q) :
  (0 <= c)%Q -> (a <= b)%Q -> (c * a <= c * b)%Q.
Proof.
  intros Hc Hab. rewrite (Qmult_comm c a), (Qmult_comm c b).
  now apply Qmult_le_compat_r.
Qed.

Lemma q_pos_mono (q q' : Q) (n : nat) :
  (q <= q')%Q -> (q_pos q n <= q_pos q' n)%Q.
Proof.
  intros H. unfold q_pos. apply Qmult_le_compat_l_nonneg; [|exact H].
  change 0%Q with (inject_Z 0). rewrite <- Zle_Qle. lia.
Qed.

Lemma q_pos_bounds (q : Q) (n : nat) :
  (0 <= q)%Q -> (q <= 1)%Q ->
  (0 <= q_pos q n)%Q /\ (q_pos q n <= inject_Z (Z.of_nat (n - 1)))%Q.
Proof.
  intros H0 H1. split.
  - assert (E : (q_pos 0 n == 0)%Q) by (unfold q_pos; ring).
    rewrite <- E. now apply q_pos_mono.
  - assert (E : (q_pos 1 n == inject_Z (Z.of_nat (n - 1)))%Q)
      by (unfold q_pos; ring).
    rewrite <- E. now apply q_pos_mono.
Qed.

Lemma q_floor_bounds (q : Q) (n : nat) :
  (0 <= q)%Q -> (q <= 1)%Q ->
  (0 <= Qfloor (q_pos q n) <= Z.of_nat (n - 1))%Z.
Proof.
  intros H0 H1. destruct (q_pos_bounds q n H0 H1) as [Ha Hb]. split.
  - apply Qfloor_resp_le in Ha. exact Ha.
  - apply Qfloor_resp_le in Hb. now rewrite Qfloor_Z in Hb.
Qed.

Lemma q_index_bounds (q : Q) (n : nat) :
  (0 <= q)%Q -> (q <= 1)%Q -> (1 <= n)%nat ->
  (q_lo q n <= q_hi q n)%nat /\ (q_hi q n < n)%nat /\
  (0 <= q_frac q n)%Q /\ (q_frac q n <= 1)%Q.
Proof.
  intros H0 H1 Hn. pose proof (q_floor_bounds q n H0 H1) as Hz.
  unfold q_hi, q_lo, q_frac.
  split; [lia|]. split; [lia|].
  pose proof (Qfloor_le (q_pos q n)) as Hle.
  pose proof (Qlt_floor (q_pos q n)) as Hlt.
  rewrite inject_Z_plus in Hlt. change (inject_Z 1) with 1%Q in Hlt.
  split; lra.
Qed.

Lemma q_lo_mono (q q' : Q) (n : nat) :
  (0 <= q)%Q -> (q <= q')%Q -> (q' <= 1)%Q ->
  (q_lo q n <= q_lo q' n)%nat /\
  (q_lo q n = q_lo q' n -> (q_frac q n <= q_frac q' n)%Q).
Proof.
  intros H0 Hqq H1.
  assert (Hq1 : (q <= 1)%Q) by lra. assert (Hq0 : (0 <= q')%Q) by lra.
  pose proof (q_floor_bounds q n H0 Hq1) as Hz.
  pose proof (q_floor_bounds q' n Hq0 H1) as Hz'.
  pose proof (Qfloor_resp_le _ _ (q_pos_mono q q' n Hqq)) as Hf.
  unfold q_lo, q_frac. split; [lia|].
  intros E. assert (Ez : Qfloor (q_pos q n) = Qfloor (q_pos q' n)) by lia.
  rewrite Ez. pose proof (q_pos_mono q q' n Hqq). lra.
Qed.

Lemma insert_value_perm (x : pyfloat) (l : list pyfloat) :
  Permutation (x :: l) (insert_value x l).
Proof.
  induction l as [|y l IH]; simpl; [reflexivity|].
  destruct (fle x y); [reflexivity|].
  rewrite perm_swap. now constructor.
Qed.

Lemma sort_floats_perm (l : list pyfloat) : Permutation l (sort_floats l).
Proof.
  induction l as [|x l IH]; simpl; [constructor|].
  rewrite <- insert_value_perm. now constructor.
Qed.

Lemma insert_value_sorted (x : pyfloat) (l : list pyfloat) :
  isnan x = false -> (forall y, In y l -> isnan y = false) ->
  StronglySorted fle_prop l -> StronglySorted fle_prop (insert_value x l).
Proof.
  intros Hx Hl Hs. induction Hs as [|y l Hs IH Hall]; simpl.
  - repeat constructor.
  - destruct (fle x y) eqn:E.
    + constructor; [now constructor|].
      constructor; [exact E|].
      apply Forall_forall. intros z Hz. unfold fle_prop.
      eapply fle_trans; [exact E|].
      apply (proj1 (Forall_forall _ _) Hall z Hz).
    + constructor; [apply IH; intros z Hz; apply Hl; now right|].
      apply Forall_forall. intros z Hz.
      apply (Permutation_in _ (Permutation_sym (insert_value_perm x l))) in Hz.
      destruct Hz as [<-|Hz].
      * destruct (fle_total x y Hx (Hl y (or_introl eq_refl))) as [H|H];
          [congruence | exact H].
      * apply (proj1 (Forall_forall _ _) Hall z Hz).
Qed.

Lemma sort_floats_sorted (l : list pyfloat) :
  (forall y, In y l -> isnan y = false) ->
  StronglySorted fle_prop (sort_floats l).
Proof.
  induction l as [|x l IH]; intros Hl; simpl; [constructor|].
  apply insert_value_sorted.
  - apply Hl. now left.
  - intros y Hy. apply Hl. right.
    eapply Permutation_in; [apply Permutation_sym, sort_floats_perm | exact Hy].
  - apply IH. intros y Hy. apply Hl. now right.
Qed.

Lemma sorted_nth_le (s : list pyfloat) (i j : nat) :
  StronglySorted fle_prop s -> (forall y, In y s -> isnan y = false) ->
  (i <= j)%nat -> (j < length s)%nat ->
  fle (nth i s NaN) (nth j s NaN) = true.
Proof.
  intros Hs Hn Hij Hj.
  destruct (Nat.eq_dec i j) as [->|Hne].
  - apply fle_refl, Hn, nth_In, Hj.
  - apply (StronglySorted_nth fle_prop s Hs i j); [lia| |];
      apply nth_error_nth'; lia.
Qed.

(** The value [quantile] returns on finite data, between its two
    neighbours. *)
Lemma quantile_finite (q : Q) (values : list pyfloat) :
  values <> [] -> (forall x, In x values -> isfinite x = true) ->
  (0 <= q)%Q -> (q <= 1)%Q ->
  let s := sort_floats values in
  let n := length s in
  exists a b,
    nth (q_lo q n) s NaN = Fin a /\ nth (q_hi q n) s NaN = Fin b /\
    In (Fin a) values /\ In (Fin b) values /\
    (a <= b)%Q /\
    quantile q values = Fin (a + (b + - a) * q_frac q n).
Proof.
  intros Hne Hfin H0 H1 s n.
  assert (Hperm : Permutation values s) by apply sort_floats_perm.
  assert (Hlen : length values = n) by (apply Permutation_length, Hperm).
  assert (Hn : (1 <= n)%nat) by (destruct values; [congruence | simpl in Hlen; lia]).
  assert (Hsne : s <> []) by (intros E; subst n; rewrite E in Hn; simpl in Hn; lia).
  assert (Hsfin : forall x, In x s -> isfinite x = true).
  { intros x Hx. apply Hfin.
    eapply Permutation_in; [apply Permutation_sym, Hperm | exact Hx]. }
  assert (Hsn : forall x, In x s -> isnan x = false)
    by (intros x Hx; apply finite_not_nan; auto).
  destruct (q_index_bounds q n H0 H1 Hn) as (Hlh & Hh & _).
  assert (Hin_lo : In (nth (q_lo q n) s NaN) s) by (apply nth_In; lia).
  assert (Hin_hi : In (nth (q_hi q n) s NaN) s) by (apply nth_In; lia).
  pose proof (sorted_nth_le s (q_lo q n) (q_hi q n)
                (sort_floats_sorted values
                   (fun y Hy => finite_not_nan y (Hfin y Hy)))
                Hsn Hlh Hh) as Hle.
  pose proof (quantile_unfold q values Hsne) as Hq. cbv zeta in Hq.
  fold s in Hq. fold n in Hq.
  pose proof (Hsfin _ Hin_lo) as Fa. pose proof (Hsfin _ Hin_hi) as Fb.
  destruct (nth (q_lo q n) s NaN) as [a| | |] eqn:Ea; try discriminate.
  destruct (nth (q_hi q n) s NaN) as [b| | |] eqn:Eb; try discriminate.
  exists a, b.
  split; [reflexivity|]. split; [reflexivity|].
  split; [eapply Permutation_in; [apply Permutation_sym, Hperm | exact Hin_lo]|].
  split; [eapply Permutation_in; [apply Permutation_sym, Hperm | exact Hin_hi]|].
  split; [simpl in Hle; now apply Qle_bool_iff in Hle|].
  rewrite Hq. reflexivity.
Qed.

Lemma quantile_mono (q q' : Q) (values : list pyfloat) :
  values <> [] -> (forall x, In x values -> isfinite x = true) ->
  (0 <= q)%Q -> (q <= q')%Q -> (q' <= 1)%Q ->
  exists a v v' b',
    quantile q values = Fin v /\ quantile q' values = Fin v' /\
    In (Fin a) values /\ In (Fin b') values /\
    (a <= v)%Q /\ (v <= v')%Q /\ (v' <= b')%Q.
Proof.
  intros Hne Hfin H0 Hqq H1.
  assert (Hq1 : (q <= 1)%Q) by lra. assert (Hq0 : (0 <= q')%Q) by lra.
  set (s := sort_floats values). set (n := length s).
  destruct (quantile_finite q values Hne Hfin H0 Hq1)
    as (a & b & Ea & Eb & Ha & Hb & Hab & Hv).
  destruct (quantile_finite q' values Hne Hfin Hq0 H1)
    as (a' & b' & Ea' & Eb' & Ha' & Hb' & Hab' & Hv').
  fold s in Ea, Eb, Ea', Eb', Hv, Hv'. fold n in Ea, Eb, Ea', Eb', Hv, Hv'.
  assert (Hperm : Permutation values s) by apply sort_floats_perm.
  assert (Hn : (1 <= n)%nat).
  { subst n. rewrite <- (Permutation_length Hperm).
    destruct values; [congruence | simpl; lia]. }
  destruct (q_index_bounds q n H0 Hq1 Hn) as (Hlh & Hh & Hf0 & Hf1).
  destruct (q_index_bounds q' n Hq0 H1 Hn) as (Hlh' & Hh' & Hf0' & Hf1').
  destruct (q_lo_mono q q' n H0 Hqq H1) as [Hlo Hfrac].
  assert (Hsn : forall x, In x s -> isnan x = false).
  { intros x Hx. apply finite_not_nan, Hfin.
    eapply Permutation_in; [apply Permutation_sym, Hperm | exact Hx]. }
  assert (Hsorted : StronglySorted fle_prop s).
  { apply sort_floats_sorted. intros y Hy. now apply finite_not_nan, Hfin. }
  set (f := q_frac q n) in *. set (f' := q_frac q' n) in *.
  assert (P1 : (0 <= (b + - a) * f)%Q) by (apply Qmult_le_0_compat; lra).
  assert (P2 : (0 <= (b + - a) * (1 - f))%Q) by (apply Qmult_le_0_compat; lra).
  assert (P1' : (0 <= (b' + - a') * f')%Q) by (apply Qmult_le_0_compat; lra).
  assert (P2' : (0 <= (b' + - a') * (1 - f'))%Q)
    by (apply Qmult_le_0_compat; lra).
  exists a, (a + (b + - a) * f)%Q, (a' + (b' + - a') * f')%Q, b'.
  split; [exact Hv|]. split; [exact Hv'|].
  split; [exact Ha|]. split; [exact Hb'|].
  split; [lra|]. split; [|lra].
  destruct (Nat.eq_dec (q_lo q n) (q_lo q' n)) as [E|E].
  - assert (Eh : q_hi q n = q_hi q' n) by (unfold q_hi; now rewrite E).
    rewrite E, Ea' in Ea. rewrite Eh, Eb' in Eb.
    injection Ea as <-. injection Eb as <-.
    specialize (Hfrac E). fold f f' in Hfrac.
    assert (P3 : (0 <= (b' + - a') * (f' - f))%Q)
      by (apply Qmult_le_0_compat; lra).
    lra.
  - assert (Hhl : (q_hi q n <= q_lo q' n)%nat) by (unfold q_hi; lia).
    pose proof (sorted_nth_le s (q_hi q n) (q_lo q' n) Hsorted Hsn Hhl
                  ltac:(lia)) as Hle.
    rewrite Eb, Ea' in Hle. simpl in Hle. apply Qle_bool_iff in Hle.
    lra.
Qed.

(** X15. On finite data the first quartile is at most the third, both lie
    between two records of the table, and the outlier bounds enclose them:
    [lim_inf <= Q1 <= Q3 <= lim_sup].  Hence a record whose value lies
    between the quartiles is never reported as an outlier. *)
Theorem quartiles_enclosed (df : Frame) :
  df <> [] -> (forall r, In r df -> isfinite (value r) = true) ->
  (exists lo hi,
      In lo df /\ In hi df /\
      fle (value lo) (q1 df) = true /\ fle (q3 df) (value hi) = true) /\
  fle (q1 df) (q3 df) = true /\
  fle (lim_inf df) (q1 df) = true /\
  fle (q3 df) (lim_sup df) = true /\
  (forall r, fle (q1 df) (value r) = true -> fle (value r) (q3 df) = true ->
             is_outlier df r = false).
Proof.
  intros Hne Hfin.
  assert (Hvne : map value df <> []) by (destruct df; [congruence|discriminate]).
  assert (Hvfin : forall x, In x (map value df) -> isfinite x = true)
    by (intros x (r & <- & Hr)%in_map_iff; auto).
  destruct (quantile_mono (1 # 4) (3 # 4) (map value df) Hvne Hvfin)
    as (a & v & v' & b' & Hv & Hv' & Ha & Hb' & Hav & Hvv & Hvb);
    try (unfold Qle; simpl; lia).
  assert (Hq1 : q1 df = Fin v) by exact Hv.
  assert (Hq3 : q3 df = Fin v') by exact Hv'.
  assert (Hlow : fle (lim_inf df) (q1 df) = true).
  { unfold lim_inf, iqr. rewrite Hq1, Hq3. simpl. apply Qle_bool_iff.
    assert (P : (0 <= 1.5 * (v' + - v))%Q) by (apply Qmult_le_0_compat; lra).
    lra. }
  assert (Hhigh : fle (q3 df) (lim_sup df) = true).
  { unfold lim_sup, iqr. rewrite Hq1, Hq3. simpl. apply Qle_bool_iff.
    assert (P : (0 <= 1.5 * (v' + - v))%Q) by (apply Qmult_le_0_compat; lra).
    lra. }
  split; [|split; [|split; [|split]]].
  - apply in_map_iff in Ha as (lo & Elo & Hlo).
    apply in_map_iff in Hb' as (hi & Ehi & Hhi).
    exists lo, hi. rewrite Elo, Ehi, Hq1, Hq3. simpl.
    rewrite !Qle_bool_iff. auto.
  - rewrite Hq1, Hq3. simpl. now apply Qle_bool_iff.
  - exact Hlow.
  - exact Hhigh.
  - intros r H1 H3. unfold is_outlier, fgt.
    pose proof (fle_trans _ _ _ Hlow H1) as Hl.
    pose proof (fle_trans _ _ _ H3 Hhigh) as Hh.
    rewrite (fle_not_flt _ _ (fle_nan_l _ _ Hl) (fle_nan_r _ _ Hl)) in Hl.
    rewrite (fle_not_flt _ _ (fle_nan_l _ _ Hh) (fle_nan_r _ _ Hh)) in Hh.
    apply negb_true_iff in Hl, Hh. now rewrite Hl, Hh.
Qed.

Lemma quartiles_enclosed_witness :
  base Ex.c9_csv <> [] /\
  (forall r, In r (base Ex.c9_csv) -> isfinite (value r) = true) /\
  fle (q1 (base Ex.c9_csv)) (q3 (base Ex.c9_csv)) = true /\
  fle (lim_inf (base Ex.c9_csv)) (q1 (base Ex.c9_csv)) = true.
Proof.
  assert (H1 : base Ex.c9_csv <> []) by (vm_compute; discriminate).
  assert (H2 : forall r, In r (base Ex.c9_csv) -> isfinite (value r) = true).
  { intros r Hr. vm_compute in Hr.
    repeat (destruct Hr as [<-|Hr]; [reflexivity|]). destruct Hr. }
  split; [exact H1|]. split; [exact H2|].
  destruct (quartiles_enclosed (base Ex.c9_csv) H1 H2) as (_ & Ha & Hb & _).
  split; [exact Ha | exact Hb].
Defined.

(** X16. A table whose non-missing values are finite and all equal, in
    particular a table with a single record, has no outlier: both quartiles
    equal the common value, the interquartile range is zero and the strict
    comparisons flag nothing.  So does the empty table. *)
Theorem equal_values_have_no_outliers (csv : DataFrame) (out : Frame) :
  (forall r, In r (base csv) -> isfinite (value r) = true) ->
  (forall r r', In r (base csv) -> In r' (base csv) ->
                feq (value r) (value r') = true) ->
  outliers csv out ->
  out = [].
Proof.
  intros Hfin Heq [Hperm _].
  assert (Hnil : filter (is_outlier (base csv)) (base csv) = []).
  { apply filter_nil_iff. intros r Hr.
    assert (Hne : base csv <> []) by (intros E; now rewrite E in Hr).
    destruct (quartiles_enclosed (base csv) Hne Hfin)
      as ((lo & hi & Hlo & Hhi & Hl1 & H3h) & H13 & _ & _ & Hmid).
    apply Hmid.
    - eapply fle_trans; [exact H13|]. eapply fle_trans; [exact H3h|].
      apply (feq_fle _ _ (Heq hi r Hhi Hr)).
    - eapply fle_trans; [|exact H13]. eapply fle_trans; [|exact Hl1].
      apply (feq_fle _ _ (Heq r lo Hr Hlo)). }
  rewrite Hnil in Hperm. now apply Permutation_nil in Hperm.
Qed.

Lemma equal_values_have_no_outliers_witness :
  (forall r, In r (base Ex.x_csv_equal) -> isfinite (value r) = true) /\
  (forall r r', In r (base Ex.x_csv_equal) -> In r' (base Ex.x_csv_equal) ->
                feq (value r) (value r') = true) /\
  outliers Ex.x_csv_equal [] /\
  @nil (nat * Row) = [].
Proof.
  assert (H1 : forall r, In r (base Ex.x_csv_equal) -> isfinite (value r) = true).
  { intros r Hr. vm_compute in Hr.
    repeat (destruct Hr as [<-|Hr]; [reflexivity|]). destruct Hr. }
  assert (H2 : forall r r', In r (base Ex.x_csv_equal) ->
                            In r' (base Ex.x_csv_equal) ->
                            feq (value r) (value r') = true).
  { intros r r' Hr Hr'. vm_compute in Hr, Hr'.
    repeat (destruct Hr as [<-|Hr];
            [repeat (destruct Hr' as [<-|Hr']; [reflexivity|]); destruct Hr'|]).
    destruct Hr. }
  assert (H3 : outliers Ex.x_csv_equal []).
  { split; [vm_compute; constructor | constructor]. }
  split; [exact H1|]. split; [exact H2|]. split; [exact H3|].
  exact (equal_values_have_no_outliers Ex.x_csv_equal [] H1 H2 H3).
Defined.

(** ** Hottest against coldest *)

Lemma by_label_NoDup (l : Frame) : StronglySorted by_label l -> NoDup l.
Proof.
  intros Hs. induction Hs as [|x l Hs IH Hall]; constructor; [|exact IH].
  intros Hin. apply (proj1 (Forall_forall _ _) Hall) in Hin.
  unfold by_label in Hin. lia.
Qed.

Lemma fle_antisym_feq (x y : pyfloat) :
  fle x y = true -> fle y x = true -> feq x y = true.
Proof.
  destruct x, y; simpl; try discriminate; auto.
  rewrite !Qle_bool_iff, Qeq_bool_iff. apply Qle_antisym.
Qed.

Lemma NoDup_app_disjoint {A} (l1 l2 : list A) (x : A) :
  NoDup (l1 ++ l2)%list -> In x l1 -> In x l2 -> False.
Proof.
  intros Hnd H1 H2. apply in_split in H1 as (u & w & ->).
  rewrite <- app_assoc in Hnd. simpl in Hnd.
  apply NoDup_remove_2 in Hnd. apply Hnd.
  apply in_or_app. right. apply in_or_app. now right.
Qed.

(** In a frame of pairwise distinct values with at least twenty rows, no
    row is among the first ten both by decreasing and by increasing value. *)
Lemma first_tens_disjoint (df sd sa : Frame) :
  NoDup df ->
  (forall r, In r df -> isnan (value r) = false) ->
  (forall r r', In r df -> In r' df ->
                feq (value r) (value r') = true -> r = r') ->
  (20 <= length df)%nat ->
  sort_values false df sd -> sort_values true df sa ->
  forall r, In r (firstn 10 sd) -> In r (firstn 10 sa) -> False.
Proof.
  intros Hnd Hnn Hdist Hlen Hd Ha r Hrd Hra.
  pose proof (sort_values_no_nan false df sd Hnn Hd) as Hsd.
  pose proof (sort_values_no_nan true df sa Hnn Ha) as Hsa.
  destruct Hd as [Hpd _]. destruct Ha as [Hpa _].
  simpl in Hsd, Hsa.
  rewrite <- (firstn_skipn 10 sd) in Hsd.
  rewrite <- (firstn_skipn 10 sa) in Hsa.
  assert (Hndd : NoDup (firstn 10 sd ++ skipn 10 sd)%list).
  { rewrite firstn_skipn. eapply Permutation_NoDup; [exact Hpd | exact Hnd]. }
  assert (Hnda : NoDup (firstn 10 sa ++ skipn 10 sa)%list).
  { rewrite firstn_skipn. eapply Permutation_NoDup; [exact Hpa | exact Hnd]. }
  assert (Hin_df : forall l x, Permutation df l -> In x l -> In x df)
    by (intros l x Hp Hx; eapply Permutation_in;
        [apply Permutation_sym, Hp | exact Hx]).
  assert (Hr_df : In r df).
  { apply (Hin_df sd); [exact Hpd|].
    rewrite <- (firstn_skipn 10 sd). apply in_or_app. now left. }
  (* every row ranked after the tenth by decreasing value is among the
     first ten by increasing value *)
  assert (Hincl : incl (r :: skipn 10 sd) (firstn 10 sa)).
  { intros b [<-|Hb]; [exact Hra|].
    assert (Hb_df : In b df).
    { apply (Hin_df sd); [exact Hpd|].
      rewrite <- (firstn_skipn 10 sd). apply in_or_app. now right. }
    assert (Hb_sa : In b (firstn 10 sa ++ skipn 10 sa)%list).
    { rewrite firstn_skipn. eapply Permutation_in; [exact Hpa | exact Hb_df]. }
    apply in_app_or in Hb_sa as [Hb_top|Hb_rest]; [exact Hb_top|].
    exfalso.
    pose proof (StronglySorted_app_cross _ _ _ Hsd r b Hrd Hb) as H1.
    pose proof (StronglySorted_app_cross _ _ _ Hsa r b Hra Hb_rest) as H2.
    simpl in H1, H2.
    assert (E : r = b)
      by (apply Hdist; auto; now apply fle_antisym_feq).
    subst b.
    exact (NoDup_app_disjoint _ _ _ Hndd Hrd Hb). }
  assert (Hnd_l : NoDup (r :: skipn 10 sd)).
  { constructor; [|now apply NoDup_app_remove_l in Hndd].
    intros Hb. exact (NoDup_app_disjoint _ _ _ Hndd Hrd Hb). }
  pose proof (NoDup_incl_length Hnd_l Hincl) as Hcount.
  change (length (r :: skipn 10 sd)) with (S (length (skipn 10 sd))) in Hcount.
  rewrite length_skipn, length_firstn in Hcount.
  rewrite <- (Permutation_length Hpd), <- (Permutation_length Hpa) in Hcount.
  lia.
Qed.

(** X17. With at least twenty non-missing records of pairwise distinct
    values, the table of the ten hottest and the table of the ten coldest
    have no row in common, whatever order the sort gives to the rows. *)
Theorem top_tables_disjoint (csv hot cold : DataFrame) :
  (20 <= length (base csv))%nat ->
  (forall r r', In r (base csv) -> In r' (base csv) ->
                feq (value r) (value r') = true -> r = r') ->
  top_quentes csv hot -> top_frias csv cold ->
  forall row, In row hot -> ~ In row cold.
Proof.
  intros Hlen Hdist (sd & Hd & ->) (sa & Ha & ->) row Hh Hc.
  unfold reset_index in Hh, Hc.
  apply in_map_iff in Hh as (rd & <- & Hrd).
  apply in_map_iff in Hc as (ra & Era & Hra).
  assert (Hin : forall l x, Permutation (base csv) l ->
                            In x (firstn 10 l) -> In x (base csv)).
  { intros l x Hp Hx. eapply Permutation_in; [apply Permutation_sym, Hp|].
    rewrite <- (firstn_skipn 10 l). apply in_or_app. now left. }
  pose proof (Hin sd rd (proj1 Hd) Hrd) as Hrd_df.
  pose proof (Hin sa ra (proj1 Ha) Hra) as Hra_df.
  assert (E : ra = rd).
  { apply Hdist; auto. unfold value. rewrite Era.
    apply fle_antisym_feq; apply fle_refl; now apply (base_no_nan csv). }
  subst ra.
  exact (first_tens_disjoint (base csv) sd sa
           (by_label_NoDup _ (base_by_label csv)) (base_no_nan csv)
           Hdist Hlen Hd Ha rd Hrd Hra).
Qed.

Lemma top_tables_disjoint_witness :
  (20 <= length (base Ex.x_csv20))%nat /\
  top_quentes Ex.x_csv20 (reset_index (firstn 10 (rev (base Ex.x_csv20)))) /\
  top_frias Ex.x_csv20 (reset_index (firstn 10 (base Ex.x_csv20))) /\
  forall row,
    In row (reset_index (firstn 10 (rev (base Ex.x_csv20)))) ->
    ~ In row (reset_index (firstn 10 (base Ex.x_csv20))).
Proof.
  assert (Hlen : (20 <= length (base Ex.x_csv20))%nat) by (vm_compute; lia).
  assert (Hdist : forall r r', In r (base Ex.x_csv20) -> In r' (base Ex.x_csv20) ->
                               feq (value r) (value r') = true -> r = r').
  { intros r r' Hr Hr' Hf. vm_compute in Hr, Hr'.
    repeat (destruct Hr as [<-|Hr];
            [repeat (destruct Hr' as [<-|Hr'];
                     [first [reflexivity | vm_compute in Hf; discriminate Hf]|]);
             destruct Hr'|]).
    destruct Hr. }
  assert (Hhot : top_quentes Ex.x_csv20
                   (reset_index (firstn 10 (rev (base Ex.x_csv20))))).
  { exists (rev (base Ex.x_csv20)). split; [|reflexivity]. split.
    - apply Permutation_rev.
    - vm_compute. repeat constructor. }
  assert (Hcold : top_frias Ex.x_csv20
                    (reset_index (firstn 10 (base Ex.x_csv20)))).
  { exists (base Ex.x_csv20). split; [|reflexivity]. split.
    - apply Permutation_refl.
    - vm_compute. repeat constructor. }
  split; [exact Hlen|]. split; [exact Hhot|]. split; [exact Hcold|].
  exact (top_tables_disjoint Ex.x_csv20 _ _ Hlen Hdist Hhot Hcold).
Defined.

(** ** A CSV without data *)

Lemma base_all_missing (csv : DataFrame) :
  (forall row, In row csv -> isnan (temp_media_anual row) = true) ->
  base csv = [].
Proof.
  intros H. unfold base, dropna. apply filter_nil_iff.
  intros r Hr. unfold read_csv in Hr. apply enumerate_In in Hr.
  unfold value. now rewrite (H _ Hr).
Qed.

(** X18. When every record of the CSV is missing (or the CSV is empty),
    [stats.py] still produces all its tables and they are empty: no hottest
    and no coldest municipality, no state, no outlier (the quartiles are NaN
    and every comparison with them is false), and the six bands each with
    count 0. *)
Theorem all_missing_gives_empty_tables (csv : DataFrame) :
  (forall row, In row csv -> isnan (temp_media_anual row) = true) ->
  top_quentes csv [] /\ top_frias csv [] /\ media_estado csv [] /\
  outliers csv [] /\
  (forall out, top_quentes csv out -> out = []) /\
  (forall out, top_frias csv out -> out = []) /\
  (forall out, media_estado csv out -> out = []) /\
  (forall out, outliers csv out -> out = []) /\
  q1 (base csv) = NaN /\ q3 (base csv) = NaN /\
  dist csv = map (fun l => (l, 0%nat)) labels.
Proof.
  intros H. pose proof (base_all_missing csv H) as Hb.
  assert (Hsv : forall asc, sort_values asc (base csv) []).
  { intros asc. rewrite Hb. split; constructor. }
  split; [exists []; split; [apply Hsv | reflexivity]|].
  split; [exists []; split; [apply Hsv | reflexivity]|].
  split; [unfold media_estado; rewrite Hb; split; constructor|].
  split; [unfold outliers; rewrite Hb; split; constructor|].
  split; [|split; [|split; [|split]]].
  - intros out (s & [Hp _] & ->). rewrite Hb in Hp.
    apply Permutation_nil in Hp. now subst s.
  - intros out (s & [Hp _] & ->). rewrite Hb in Hp.
    apply Permutation_nil in Hp. now subst s.
  - intros out [Hp _]. rewrite Hb in Hp. now apply Permutation_nil in Hp.
  - intros out [Hp _]. rewrite Hb in Hp. now apply Permutation_nil in Hp.
  - unfold q1, q3, dist. rewrite Hb. repeat split.
Qed.

Lemma all_missing_gives_empty_tables_witness :
  (forall row, In row Ex.x_csv_missing -> isnan (temp_media_anual row) = true) /\
  outliers Ex.x_csv_missing [] /\
  dist Ex.x_csv_missing = map (fun l => (l, 0%nat)) labels.
Proof.
  assert (H : forall row, In row Ex.x_csv_missing ->
                          isnan (temp_media_anual row) = true).
  { intros row Hr. vm_compute in Hr.
    destruct Hr as [<-|[<-|[]]]; reflexivity. }
  split; [exact H|].
  destruct (all_missing_gives_empty_tables Ex.x_csv_missing H)
    as (_ & _ & _ & Ho & _ & _ & _ & _ & _ & _ & Hd).
  split; [exact Ho | exact Hd].
Defined.

(** ** Where the clipped rasters go *)

Lemma prefix_slash_cons (c : Ascii.ascii) (s : string) :
  String.prefix "/" (String.String c s) = Ascii.eqb c Str.slash.
Proof.
  cbn [String.prefix].
  destruct (Ascii.ascii_dec (Ascii.Ascii true true true true false true false false) c)
    as [E|Hne].
  - rewrite <- E. now destruct s.
  - symmetry. apply Ascii.eqb_neq. intros E. apply Hne. now rewrite E.
Qed.

Lemma contains_slash_cons (c : Ascii.ascii) (s : string) :
  Str.contains "/" (String.String c s) =
  Ascii.eqb c Str.slash || Str.contains "/" s.
Proof.
  change (Str.contains "/" (String.String c s))
    with (String.prefix "/" (String.String c s) || Str.contains "/" s).
  now rewrite prefix_slash_cons.
Qed.

Lemma prefix_slash (s : string) :
  String.prefix "/" s = true -> Str.contains "/" s = true.
Proof.
  destruct s as [|c s]; [discriminate|].
  rewrite prefix_slash_cons, contains_slash_cons. now intros ->.
Qed.

Lemma basename_no_slash (p : string) :
  Str.contains "/" (Str.basename p) = false.
Proof.
  induction p as [|c rest IH]; [reflexivity|].
  cbn [Str.basename].
  destruct (Ascii.eqb c Str.slash) eqn:Ec; [exact IH|].
  destruct (Str.contains "/" rest) eqn:Er; [exact IH|].
  now rewrite contains_slash_cons, Ec, Er.
Qed.

Lemma basename_fixed (s : string) :
  Str.contains "/" s = false -> Str.basename s = s.
Proof.
  destruct s as [|c rest]; [reflexivity|].
  rewrite contains_slash_cons. intros [Ec Er]%orb_false_iff.
  cbn [Str.basename]. now rewrite Ec, Er.
Qed.

Lemma contains_slash_append (d s : string) :
  Str.contains "/" (String.append d (String.append "/" s)) = true.
Proof.
  induction d as [|c d IH].
  - cbn [String.append]. now rewrite contains_slash_cons.
  - change (String.append (String.String c d) (String.append "/" s))
      with (String.String c (String.append d (String.append "/" s))).
    rewrite contains_slash_cons, IH. apply orb_true_r.
Qed.

Lemma basename_append_slash (d s : string) :
  Str.basename (String.append d (String.append "/" s)) = Str.basename s.
Proof.
  induction d as [|c d IH].
  - cbn [String.append Str.basename]. reflexivity.
  - change (String.append (String.String c d) (String.append "/" s))
      with (String.String c (String.append d (String.append "/" s))).
    cbn [Str.basename]. rewrite contains_slash_append.
    destruct (Ascii.eqb c Str.slash); exact IH.
Qed.

(** X19. [clip_rasters_brasil.py] writes the crop of a raster directly
    into [OUTPUT_DIR] under the file name of the source, whatever directory
    the source lies in: the base name survives, so the month token
    [tavg_MM] that [index.py] looks for in base names is found in the
    clipped file exactly when it is in the source, and clipping a clipped
    raster again writes to the same path. *)
Theorem clip_keeps_file_name (raster_path : string) :
  Clip.out_path raster_path =
  String.append "raster_brasil/" (Str.basename raster_path) /\
  Str.basename (Clip.out_path raster_path) = Str.basename raster_path /\
  (forall month,
      name_match month (Clip.out_path raster_path) =
      name_match month raster_path) /\
  Clip.out_path (Clip.out_path raster_path) = Clip.out_path raster_path.
Proof.
  assert (Hout : forall p, Clip.out_path p =
                           String.append "raster_brasil"
                             (String.append "/" (Str.basename p))).
  { intros p. unfold Clip.out_path, Clip.os_path_join.
    destruct (String.prefix "/" (Str.basename p)) eqn:E.
    - apply prefix_slash in E. now rewrite basename_no_slash in E.
    - reflexivity. }
  assert (Hbase : forall p, Str.basename (Clip.out_path p) = Str.basename p).
  { intros p. rewrite Hout, basename_append_slash.
    apply basename_fixed, basename_no_slash. }
  split; [apply Hout|]. split; [apply Hbase|]. split.
  - intros month. unfold name_match. now rewrite Hbase.
  - rewrite (Hout (Clip.out_path raster_path)), Hbase. symmetry. apply Hout.
Qed.

(** ** The order in which the rasters are listed *)

Lemma ascii_compare_trans (a b c : Ascii.ascii) :
  Ascii.compare a b <> Gt -> Ascii.compare b c <> Gt ->
  Ascii.compare a c <> Gt /\
  (Ascii.compare a c = Eq -> Ascii.compare a b = Eq /\ Ascii.compare b c = Eq).
Proof.
  unfold Ascii.compare. intros Ha Hb.
  change (Ascii.N_of_ascii a <= Ascii.N_of_ascii b)%N in Ha.
  change (Ascii.N_of_ascii b <= Ascii.N_of_ascii c)%N in Hb.
  split.
  - change (Ascii.N_of_ascii a <= Ascii.N_of_ascii c)%N. lia.
  - intros E. apply N.compare_eq_iff in E.
    split; apply N.compare_eq_iff; lia.
Qed.

Lemma string_compare_trans (s1 : string) : forall s2 s3,
  String.compare s1 s2 <> Gt -> String.compare s2 s3 <> Gt ->
  String.compare s1 s3 <> Gt.
Proof.
  induction s1 as [|a s1 IH]; intros [|b s2] [|c s3]; simpl;
    try congruence.
  intros H1 H2.
  destruct (Ascii.compare a b) eqn:Eab; try congruence;
    destruct (Ascii.compare b c) eqn:Ebc; try congruence;
    destruct (ascii_compare_trans a b c) as [Hac Heq];
    try (rewrite Eab; congruence); try (rewrite Ebc; congruence);
    destruct (Ascii.compare a c) eqn:Eac; try congruence;
    try (destruct (Heq eq_refl) as [E1 E2]; congruence).
  now apply (IH s2 s3).
Qed.

Lemma leb_trans (s1 s2 s3 : string) :
  String.leb s1 s2 = true -> String.leb s2 s3 = true -> String.leb s1 s3 = true.
Proof.
  unfold String.leb. intros H1 H2.
  pose proof (string_compare_trans s1 s2 s3) as H.
  destruct (String.compare s1 s2); try discriminate;
    destruct (String.compare s2 s3); try discriminate;
    destruct (String.compare s1 s3); try reflexivity;
    exfalso; apply H; congruence.
Qed.

Lemma insert_sorted_sorted (x : string) (l : list string) :
  StronglySorted Str.leb_prop l -> StronglySorted Str.leb_prop (Str.insert_sorted x l).
Proof.
  intros Hs. induction Hs as [|y l Hs IH Hall]; simpl.
  - repeat constructor.
  - destruct (String.leb x y) eqn:E.
    + constructor; [now constructor|].
      constructor; [exact E|].
      apply Forall_forall. intros z Hz. unfold Str.leb_prop.
      eapply leb_trans; [exact E|].
      apply (proj1 (Forall_forall _ _) Hall z Hz).
    + constructor; [exact IH|].
      apply Forall_forall. intros z Hz.
      apply (Permutation_in _ (Permutation_sym (insert_sorted_perm x l))) in Hz.
      destruct Hz as [<-|Hz].
      * destruct (String.leb_total x y) as [H|H]; [congruence | exact H].
      * apply (proj1 (Forall_forall _ _) Hall z Hz).
Qed.

Lemma sorted_sorted (l : list string) : StronglySorted Str.leb_prop (Str.sorted l).
Proof.
  induction l as [|x l IH]; simpl; [constructor|].
  now apply insert_sorted_sorted.
Qed.

Lemma sorted_unique (l1 : list string) : forall l2,
  StronglySorted Str.leb_prop l1 -> StronglySorted Str.leb_prop l2 ->
  Permutation l1 l2 -> l1 = l2.
Proof.
  induction l1 as [|x l1 IH]; intros l2 H1 H2 Hp.
  - apply Permutation_nil in Hp. now subst.
  - destruct l2 as [|y l2];
      [apply Permutation_sym, Permutation_nil in Hp; discriminate|].
    inversion H1 as [|? ? H1' Hx]; subst.
    inversion H2 as [|? ? H2' Hy]; subst.
    assert (E : x = y).
    { assert (Hxin : In x (y :: l2))
        by (eapply Permutation_in; [exact Hp | now left]).
      assert (Hyin : In y (x :: l1))
        by (eapply Permutation_in; [apply Permutation_sym, Hp | now left]).
      destruct Hxin as [E|Hxin]; [now symmetry|].
      destruct Hyin as [E|Hyin]; [exact E|].
      apply String.leb_antisym.
      - apply (proj1 (Forall_forall _ _) Hx y Hyin).
      - apply (proj1 (Forall_forall _ _) Hy x Hxin). }
    subst y. f_equal. apply IH; auto.
    now apply Permutation_cons_inv in Hp.
Qed.

Lemma sorted_of_permutation (l1 l2 : list string) :
  Permutation l1 l2 -> Str.sorted l1 = Str.sorted l2.
Proof.
  intros Hp. apply sorted_unique; try apply sorted_sorted.
  rewrite <- (sorted_perm l1), <- (sorted_perm l2). exact Hp.
Qed.

Lemma lookup_Some_iff (files : FileSystem) (p : string) (f : RasterFile) :
  NoDup (map fst files) ->
  (lookup files p = Some f <-> In (p, f) files).
Proof.
  unfold lookup. induction files as [|[p0 f0] files IH]; intros Hnd; simpl.
  - split; [discriminate | intros []].
  - inversion Hnd as [|? ? Hnotin Hnd']; subst.
    destruct (String.eqb p0 p) eqn:E.
    + apply String.eqb_eq in E. subst p0. simpl. split.
      * intros [= <-]. now left.
      * intros [[= <-]|Hin]; [reflexivity|].
        exfalso. apply Hnotin. apply in_map_iff. now exists (p, f).
    + rewrite (IH Hnd'). split; [now right|].
      intros [[= -> _]|Hin]; [|exact Hin].
      rewrite String.eqb_refl in E. discriminate.
Qed.

Lemma lookup_of_permutation (files files' : FileSystem) (p : string) :
  NoDup (map fst files) -> Permutation files files' ->
  lookup files p = lookup files' p.
Proof.
  intros Hnd Hp.
  assert (Hnd' : NoDup (map fst files'))
    by (eapply Permutation_NoDup; [apply Permutation_map, Hp | exact Hnd]).
  destruct (lookup files p) as [f|] eqn:E.
  - symmetry. apply (lookup_Some_iff files' p f Hnd').
    eapply Permutation_in; [exact Hp|].
    now apply (lookup_Some_iff files p f Hnd).
  - destruct (lookup files' p) as [f'|] eqn:E'; [|reflexivity].
    apply (lookup_Some_iff files' p f' Hnd') in E'.
    apply (Permutation_in _ (Permutation_sym Hp)) in E'.
    apply (lookup_Some_iff files p f' Hnd) in E'. congruence.
Qed.

Lemma run_of_load_failure (args : Args) (shapefile : list Municipio)
  (files : FileSystem) (e : exn) :
  load_municipios args shapefile [] = (inl e, []) ->
  run args shapefile files = (inl e, []).
Proof.
  intros Hm. unfold run, main. unfold bind at 1. now rewrite Hm.
Qed.

Lemma run_of_select_failure (args : Args) (shapefile ms : list Municipio)
  (files : FileSystem) (e : exn) :
  load_municipios args shapefile [] = (inr ms, []) ->
  select_rasters args files [] = (inl e, []) ->
  run args shapefile files = (inl e, []).
Proof.
  intros Hm Hs. unfold run, main. unfold bind at 1. rewrite Hm.
  unfold bind at 1. now rewrite Hs.
Qed.

(** X20. The result of a run does not depend on the order in which the
    file system lists the rasters: the paths are sorted before anything is
    selected, so two listings of the same files (with distinct paths) give
    the same exception or the same table and the same event log. *)
Theorem run_independent_of_listing_order
  (args : Args) (shapefile : list Municipio) (files files' : FileSystem) :
  NoDup (map fst files) -> Permutation files files' ->
  run args shapefile files = run args shapefile files'.
Proof.
  intros Hnd Hp.
  assert (Hsorted : Str.sorted (map fst files) = Str.sorted (map fst files'))
    by (apply sorted_of_permutation, Permutation_map, Hp).
  assert (Hsel : select_rasters args files [] = select_rasters args files' [])
    by (unfold select_rasters; now rewrite Hsorted).
  assert (Hraster : forall r, raster_of files r = raster_of files' r)
    by (intros r; unfold raster_of;
        now rewrite (lookup_of_permutation files files' r Hnd Hp)).
  destruct (load_municipios_result args shapefile) as [[ms Hm]|Hm].
  - pose proof (select_rasters_trace args files []) as Ht.
    destruct (select_rasters args files []) as [[e|rasters] tr] eqn:Hs;
      simpl in Ht; subst tr; symmetry in Hsel.
    + rewrite (run_of_select_failure args shapefile ms files e Hm Hs).
      now rewrite (run_of_select_failure args shapefile ms files' e Hm Hsel).
    + rewrite (run_ok args shapefile files ms rasters Hm Hs).
      rewrite (run_ok args shapefile files' ms rasters Hm Hsel).
      assert (Hscale : scale_of_run (escala args) files rasters =
                       scale_of_run (escala args) files' rasters).
      { unfold scale_of_run, own_scale.
        destruct (escala args); [reflexivity|].
        destruct rasters; [reflexivity|]. now rewrite Hraster. }
      assert (Htable :
                map (fun r => linha (scale_of_run (escala args) files rasters)
                                    (zs_of ms files r)) rasters =
                map (fun r => linha (scale_of_run (escala args) files' rasters)
                                    (zs_of ms files' r)) rasters).
      { rewrite Hscale. apply map_ext. intros r. unfold zs_of.
        now rewrite Hraster. }
      cbv zeta. now rewrite Htable.
  - rewrite (run_of_load_failure args shapefile files _ Hm).
    now rewrite (run_of_load_failure args shapefile files' _ Hm).
Qed.

Lemma run_independent_of_listing_order_witness :
  NoDup (map fst Ex.c1_files) /\ Permutation Ex.c1_files Ex.x_files_rev /\
  run Ex.no_args [Ex.whole_band] Ex.c1_files =
  run Ex.no_args [Ex.whole_band] Ex.x_files_rev.
Proof.
  assert (H1 : NoDup (map fst Ex.c1_files)).
  { vm_compute.
    repeat (constructor;
            [intros H; simpl in H;
             repeat (destruct H as [H|H]; [discriminate H|]); exact H|]).
    constructor. }
  assert (H2 : Permutation Ex.c1_files Ex.x_files_rev) by apply Permutation_rev.
  split; [exact H1|]. split; [exact H2|].
  exact (run_independent_of_listing_order Ex.no_args [Ex.whole_band] _ _ H1 H2).
Defined.
